(** * insertdox: a shallow embedding of the comment-inserting parser

    The development follows the C sources [stringutils.c] and [parser.c].
    Text is a list of characters, positions are offsets (in [Z]) from
    [buf->data], the output stream [buf->file] is the list of characters
    written so far, and every [while] loop of the sources is a structural
    recursion on the exact number of iterations the loop can make. *)

From Stdlib Require Import String Ascii ZArith List Bool Lia.
Import ListNotations.
Open Scope Z_scope.

(** ** Characters *)

Definition code (c : ascii) : Z := Z.of_N (N_of_ascii c).

Definition NUL : ascii := "000"%char.
Definition TAB : ascii := "009"%char.
Definition LF : ascii := "010"%char.
Definition CR : ascii := "013"%char.
Definition DQUOTE : ascii := "034"%char.

Definition str (s : string) : list ascii := list_ascii_of_string s.

(** [<ctype.h>] in the "C" locale; characters above 127 belong to no class. *)
Definition isspace (c : ascii) : bool :=
  (code c =? 32) || ((9 <=? code c) && (code c <=? 13)).

Definition isdigit (c : ascii) : bool := (48 <=? code c) && (code c <=? 57).
Definition isupper (c : ascii) : bool := (65 <=? code c) && (code c <=? 90).
Definition islower (c : ascii) : bool := (97 <=? code c) && (code c <=? 122).
Definition isalnum (c : ascii) : bool := isdigit c || isupper c || islower c.

Definition ispunct (c : ascii) : bool :=
  ((33 <=? code c) && (code c <=? 47)) || ((58 <=? code c) && (code c <=? 64))
  || ((91 <=? code c) && (code c <=? 96)) || ((123 <=? code c) && (code c <=? 126)).

Definition tolower (c : ascii) : ascii :=
  if isupper c then ascii_of_N (Z.to_N (code c + 32)) else c.

(** ** Memory reads

    [peek mem p] is [*p] for a pointer [p = buf->data + p] into the text
    [mem] accumulated so far. *)

(** Modelled from the spec: the storage behind the accumulation buffer
    (bufferutils.c is not part of the sources).  The spec has the buffer
    "fully reset (not merely truncated)" at every flush, so a read outside
    the accumulated text finds a NUL. *)
Definition peek (mem : list ascii) (p : Z) : ascii :=
  if p <? 0 then NUL else nth (Z.to_nat p) mem NUL.

(** Modelled from the spec: "verbatim-range emission" works on "explicit
    (start,end) offset pairs ... all arithmetic bounds-checked": the part of
    [start, end) that lies inside the text. *)
Definition slice (mem : list ascii) (s e : Z) : list ascii :=
  firstn (Z.to_nat (e - Z.max 0 s)) (skipn (Z.to_nat s) mem).

(** [while (p < end && f( *p )) ++p;] started with [fuel = end - p]. *)
Fixpoint scan_fwd (f : ascii -> bool) (mem : list ascii) (fuel : nat) (p : Z) : Z :=
  match fuel with
  | O => p
  | S k => if f (peek mem p) then scan_fwd f mem k (p + 1) else p
  end.

(** [while (p > start && f( *p )) --p;] started with [fuel = p - start]. *)
Fixpoint scan_bwd (f : ascii -> bool) (mem : list ascii) (fuel : nat) (p : Z) : Z :=
  match fuel with
  | O => p
  | S k => if f (peek mem p) then scan_bwd f mem k (p - 1) else p
  end.

(** ** stringutils.c *)

Definition skipSpace (mem : list ascii) (ptr end_ : Z) : Z :=
  scan_fwd isspace mem (Z.to_nat (end_ - ptr)) ptr.

Definition trimSpace (mem : list ascii) (ptr start : Z) : Z :=
  scan_bwd isspace mem (Z.to_nat (ptr - 1 - start)) (ptr - 1) + 1.

Definition iscommentpunct (c : ascii) : bool :=
  isspace c || (c =? "/")%char || (c =? "*")%char.

Definition skipComment (mem : list ascii) (ptr end_ : Z) : Z :=
  scan_fwd iscommentpunct mem (Z.to_nat (end_ - ptr)) ptr.

Definition trimComment (mem : list ascii) (ptr start : Z) : Z :=
  scan_bwd iscommentpunct mem (Z.to_nat (ptr - 1 - start)) (ptr - 1) + 1.

Definition skipPunct (mem : list ascii) (ptr end_ : Z) : Z :=
  scan_fwd (fun c => isspace c || ispunct c) mem (Z.to_nat (end_ - ptr)) ptr.

(** [strncmp(p, lit, strlen(lit)) == 0]: the literal has no NUL, so the
    comparison succeeds exactly when every character agrees. *)
Fixpoint strncmp0 (mem : list ascii) (p : Z) (lit : list ascii) : bool :=
  match lit with
  | [] => true
  | c :: lit' => (peek mem p =? c)%char && strncmp0 mem (p + 1) lit'
  end.

(** [strncasecmp(p, lit, strlen(lit)) == 0]. *)
Fixpoint strncasecmp0 (mem : list ascii) (p : Z) (lit : list ascii) : bool :=
  match lit with
  | [] => true
  | c :: lit' => (tolower (peek mem p) =? tolower c)%char && strncasecmp0 mem (p + 1) lit'
  end.

(** *** String lists

    One [tStringList] element is its [string] field: a heap block
    (the characters with their terminating NUL), or [None] for a NULL
    pointer.  The list is the chain of [next] pointers from the head. *)

Definition tStringList := list (option (list ascii)).

Definition size_t_max : Z := 2 ^ 64.

(** [len] characters read from [p] on ([memcpy]). *)
Fixpoint memread (mem : list ascii) (p : Z) (len : nat) : list ascii :=
  match len with
  | O => []
  | S k => peek mem p :: memread mem (p + 1) k
  end.

(** [addString]; [ok_element] and [ok_string] are the outcomes of its two
    [malloc] calls, in order.  The result is the list afterwards.  With
    [end_] before [start] the length wraps around to more than half of the
    address space, and when both allocations succeed all the same (the second
    one is [malloc(0)] for [end_ = start - 1]) the [memcpy] of that many bytes
    is an invalid memory access: [None]. *)
Definition addString (ok_element ok_string : bool)
    (sl : tStringList) (mem : list ascii) (start end_ : Z) : option tStringList :=
  if ok_element then
    let len := (end_ - start) mod size_t_max in
    if ok_string then
      if end_ <? start then None
      else Some (Some (memread mem start (Z.to_nat len) ++ [NUL]) :: sl)
    else Some sl
  else Some sl.

(** The characters [fprintf]'s [%s] prints for a block: up to the first NUL. *)
Fixpoint c_str (block : list ascii) : list ascii :=
  match block with
  | [] => []
  | c :: rest => if (c =? NUL)%char then [] else c :: c_str rest
  end.

Definition NL : list ascii := [LF].

(** [dumpStringList], as the characters it appends to the stream. *)
Fixpoint dumpStringList (sl : tStringList) (prefix : list ascii) : list ascii :=
  match sl with
  | [] => []
  | None :: rest => NL ++ prefix ++ str "<null>" ++ dumpStringList rest prefix
  | Some s :: rest => NL ++ prefix ++ c_str s ++ dumpStringList rest prefix
  end.

(** ** The accumulation buffer *)

(** Modelled from the spec: [tRange] and [tBuffer] are declared in
    bufferutils.h, which is not part of the sources.  A range is "a pair
    (start, end) of positions into the current accumulation buffer, plus a
    capture-count"; the fields of the buffer are the ones parser.c uses. *)
Record tRange := mkRange { start : Z; end_ : Z; count : Z }.

Definition noRange : tRange := mkRange 0 0 0.

Definition set_start (v : Z) (r : tRange) : tRange := mkRange v (end_ r) (count r).
Definition set_end (v : Z) (r : tRange) : tRange := mkRange (start r) v (count r).
Definition set_count (v : Z) (r : tRange) : tRange := mkRange (start r) (end_ r) v.

Record tBuffer := mkBuffer {
  file : list ascii;            (* what has been written to buf->file *)
  data : list ascii;            (* the text in [buf->data, buf->ptr) *)
  function : tRange;
  arglist : tRange;
  body : tRange;
  description : tRange;
  commentStart : option Z;      (* None is NULL *)
  statementStart : option Z;    (* None is NULL *)
  fileComment : bool;
  todos : tStringList;
  notes : tStringList;
  retvals : tStringList;
  faulted : bool                (* not in the C struct: the run has made an
                                   invalid memory access and is over *)
}.

(** [buf->ptr], as an offset from [buf->data]. *)
Definition ptr (b : tBuffer) : Z := Z.of_nat (length (data b)).

Definition set_file v b := mkBuffer v (data b) (function b) (arglist b) (body b)
  (description b) (commentStart b) (statementStart b) (fileComment b)
  (todos b) (notes b) (retvals b) (faulted b).
Definition set_data v b := mkBuffer (file b) v (function b) (arglist b) (body b)
  (description b) (commentStart b) (statementStart b) (fileComment b)
  (todos b) (notes b) (retvals b) (faulted b).
Definition set_function v b := mkBuffer (file b) (data b) v (arglist b) (body b)
  (description b) (commentStart b) (statementStart b) (fileComment b)
  (todos b) (notes b) (retvals b) (faulted b).
Definition set_arglist v b := mkBuffer (file b) (data b) (function b) v (body b)
  (description b) (commentStart b) (statementStart b) (fileComment b)
  (todos b) (notes b) (retvals b) (faulted b).
Definition set_body v b := mkBuffer (file b) (data b) (function b) (arglist b) v
  (description b) (commentStart b) (statementStart b) (fileComment b)
  (todos b) (notes b) (retvals b) (faulted b).
Definition set_description v b := mkBuffer (file b) (data b) (function b) (arglist b)
  (body b) v (commentStart b) (statementStart b) (fileComment b)
  (todos b) (notes b) (retvals b) (faulted b).
Definition set_commentStart v b := mkBuffer (file b) (data b) (function b) (arglist b)
  (body b) (description b) v (statementStart b) (fileComment b)
  (todos b) (notes b) (retvals b) (faulted b).
Definition set_statementStart v b := mkBuffer (file b) (data b) (function b) (arglist b)
  (body b) (description b) (commentStart b) v (fileComment b)
  (todos b) (notes b) (retvals b) (faulted b).
Definition set_fileComment v b := mkBuffer (file b) (data b) (function b) (arglist b)
  (body b) (description b) (commentStart b) (statementStart b) v
  (todos b) (notes b) (retvals b) (faulted b).
Definition set_todos v b := mkBuffer (file b) (data b) (function b) (arglist b)
  (body b) (description b) (commentStart b) (statementStart b) (fileComment b)
  v (notes b) (retvals b) (faulted b).
Definition set_notes v b := mkBuffer (file b) (data b) (function b) (arglist b)
  (body b) (description b) (commentStart b) (statementStart b) (fileComment b)
  (todos b) v (retvals b) (faulted b).
Definition set_retvals v b := mkBuffer (file b) (data b) (function b) (arglist b)
  (body b) (description b) (commentStart b) (statementStart b) (fileComment b)
  (todos b) (notes b) v (faulted b).
Definition set_faulted v b := mkBuffer (file b) (data b) (function b) (arglist b)
  (body b) (description b) (commentStart b) (statementStart b) (fileComment b)
  (todos b) (notes b) (retvals b) v.

(** [fprintf(buf->file, ...)] with the formatted characters [s]. *)
Definition fprintf (s : list ascii) (b : tBuffer) : tBuffer := set_file (file b ++ s) b.

(** Modelled from the spec: [initBuffer] of bufferutils.c, the empty
    accumulation state writing to a fresh output stream. *)
Definition initBuffer : tBuffer :=
  mkBuffer [] [] noRange noRange noRange noRange None None false [] [] [] false.

(** Modelled from the spec: [dumpBlock] of bufferutils.c, "verbatim-range
    emission to the output stream". *)
Definition dumpBlock (s e : Z) (b : tBuffer) : tBuffer := fprintf (slice (data b) s e) b.

(** Modelled from the spec: [clearBuffer] of bufferutils.c, "all ranges,
    counts, and mined lists cleared; underlying text storage rewound to
    empty".  The [fileComment] flag is not among them: parser.c clears it
    itself after the flushes that can see it set. *)
Definition clearBuffer (b : tBuffer) : tBuffer :=
  mkBuffer (file b) [] noRange noRange noRange noRange None None (fileComment b) [] [] []
           (faulted b).

(** Modelled from the spec: [emitChar] of bufferutils.c, "append-one-character
    with an overflow signal": the character is stored, and the signal is raised
    when the storage of [capacity] characters cannot accept another one. *)
Definition emitChar (capacity : Z) (c : ascii) (b : tBuffer) : tBuffer * bool :=
  let b' := set_data (data b ++ [c]) b in (b', capacity <=? ptr b').

(** ** Run-wide configuration ([gOptions]) *)

(** Modelled from the spec: [tAppOptions] is declared in common.h, which is
    not part of the sources: "optional boilerplate file path, prototype-only
    flag, current filename".  The boilerplate file is represented by the
    characters read from it (a file that cannot be opened ends the program
    with [exit(1)]; the model takes a configured file to be readable). *)
Record tAppOptions := mkOptions {
  filename : option (list ascii);
  boilerplate : option (list ascii);
  onlyPrototypes : bool
}.

(** ** parser.c *)

Section Parser.

(** The configuration of the run, the allocator (does a [malloc] of so many
    bytes succeed?), and the two constants of bufferutils.h that the sources
    do not show: the capacity of the accumulation buffer and the size of a
    [tBuffer]. *)
Variable gOptions : tAppOptions.
Variable malloc_ok : Z -> bool.
Variable capacity : Z.
Variable sizeof_tBuffer : Z.

Definition sizeof_tStringList : Z := 16.

(** [addString(&list, start, end)] as parser.c calls it, both allocations
    answered by the allocator. *)
Definition addString' (sl : tStringList) (mem : list ascii) (s e : Z) : option tStringList :=
  addString (malloc_ok sizeof_tStringList)
            (malloc_ok ((((e - s) mod size_t_max) + 1) mod size_t_max)) sl mem s e.

(** The buffer after an [addString] on one of its lists. *)
Definition mined (set : tStringList -> tBuffer -> tBuffer)
    (r : option tStringList) (b : tBuffer) : tBuffer :=
  match r with
  | Some sl => set sl b
  | None => set_faulted true b
  end.

(** *** Mining *)

Definition parseComment (b : tBuffer) : tBuffer :=
  match commentStart b with
  | None => b
  | Some cs =>
    let mem := data b in
    let p := skipPunct mem cs (ptr b) in
    let todo :=
      if strncasecmp0 mem p (str "todo") then Some (p + 4)
      else if strncasecmp0 mem p (str "fixme") then Some (p + 5)
      else if strncasecmp0 mem p (str "fix-me") then Some (p + 6)
      else None in
    let b :=
      match todo with
      | Some p =>
        mined set_todos (addString' (todos b) mem (skipPunct mem p (ptr b))
                                    (trimComment mem (ptr b) p)) b
      | None =>
        let note :=
          if strncasecmp0 mem p (str "note") then Some (p + 4)
          else if strncasecmp0 mem p (str "nb") then Some (p + 2)
          else None in
        match note with
        | Some p =>
          mined set_notes (addString' (notes b) mem (skipPunct mem p (ptr b))
                                      (trimComment mem (ptr b) p)) b
        | None => b
        end
      end in
    set_commentStart None b
  end.

(** The number of [c] in [s, e): [while (p < e) if ( *p++ == c) ++count;]. *)
Fixpoint count_char (c : ascii) (mem : list ascii) (fuel : nat) (p : Z) : Z :=
  match fuel with
  | O => 0
  | S k => (if (peek mem p =? c)%char then 1 else 0) + count_char c mem k (p + 1)
  end.

(** The range [parseStatement] hands to [addString] for a statement that
    starts with [return] at [s], when the boundary character is about to be
    stored at [p]. *)
Definition returnValue (mem : list ascii) (s p : Z) : Z * Z :=
  let s := skipSpace mem (s + 6) p in
  let e := trimSpace mem p s in
  if (peek mem s =? "(")%char then
    let count := count_char "(" mem (Z.to_nat (e - s)) s in
    if (count =? 1) && (peek mem (e - 1) =? ")")%char then
      let s := skipSpace mem (s + 1) e in
      let e := trimSpace mem (e - 1) s in
      (s, e)
    else (s, e)
  else (s, e).

Definition parseStatement (b : tBuffer) : tBuffer :=
  match statementStart b with
  | None => b
  | Some s =>
    let b :=
      if strncmp0 (data b) s (str "return") then
        let '(s, e) := returnValue (data b) s (ptr b) in
        mined set_retvals (addString' (retvals b) (data b) s e) b
      else b in
    set_statementStart None b
  end.

(** *** Rendering *)

(** [processBoilerplate]: the boilerplate file is copied to the output when
    one is configured and the 32768-byte transfer block can be allocated. *)
Definition processBoilerplate (b : tBuffer) : tBuffer :=
  match boilerplate gOptions with
  | None => b
  | Some text => if malloc_ok 32768 then fprintf text b else b
  end.

Definition newFileComment (b : tBuffer) : tBuffer :=
  let b := fprintf (str "/**" ++ NL ++ [TAB] ++ str "@file "
                    ++ match filename gOptions with
                       | Some f => f
                       | None => str "<unknown>"
                       end) b in
  let b := fprintf (NL ++ NL ++ [TAB] ++ str "Put a description of the file here." ++ NL) b in
  let b := processBoilerplate b in
  let b := fprintf (NL ++ [TAB]
                    ++ str "@todo Edit file comment (automatically generated by insertdox)") b in
  fprintf (NL ++ str "*/" ++ NL ++ str "/* $Header$ */" ++ NL ++ NL) b.

Definition processFileComment (b : tBuffer) : tBuffer :=
  let s := skipComment (data b) 0 (ptr b) in
  let e := trimComment (data b) (ptr b) s in
  let b := fprintf (str "/**" ++ NL ++ [TAB]) b in
  let b := dumpBlock s e b in
  let b := fprintf NL b in
  let b := processBoilerplate b in
  fprintf (NL ++ str "*/" ++ NL) b.

(** *** The type classifier *)

(** The [static]/[const] loop of [processTyped].  A keyword can only match
    inside the text, and each match moves [s] forward, so the loop makes at
    most [length mem] turns ([strip_quals_fuel]). *)
Fixpoint strip_quals (mem : list ascii) (e : Z) (fuel : nat) (s : Z)
    (isStatic isConst : bool) : Z * bool * bool :=
  match fuel with
  | O => (s, isStatic, isConst)
  | S k =>
    if strncmp0 mem s (str "static") then
      strip_quals mem e k (skipSpace mem (s + 6) e) true isConst
    else if strncmp0 mem s (str "const") then
      strip_quals mem e k (skipSpace mem (s + 5) e) isStatic true
    else (s, isStatic, isConst)
  end.

(** [while (e > s && *e == '*') { ++ptrCount; --e; while (e > s && isspace( *e )) --e; }]
    started with [fuel = e - s]. *)
Fixpoint count_stars (mem : list ascii) (s : Z) (fuel : nat) (e ptrCount : Z) : Z * Z :=
  match fuel with
  | O => (e, ptrCount)
  | S k =>
    if (s <? e) && (peek mem e =? "*")%char then
      count_stars mem s k
        (scan_bwd isspace mem (Z.to_nat (e - 1 - s)) (e - 1)) (ptrCount + 1)
    else (e, ptrCount)
  end.

(** The C string at [p]: the characters up to the first NUL. *)
Definition cstr_at (mem : list ascii) (p : Z) : list ascii :=
  if p <? 0 then [] else c_str (skipn (Z.to_nat p) mem).

(** The first [n] characters of [l], all of [l] when it has no more. *)
Definition take_upto (n : Z) (l : list ascii) : list ascii :=
  if Z.of_nat (length l) <=? n then l else firstn (Z.to_nat n) l.

(** [strncat(dest, src, n)] on the contents of [dest]: at most [n] characters
    of [src] are appended (and then a NUL, which [n] does not count). *)
Definition strncat (dest src : list ascii) (n : Z) : list ascii := dest ++ take_upto n src.

(** [remaining -= k] on a [size_t]. *)
Definition size_sub (remaining k : Z) : Z := (remaining - k) mod size_t_max.

(** [while (ptrCount--) { strncat(type, "a pointer to ", remaining); remaining -= 13; }] *)
Fixpoint add_pointers (ptrCount : nat) (type : list ascii) (remaining : Z) : list ascii * Z :=
  match ptrCount with
  | O => (type, remaining)
  | S k => add_pointers k (strncat type (str "a pointer to ") remaining) (size_sub remaining 13)
  end.

(** The shape of a declarator as [processTyped] finds it. *)
Record tDeclarator := mkDeclarator {
  nameStart : Z;       (* name->start on return *)
  nameEnd : Z;         (* name->end on return *)
  isArray : bool;
  isStatic : bool;
  isConst : bool;
  ptrCount : Z;
  typeStart : Z;       (* s, after the keywords *)
  typeEnd : Z          (* e, before the stars *)
}.

Definition declarator (mem : list ascii) (n_start n_end : Z) : tDeclarator :=
  let s := skipSpace mem n_start n_end in
  let e := trimSpace mem n_end n_start in
  let e := e - 1 in
  let '(isArray, e) :=
    if (peek mem e =? "]")%char then
      let e := scan_bwd (fun c => negb (c =? "[")%char) mem (Z.to_nat (e - s)) (e - 1) in
      (true, if s <? e then e - 1 else e)
    else (false, e) in
  let p := e in
  let e := e + 1 in
  let p := scan_bwd (fun c => isalnum c || (c =? "_")%char) mem (Z.to_nat (p - s + 1)) p + 1 in
  let '(s, isStatic, isConst) := strip_quals mem e (S (length mem)) s false false in
  let e' := trimSpace mem p s - 1 in
  let '(e', ptrCount) := count_stars mem s (Z.to_nat (e' - s)) e' 0 in
  mkDeclarator p e isArray isStatic isConst ptrCount s (e' + 1).

(** The guess about the direction of a parameter. *)
Definition inOnly (d : tDeclarator) : bool :=
  isConst d || ((ptrCount d =? 0) && negb (isArray d)).

(** The contents of the [type] buffer when [processTyped] returns.  The
    [qTypePrefixedWithA] variant of the source is not compiled in: the
    rendered phrase of the spec has no article. *)
Definition typePhrase (mem : list ascii) (size : Z) (d : tDeclarator) : list ascii :=
  let '(type, remaining) := add_pointers (Z.to_nat (ptrCount d)) [] size in
  let '(type, remaining) :=
    if isArray d then (strncat type (str "an array of ") remaining, size_sub remaining 12)
    else (type, remaining) in
  let '(type, remaining) :=
    if isConst d then (strncat type (str "const ") remaining, size_sub remaining 6)
    else (type, remaining) in
  let n := (typeEnd d - typeStart d) mod size_t_max in
  let remaining := if n <? remaining then n else remaining in
  strncat type (cstr_at mem (typeStart d)) remaining.

(** [processTyped(type, size, &isStatic, &inOnly, &name)] with a [type]
    buffer, as both callers have it.  The name range is always narrowed;
    the phrase and the two flags are produced only when [size > 0]. *)
Definition processTyped (mem : list ascii) (size : Z) (n_start n_end : Z)
    : (Z * Z) * option (list ascii * bool * bool) :=
  let d := declarator mem n_start n_end in
  ((nameStart d, nameEnd d),
   if 0 <? size then Some (typePhrase mem size d, isStatic d, inOnly d) else None).

(** The number of bytes of the [type] buffer that [processTyped] stores
    into: the phrase and its terminating NUL. *)
Definition bytesWritten (r : (Z * Z) * option (list ascii * bool * bool)) : Z :=
  match snd r with
  | None => 0
  | Some (type, _, _) => Z.of_nat (length type) + 1
  end.

(** *** Functions *)

Fixpoint streq (a b : list ascii) : bool :=
  match a, b with
  | [], [] => true
  | x :: a', y :: b' => (x =? y)%char && streq a' b'
  | _, _ => false
  end.

(** [sizeof(type)] for the [char type[200]] of [processArgList] and
    [processFunction]. *)
Definition sizeof_type : Z := 200.

(** What [processArgList] prints for the declarator in [s, p). *)
Definition paramLine (s p : Z) (b : tBuffer) : tBuffer * bool :=
  match processTyped (data b) sizeof_type s p with
  | ((n_start, n_end), Some (type, _, inOnly)) =>
    if negb (n_end - n_start =? 4) || negb (strncmp0 (data b) n_start (str "void")) then
      let b := fprintf (NL ++ [TAB] ++ str "@param[in"
                        ++ (if inOnly then [] else str ",out") ++ str "] " ++ [TAB]) b in
      let b := dumpBlock n_start n_end b in
      let b := fprintf (str " " ++ [TAB] ++ type) b in
      (b, true)
    else (b, false)
  | (_, None) => (b, false)
  end.

(** The [while (p < e)] loop of [processArgList], started with
    [fuel = e - p]. *)
Fixpoint argLoop (fuel : nat) (s p : Z) (saidSomething : bool) (b : tBuffer)
    : tBuffer * bool :=
  match fuel with
  | O => (b, saidSomething)
  | S k =>
    let c := peek (data b) p in
    if (c =? ",")%char || (c =? ")")%char then
      let '(b, said) := paramLine s p b in
      argLoop k (p + 1) (p + 1) (saidSomething || said) b
    else argLoop k s (p + 1) saidSomething b
  end.

Definition processArgList (b : tBuffer) : tBuffer :=
  let e := end_ (arglist b) in
  let s := scan_fwd (fun c => isspace c || (c =? "(")%char) (data b)
                    (Z.to_nat (e - start (arglist b))) (start (arglist b)) in
  let '(b, saidSomething) := argLoop (Z.to_nat (e - s)) s s false b in
  if saidSomething then fprintf NL b else b.

Definition processDescription (b : tBuffer) : tBuffer :=
  let b :=
    if 0 <? count (description b) then
      let s := skipComment (data b) (start (description b)) (end_ (description b)) in
      let e := trimComment (data b) (end_ (description b)) s in
      if s =? e then set_description (set_count 0 (description b)) b
      else dumpBlock s e b
    else b in
  let b :=
    if count (description b) =? 0 then
      let b := fprintf (str "Brief description needed.") b in
      fprintf (NL ++ NL ++ [TAB] ++ str "Followed by a more complete description.") b
    else b in
  fprintf NL b.

(** The [@return] part of a function's comment block. *)
Definition returnSection (type : list ascii) (b : tBuffer) : tBuffer :=
  if negb (streq type (str "void")) then
    let b := fprintf (NL ++ [TAB] ++ str "@return " ++ type) b in
    let b := fprintf (dumpStringList (retvals b) ([TAB] ++ str "@retval ")) b in
    fprintf NL b
  else b.

(** The first steps of [processFunction]: the description range is fixed up
    and the text before it is emitted. *)
Definition functionLead (b : tBuffer) : tBuffer :=
  let b :=
    if count (description b) =? 0 then
      let d := start (function b) - 1 in
      set_description (set_end d (set_start d (description b))) b
    else b in
  dumpBlock 0 (start (description b)) b.

(** The comment block [processFunction] writes for the function in the
    buffer. *)
Definition functionComment (b : tBuffer) : tBuffer :=
  let '(type, isStatic) :=
    match snd (processTyped (data b) sizeof_type (start (function b)) (end_ (function b))) with
    | Some (type, isStatic, _) => (type, isStatic)
    | None => ([], false)
    end in
  let b := fprintf (NL ++ str "/**" ++ NL
                    ++ (if isStatic then [TAB] ++ str "@internal" ++ NL ++ NL else [])
                    ++ [TAB]) b in
  let b := processDescription b in
  let b := processArgList b in
  let b := returnSection type b in
  let b := fprintf (dumpStringList (todos b) ([TAB] ++ str "@todo ")) b in
  fprintf (NL ++ [TAB] ++ str "@todo edit me (automatically generated by insertdox)"
           ++ NL ++ str "*/") b.

Definition processFunction (b : tBuffer) : tBuffer :=
  let b := functionLead b in
  let b := functionComment b in
  if onlyPrototypes gOptions then
    let b := dumpBlock (end_ (description b)) (end_ (arglist b)) b in
    fprintf (str ";" ++ NL ++ NL) b
  else
    dumpBlock (end_ (description b)) (ptr b) b.

Definition flushBuffer (b : tBuffer) : tBuffer :=
  let b :=
    if 0 <? ptr b then
      if fileComment b then processFileComment b
      else if (count (function b) =? 1) && (count (arglist b) =? 1) && (count (body b) =? 1)
      then processFunction b
      else if negb (onlyPrototypes gOptions) then dumpBlock 0 (ptr b) b
      else b
    else b in
  clearBuffer b.

(** *** The state machine of [processFile] *)

(** The local variables of [processFile] that live across iterations. *)
Record tState := mkState {
  buf : tBuffer;
  prevc : ascii;
  depthCurly : Z;
  depthRound : Z;
  inComment : bool;
  inCppComment : bool;
  inPreprocessor : bool;
  inSingleQuotes : bool;
  inDoubleQuotes : bool;
  inBetween : bool;
  isLiteral : bool;
  isChar1 : bool;
  atStart : bool;
  doFlush : bool
}.

Definition set_buf v st := mkState v (prevc st) (depthCurly st) (depthRound st)
  (inComment st) (inCppComment st) (inPreprocessor st) (inSingleQuotes st)
  (inDoubleQuotes st) (inBetween st) (isLiteral st) (isChar1 st) (atStart st) (doFlush st).
Definition set_prevc v st := mkState (buf st) v (depthCurly st) (depthRound st)
  (inComment st) (inCppComment st) (inPreprocessor st) (inSingleQuotes st)
  (inDoubleQuotes st) (inBetween st) (isLiteral st) (isChar1 st) (atStart st) (doFlush st).
Definition set_depthCurly v st := mkState (buf st) (prevc st) v (depthRound st)
  (inComment st) (inCppComment st) (inPreprocessor st) (inSingleQuotes st)
  (inDoubleQuotes st) (inBetween st) (isLiteral st) (isChar1 st) (atStart st) (doFlush st).
Definition set_depthRound v st := mkState (buf st) (prevc st) (depthCurly st) v
  (inComment st) (inCppComment st) (inPreprocessor st) (inSingleQuotes st)
  (inDoubleQuotes st) (inBetween st) (isLiteral st) (isChar1 st) (atStart st) (doFlush st).
Definition set_inComment v st := mkState (buf st) (prevc st) (depthCurly st) (depthRound st)
  v (inCppComment st) (inPreprocessor st) (inSingleQuotes st)
  (inDoubleQuotes st) (inBetween st) (isLiteral st) (isChar1 st) (atStart st) (doFlush st).
Definition set_inCppComment v st := mkState (buf st) (prevc st) (depthCurly st) (depthRound st)
  (inComment st) v (inPreprocessor st) (inSingleQuotes st)
  (inDoubleQuotes st) (inBetween st) (isLiteral st) (isChar1 st) (atStart st) (doFlush st).
Definition set_inPreprocessor v st := mkState (buf st) (prevc st) (depthCurly st) (depthRound st)
  (inComment st) (inCppComment st) v (inSingleQuotes st)
  (inDoubleQuotes st) (inBetween st) (isLiteral st) (isChar1 st) (atStart st) (doFlush st).
Definition set_inSingleQuotes v st := mkState (buf st) (prevc st) (depthCurly st) (depthRound st)
  (inComment st) (inCppComment st) (inPreprocessor st) v
  (inDoubleQuotes st) (inBetween st) (isLiteral st) (isChar1 st) (atStart st) (doFlush st).
Definition set_inDoubleQuotes v st := mkState (buf st) (prevc st) (depthCurly st) (depthRound st)
  (inComment st) (inCppComment st) (inPreprocessor st) (inSingleQuotes st)
  v (inBetween st) (isLiteral st) (isChar1 st) (atStart st) (doFlush st).
Definition set_inBetween v st := mkState (buf st) (prevc st) (depthCurly st) (depthRound st)
  (inComment st) (inCppComment st) (inPreprocessor st) (inSingleQuotes st)
  (inDoubleQuotes st) v (isLiteral st) (isChar1 st) (atStart st) (doFlush st).
Definition set_isLiteral v st := mkState (buf st) (prevc st) (depthCurly st) (depthRound st)
  (inComment st) (inCppComment st) (inPreprocessor st) (inSingleQuotes st)
  (inDoubleQuotes st) (inBetween st) v (isChar1 st) (atStart st) (doFlush st).
Definition set_isChar1 v st := mkState (buf st) (prevc st) (depthCurly st) (depthRound st)
  (inComment st) (inCppComment st) (inPreprocessor st) (inSingleQuotes st)
  (inDoubleQuotes st) (inBetween st) (isLiteral st) v (atStart st) (doFlush st).
Definition set_atStart v st := mkState (buf st) (prevc st) (depthCurly st) (depthRound st)
  (inComment st) (inCppComment st) (inPreprocessor st) (inSingleQuotes st)
  (inDoubleQuotes st) (inBetween st) (isLiteral st) (isChar1 st) v (doFlush st).
Definition set_doFlush v st := mkState (buf st) (prevc st) (depthCurly st) (depthRound st)
  (inComment st) (inCppComment st) (inPreprocessor st) (inSingleQuotes st)
  (inDoubleQuotes st) (inBetween st) (isLiteral st) (isChar1 st) (atStart st) v.

(** [f(buf)] on the buffer of the state. *)
Definition on_buf (f : tBuffer -> tBuffer) (st : tState) : tState := set_buf (f (buf st)) st.

(** [nextc == x]; [None] is EOF. *)
Definition is_char (nextc : option ascii) (x : ascii) : bool :=
  match nextc with
  | Some n => (n =? x)%char
  | None => false
  end.

(** [buf->description.end = e; ++buf->description.count;] *)
Definition closeDescription (e : Z) (b : tBuffer) : tBuffer :=
  set_description (mkRange (start (description b)) e (count (description b) + 1)) b.

(** A comment has just opened: [if (inComment) { if (depthCurly == 0) ... }]
    of the preprocessor and of the plain branch. *)
Definition openComment (st : tState) : tState :=
  if inComment st then
    if depthCurly st =? 0 then
      on_buf (fun b => let b := flushBuffer b in
                       set_description (set_start (ptr b) (description b)) b) st
    else on_buf (fun b => set_commentStart (Some (ptr b)) b) st
  else st.

(** [switch (nextc)] after a [/]: which comment, if any, begins here.  In
    both places the machine is outside a comment when it gets there. *)
Definition slash (nextc : option ascii) (st : tState) : tState :=
  let st :=
    if is_char nextc "/" then set_inComment true (set_inCppComment true st)
    else if is_char nextc "*" then set_inComment true st
    else st in
  openComment st.

(** The branch of a line comment ([inCppComment]). *)
Definition lexCppComment (c : ascii) (st : tState) : tState :=
  if (c =? LF)%char || (c =? CR)%char then
    let st := set_isChar1 true (set_inPreprocessor false
                (set_inComment false (set_inCppComment false st))) in
    if depthCurly st =? 0 then
      let st := on_buf (fun b => closeDescription (ptr b) b) st in
      if fileComment (buf st) then
        on_buf (fun b => set_fileComment false (flushBuffer b)) st
      else st
    else on_buf parseComment st
  else st.

(** The branch of a block comment. *)
Definition lexBlockComment (c : ascii) (st : tState) : tState :=
  if (prevc st =? "*")%char && (c =? "/")%char then
    let st := set_inComment false st in
    if depthCurly st =? 0 then
      let st := on_buf (fun b => closeDescription (ptr b + 1) b) st in
      if fileComment (buf st) then set_doFlush true st else st
    else on_buf parseComment st
  else st.

(** The branch of a preprocessor directive. *)
Definition lexPreprocessor (c : ascii) (nextc : option ascii) (st : tState) : tState :=
  if (c =? LF)%char || (c =? CR)%char then
    let st :=
      if inCppComment st then
        let st := set_inComment false (set_inCppComment false st) in
        if depthCurly st =? 0 then on_buf (fun b => closeDescription (ptr b) b) st
        else on_buf parseComment st
      else st in
    let st :=
      if (depthCurly st =? 0) && negb (inComment st) then set_doFlush true st else st in
    set_isChar1 true (set_inPreprocessor false st)
  else if (c =? "/")%char then slash nextc st
  else st.

(** The plain branch: the [switch (c)] outside comments, directives and
    quotes. *)
Definition lexPlain (c : ascii) (nextc : option ascii) (st : tState) : tState :=
  if (c =? "\")%char then set_isLiteral true st
  else if (c =? "/")%char then slash nextc st
  else if (c =? "#")%char then
    if isChar1 st then
      let st :=
        (* count = 0, start = NULL, end = NULL *)
        if depthCurly st =? 0 then on_buf (set_description noRange) st else st in
      set_inPreprocessor true st
    else st
  else if (c =? "'")%char then set_inSingleQuotes true st
  else if (c =? DQUOTE)%char then set_inDoubleQuotes true st
  else if (c =? "(")%char then
    let st :=
      if (depthCurly st =? 0) && (depthRound st =? 0) then
        on_buf (fun b =>
          let b := set_function
                     (mkRange (start (function b)) (ptr b) (count (function b) + 1)) b in
          set_arglist (set_start (ptr b) (arglist b)) b) st
      else st in
    set_depthRound (depthRound st + 1) st
  else if (c =? ")")%char then
    let st := set_depthRound (depthRound st - 1) st in
    if (depthCurly st =? 0) && (depthRound st =? 0) then
      on_buf (fun b =>
        set_arglist (mkRange (start (arglist b)) (ptr b + 1) (count (arglist b) + 1)) b) st
    else st
  else if (c =? "{")%char then
    let st :=
      if depthCurly st =? 0 then on_buf (fun b => set_body (set_start (ptr b) (body b)) b) st
      else on_buf parseStatement st in
    set_inBetween true (set_depthCurly (depthCurly st + 1) st)
  else if (c =? "}")%char then
    let st := set_depthCurly (depthCurly st - 1) st in
    let st :=
      if depthCurly st =? 0 then
        set_doFlush true
          (on_buf (fun b =>
             set_body (mkRange (start (body b)) (ptr b + 1) (count (body b) + 1)) b) st)
      else on_buf parseStatement st in
    set_inBetween true st
  else if (c =? ";")%char then
    let st := if depthCurly st =? 0 then set_doFlush true st else on_buf parseStatement st in
    set_inBetween true st
  else if (c =? LF)%char || (c =? CR)%char then set_isChar1 true st
  else if inBetween st && negb (isspace c) then
    let st :=
      if depthCurly st =? 0 then
        on_buf (fun b => set_function (set_start (ptr b) (function b)) b) st
      else on_buf (fun b => set_statementStart (Some (ptr b)) b) st in
    set_inBetween false st
  else st.

(** "the main state machine" *)
Definition lex (c : ascii) (nextc : option ascii) (st : tState) : tState :=
  if isLiteral st then
    if (negb (c =? CR)%char || negb (is_char nextc LF))
       && (negb (c =? LF)%char || negb (is_char nextc CR))
    then set_isLiteral false st else st
  else if inComment st then
    if inCppComment st then lexCppComment c st else lexBlockComment c st
  else if inPreprocessor st then lexPreprocessor c nextc st
  else if inSingleQuotes st then
    if (c =? "'")%char then set_inSingleQuotes false st
    else if (c =? "\")%char then set_isLiteral true st
    else st
  else if inDoubleQuotes st then
    if (c =? DQUOTE)%char then set_inDoubleQuotes false st
    else if (c =? "\")%char then set_isLiteral true st
    else st
  else lexPlain c nextc st.

(** One turn of the [while (c != EOF)] loop on the character [c], with
    [nextc] the character after it, in the four steps that follow the state
    machine. *)

(** "check the first non-whitespace characters to see if it's the start of
    a comment" *)
Definition startCheck (c : ascii) (st : tState) : tState :=
  if atStart st && negb (isspace c) then
    let st := set_atStart false st in
    if inComment st then on_buf (set_fileComment true) st
    else on_buf newFileComment st
  else st.

(** [if (emitChar(buf, c) != 0) doFlush = true;] *)
Definition store (c : ascii) (st : tState) : tState :=
  let '(b, overflow) := emitChar capacity c (buf st) in
  let st := set_buf b st in
  if overflow then set_doFlush true st else st.

(** [if (doFlush) { doFlush = false; flushBuffer(buf); buf->fileComment = false; }] *)
Definition flushIfDue (st : tState) : tState :=
  if doFlush st then
    on_buf (fun b => set_fileComment false (flushBuffer b)) (set_doFlush false st)
  else st.

(** The end of the turn: [isChar1] and [prevc]. *)
Definition endOfTurn (c : ascii) (st : tState) : tState :=
  let st := if isChar1 st && negb (isspace c) then set_isChar1 false st else st in
  set_prevc c st.

(** The turn up to the point where the pending flush is looked at. *)
Definition accumulate (c : ascii) (nextc : option ascii) (st : tState) : tState :=
  store c (startCheck c (lex c nextc st)).

Definition iteration (c : ascii) (nextc : option ascii) (st : tState) : tState :=
  endOfTurn c (flushIfDue (accumulate c nextc st)).

Fixpoint loop (input : list ascii) (st : tState) : tState :=
  match input with
  | [] => st
  | c :: rest => loop rest (iteration c (hd_error rest) st)
  end.

(** The state after each character of the input, in order; [loop] returns
    the last of them. *)
Fixpoint states (input : list ascii) (st : tState) : list tState :=
  match input with
  | [] => []
  | c :: rest =>
    let st' := iteration c (hd_error rest) st in st' :: states rest st'
  end.

(** The states of the run at both points of every turn: where the pending
    flush is looked at, and at the end of the turn. *)
Fixpoint moments (input : list ascii) (st : tState) : list tState :=
  match input with
  | [] => []
  | c :: rest =>
    let st' := iteration c (hd_error rest) st in
    accumulate c (hd_error rest) st :: st' :: moments rest st'
  end.

Definition initState : tState :=
  mkState initBuffer NUL 0 0 false false false false false true false true true false.



(** [processFile(outFile, inFile)]: the value returned and what was written
    to [outFile]; [None] when the run does not return, for an invalid memory
    access on the way. *)
Definition processFile (input : list ascii) : option (Z * list ascii) :=
  if malloc_ok sizeof_tBuffer then
    let b := flushBuffer (buf (loop input initState)) in
    if faulted b then None else Some (0, file b)
  else Some (-108, []).

End Parser.

(** ** Sample runs *)

(** No boilerplate, no file name, every allocation succeeds, a buffer of
    4096 characters. *)
Definition plainOptions : tAppOptions := mkOptions None None false.
Definition prototypeOptions : tAppOptions := mkOptions None None true.
Definition always (n : Z) : bool := true.

Definition sampleStates (input : list ascii) : list tState :=
  states plainOptions always 4096 input initState.

Definition sampleOutput (o : tAppOptions) (input : list ascii) : list ascii :=
  match processFile o always 4096 4096 input with
  | Some (_, out) => out
  | None => []
  end.


(** ** The construct kinds of a flush *)

(** The three kinds of construct a flush tells apart. *)
Inductive tConstruct := FileHeader | FunctionDefinition | PlainText.

Definition capturedOnce (r : tRange) : Prop := count r = 1.

(** The text of one mined entry as [dumpStringList] prints it. *)
Definition elementText (v : option (list ascii)) : list ascii :=
  match v with
  | Some s => c_str s
  | None => str "<null>"
  end.

(** One line per entry of a mined list, each after its tag. *)
Definition minedLines (tag : list ascii) (sl : tStringList) : list ascii :=
  flat_map (fun v => NL ++ [TAB] ++ tag ++ elementText v) sl.

(** The standing reminder and the closer of a function's comment block. *)
Definition blockCloser : list ascii :=
  NL ++ [TAB] ++ str "@todo edit me (automatically generated by insertdox)" ++ NL ++ str "*/".

(** The classified type phrase and staticness of the function in the buffer. *)
Definition returnType (b : tBuffer) : list ascii :=
  match snd (processTyped (data b) sizeof_type (start (function b)) (end_ (function b))) with
  | Some (type, _, _) => type
  | None => []
  end.

Definition staticFunction (b : tBuffer) : bool :=
  match snd (processTyped (data b) sizeof_type (start (function b)) (end_ (function b))) with
  | Some (_, isStatic, _) => isStatic
  | None => false
  end.

(** The opener of a function's comment block. *)
Definition blockOpener (b : tBuffer) : list ascii :=
  NL ++ str "/**" ++ NL
  ++ (if staticFunction b then [TAB] ++ str "@internal" ++ NL ++ NL else []) ++ [TAB].

(** The range the description has once [processFunction] has fixed it up. *)
Definition descriptionStart (b : tBuffer) : Z :=
  if count (description b) =? 0 then start (function b) - 1 else start (description b).

Definition descriptionEnd (b : tBuffer) : Z :=
  if count (description b) =? 0 then start (function b) - 1 else end_ (description b).

(** The comment block of the function in [b] up to and including its
    parameter lines. *)
Definition paramsDone (b : tBuffer) : tBuffer :=
  processArgList (processDescription (fprintf (blockOpener b) b)).

(** The text [processFunction] emits after the comment block. *)
Definition afterBlock (gOptions : tAppOptions) (b : tBuffer) : list ascii :=
  if onlyPrototypes gOptions
  then slice (data b) (descriptionEnd b) (end_ (arglist b)) ++ str ";" ++ NL ++ NL
  else slice (data b) (descriptionEnd b) (ptr b).

(** What [f] appends to the output when it runs on [b]. *)
Definition written (f : tBuffer -> tBuffer) (b : tBuffer) : list ascii :=
  skipn (length (file b)) (file (f b)).

(** The description lines of the function in [b]: the text of the comment
    captured before it, from its first to its last character that is not
    comment punctuation, or the placeholder when no comment was captured or
    nothing is left of it; then a line end.  (No run produces a count below
    zero; [processDescription] would write the line end alone.) *)
Definition descriptionLines (b : tBuffer) : list ascii :=
  let s := skipComment (data b) (start (description b)) (end_ (description b)) in
  let e := trimComment (data b) (end_ (description b)) s in
  let missing := str "Brief description needed." ++ NL ++ NL ++ [TAB]
                 ++ str "Followed by a more complete description." in
  (if 0 <? count (description b) then if s =? e then missing else slice (data b) s e
   else if count (description b) =? 0 then missing else [])
  ++ NL.

(** The parameter lines of the function in [b]: what [processArgList]
    writes. *)
Definition parameterLines (b : tBuffer) : list ascii := written processArgList b.

(** The [@return] lines of the function in [b]. *)
Definition returnLines (b : tBuffer) : list ascii :=
  if list_eq_dec ascii_dec (returnType b) (str "void") then []
  else NL ++ [TAB] ++ str "@return " ++ returnType b
       ++ minedLines (str "@retval ") (retvals b) ++ NL.

(** The comment block generated for the function in [b]: the opener, the
    description, the parameter lines, the [@return] lines, the mined [@todo]
    lines and the closer. *)
Definition functionBlock (b : tBuffer) : list ascii :=
  blockOpener b ++ descriptionLines b ++ parameterLines b
  ++ returnLines b ++ minedLines (str "@todo ") (todos b) ++ blockCloser.

(** The kind of the accumulation in [b]: a file header when the
    [fileComment] flag is set; else a function definition when the function,
    arglist and body ranges were each captured exactly once; else plain
    text. *)
Definition classify (b : tBuffer) : tConstruct :=
  if fileComment b then FileHeader
  else if (count (function b) =? 1) && (count (arglist b) =? 1) && (count (body b) =? 1)
  then FunctionDefinition
  else PlainText.

(** How each kind is rendered. *)
Definition render (gOptions : tAppOptions) (malloc_ok : Z -> bool)
    (k : tConstruct) (b : tBuffer) : tBuffer :=
  match k with
  | FileHeader => processFileComment gOptions malloc_ok b
  | FunctionDefinition => processFunction gOptions b
  | PlainText => if onlyPrototypes gOptions then b else fprintf (data b) b
  end.

(** A function with no comment before it, as the machine has captured it
    when the closing brace arrives. *)
Definition sampleFunction : tBuffer :=
  set_body (mkRange 14 16 1)
    (set_arglist (mkRange 7 13 1)
       (set_function (mkRange 1 7 1)
          (set_data (NL ++ str "void f(void) {}") initBuffer))).

(** A function with a body, and the buffer the machine holds when its
    closing brace has been stored, in prototype-only mode. *)
Definition twiceText : list ascii :=
  str "int twice(int n)" ++ NL ++ str "{" ++ NL ++ [TAB] ++ str "return n * 2;" ++ NL
  ++ str "}".

Definition twiceFunction : tBuffer :=
  buf (accumulate prototypeOptions always 4096 "}" None
         (loop prototypeOptions always 4096 (removelast twiceText) initState)).

(** ** Return statements, on lists *)

Fixpoint dropSpace (l : list ascii) : list ascii :=
  match l with
  | [] => []
  | c :: rest => if isspace c then dropSpace rest else l
  end.

(** [l] without the whitespace at its two ends. *)
Definition trimSpaces (l : list ascii) : list ascii :=
  rev (dropSpace (rev (dropSpace l))).

(** The test of [parseStatement], on the trimmed expression: it starts with
    an opening parenthesis, has no other, and its last character is a closing
    one.  Whether that character closes the opening parenthesis is not
    looked at. *)
Definition wrappedOnce (expr : list ascii) : bool :=
  (hd NUL expr =? "(")%char
  && (Z.of_nat (count_occ ascii_dec expr "("%char) =? 1)
  && (last expr NUL =? ")")%char.

(** The return value recorded for a statement whose text after the keyword
    [return] is [rest]. *)
Definition returnText (rest : list ascii) : list ascii :=
  let expr := trimSpaces rest in
  if wrappedOnce expr then trimSpaces (removelast (tl expr)) else expr.

(** The offset in [l] of the parenthesis that closes one opened before [l],
    when [depth] more have been opened since. *)
Fixpoint closer (depth : nat) (l : list ascii) : option nat :=
  match l with
  | [] => None
  | c :: rest =>
    if (c =? ")")%char then
      match depth with
      | O => Some O
      | S d => option_map S (closer d rest)
      end
    else if (c =? "(")%char then option_map S (closer (S depth) rest)
    else option_map S (closer depth rest)
  end.

(** The condition in the words of the spec: the expression has exactly one
    opening parenthesis, starts with it, and ends with the closing
    parenthesis that matches it. *)
Definition wrappedMatching (expr : list ascii) : bool :=
  (hd NUL expr =? "(")%char
  && (Z.of_nat (count_occ ascii_dec expr "("%char) =? 1)
  && match closer 0 (tl expr) with
     | Some i => Nat.eqb (S (S i)) (length expr)
     | None => false
     end.

(** The return value that would be recorded under the condition of the
    spec. *)
Definition matchedReturnText (rest : list ascii) : list ascii :=
  let expr := trimSpaces rest in
  if wrappedMatching expr then trimSpaces (removelast (tl expr)) else expr.

(** A function whose return statement holds a line comment that ends with a
    closing parenthesis. *)
Definition commentedReturn : list ascii :=
  str "int f(int a)" ++ NL ++ str "{" ++ NL ++ [TAB] ++ str "return (a) // x)" ++ NL
  ++ [TAB] ++ str ";" ++ NL ++ str "}" ++ NL.

(** A buffer inside a function body whose pending statement is [stmt]. *)
Definition statementBuffer (stmt : list ascii) : tBuffer :=
  set_statementStart (Some 0) (set_data stmt initBuffer).

(** ** Invariants of the state machine *)

(** What holds at the end of every turn of the loop. *)
Record TurnInvariant (st : tState) : Prop := mkTurnInvariant {
  ti_cpp : inCppComment st = true -> inComment st = true;
  ti_desc_count : count (description (buf st)) = 0 \/ count (description (buf st)) = 1;
  ti_desc_open : inComment st = true -> depthCurly st = 0 ->
                 count (description (buf st)) = 0;
  ti_body_count : count (body (buf st)) = 0;
  ti_desc_start : start (description (buf st)) = 0;
  ti_desc_end : 0 <= end_ (description (buf st)) <= ptr (buf st);
  ti_doFlush : doFlush st = false;
  ti_fileComment : fileComment (buf st) = true ->
                   inComment st = true /\ depthCurly st = 0;
  ti_atStart : atStart st = true ->
               depthCurly st = 0 /\ inComment st = false /\ fileComment (buf st) = false;
  ti_body_start : 0 <= start (body (buf st)) <= ptr (buf st);
  ti_empty : data (buf st) = [] ->
             count (function (buf st)) = 0 /\ count (arglist (buf st)) = 0
             /\ fileComment (buf st) = false
}.

(** What holds where the pending flush is looked at. *)
Record FlushInvariant (st : tState) : Prop := mkFlushInvariant {
  fi_cpp : inCppComment st = true -> inComment st = true;
  fi_desc_count : count (description (buf st)) = 0 \/ count (description (buf st)) = 1;
  fi_desc_open : inComment st = true -> depthCurly st = 0 ->
                 count (description (buf st)) = 0;
  fi_body_count : count (body (buf st)) = 0
                  \/ (count (body (buf st)) = 1 /\ doFlush st = true
                      /\ start (body (buf st)) <= end_ (body (buf st)));
  fi_desc_start : start (description (buf st)) = 0;
  fi_desc_end : 0 <= end_ (description (buf st)) <= ptr (buf st);
  fi_fileComment : fileComment (buf st) = true ->
                   (inComment st = true /\ depthCurly st = 0) \/ doFlush st = true;
  fi_atStart : atStart st = true ->
               depthCurly st = 0 /\ inComment st = false /\ fileComment (buf st) = false;
  fi_body_start : 0 <= start (body (buf st)) <= ptr (buf st);
  fi_nonempty : data (buf st) <> []
}.

(** ** The output as pieces of the input and comment blocks *)

(** [l1] is [l2] with some elements left out. *)
Inductive Subseq {A : Type} : list A -> list A -> Prop :=
| Subseq_nil : Subseq [] []
| Subseq_skip (x : A) (l1 l2 : list A) : Subseq l1 l2 -> Subseq l1 (x :: l2)
| Subseq_keep (x : A) (l1 l2 : list A) : Subseq l1 l2 -> Subseq (x :: l1) (x :: l2).

(** A piece of the output: text copied from the input, or a block that the
    program wrote. *)
Inductive tPiece :=
| Text (t : list ascii)
| Block (w : list ascii).

Definition pieceBytes (p : tPiece) : list ascii :=
  match p with Text t => t | Block w => w end.

Definition pieceText (p : tPiece) : list ascii :=
  match p with Text t => t | Block _ => [] end.

Definition bytes (ps : list tPiece) : list ascii := flat_map pieceBytes ps.
Definition texts (ps : list tPiece) : list ascii := flat_map pieceText ps.

Definition blank (l : list ascii) : Prop := Forall (fun c => isspace c = true) l.

(** A comment between blank characters. *)
Definition commentBlock (w : list ascii) : Prop :=
  exists lead inner tail,
    w = lead ++ str "/*" ++ inner ++ str "*/" ++ tail /\ blank lead /\ blank tail.

Definition wellFormed (p : tPiece) : Prop :=
  match p with Text _ => True | Block w => commentBlock w end.

(** The machine reads [c] as part of a comment: it is inside a comment
    after the character, or the character is the [/] that closes a block
    comment.  (The line end that closes a line comment is not part of it.) *)
Definition commentChar (before after : tState) : bool :=
  inComment after || (inComment before && negb (inCppComment before)).

(** The characters of the input outside comments, as the machine started in
    [st] reads it.  What is a comment is decided by the machine itself: text
    that it takes for a comment where a compiler would not (in a directive it
    takes no notice of quotes, so [//] inside a string literal of a [#define]
    opens a comment for it) does not count as code here. *)
Fixpoint codeText (gOptions : tAppOptions) (malloc_ok : Z -> bool) (capacity : Z)
    (input : list ascii) (st : tState) : list ascii :=
  match input with
  | [] => []
  | c :: rest =>
    let st' := iteration gOptions malloc_ok capacity c (hd_error rest) st in
    (if commentChar st st' then [] else [c])
    ++ codeText gOptions malloc_ok capacity rest st'
  end.

(** The output [out] accounts for the flushed input [F], whose characters
    outside comments are [CF]. *)
Definition Flushed (out F CF : list ascii) : Prop :=
  exists pieces,
    out = bytes pieces /\ Forall wellFormed pieces
    /\ Subseq CF (texts pieces) /\ Subseq (texts pieces) F.

(** The buffer [b] after the input [P], whose characters outside comments
    are [C]; [CD] are those of them that are still in the buffer. *)
Definition TextState (b : tBuffer) (P C CD : list ascii) : Prop :=
  exists F CF,
    P = F ++ data b /\ C = CF ++ CD /\ Flushed (file b) F CF
    /\ Subseq CD (data b)
    /\ (count (description b) = 1 ->
        Subseq CD (slice (data b) (end_ (description b)) (ptr b))).

Definition TextTurn (st : tState) (P C : list ascii) : Prop :=
  exists CD,
    TextState (buf st) P C CD
    /\ (inComment st = true -> depthCurly st = 0 -> CD = [])
    /\ (fileComment (buf st) = true -> CD = []).

(** ** Relations between buffers *)

(** [b'] differs from [b] in what was appended to the output, and maybe in
    the count of the description. *)
Definition extends (b b' : tBuffer) : Prop :=
  data b' = data b /\ function b' = function b /\ arglist b' = arglist b
  /\ body b' = body b
  /\ start (description b') = start (description b)
  /\ end_ (description b') = end_ (description b)
  /\ commentStart b' = commentStart b /\ statementStart b' = statementStart b
  /\ fileComment b' = fileComment b
  /\ todos b' = todos b /\ notes b' = notes b /\ retvals b' = retvals b
  /\ exists w, file b' = file b ++ w.


(** [b'] is [b] with more output. *)
Definition appended (b b' : tBuffer) : Prop := exists w, b' = set_file (file b ++ w) b.

(** * The rest of the sources

    What follows embeds the functions of [stringutils.c], [parser.c] and
    [insertdox.c] that the development above does not reach, and fixes the
    vocabulary for the properties proved about them further down. *)

(** ** stringutils.c: paths and copies *)

(** The non-Windows variant of [qOSPathSeparator]. *)
Definition qOSPathSeparator : ascii := "/"%char.

(** [strrchr(s, c)] for a character [c] other than NUL: the offset of the
    last [c] in the C string [s]; [None] is NULL. *)
Fixpoint strrchr (s : list ascii) (c : ascii) : option nat :=
  match s with
  | [] => None
  | x :: rest =>
    match strrchr rest c with
    | Some i => Some (S i)
    | None => if (x =? c)%char then Some 0%nat else None
    end
  end.

(** [filenameFromPath(path)]: the C string at the pointer returned; [None]
    is NULL, for the path and for the result. *)
Definition filenameFromPath (path : option (list ascii)) : option (list ascii) :=
  match path with
  | None => None
  | Some s =>
    match strrchr s qOSPathSeparator with
    | Some i => Some (skipn (S i) s)
    | None => Some s
    end
  end.

(** [cpycat(prefix, suffix)]; [ok] is the outcome of its [malloc]. *)
Definition cpycat (ok : bool) (prefix suffix : list ascii) : option (list ascii) :=
  if ok then Some (prefix ++ suffix) else None.

(** ** Scans, as statements about the text *)

(** [r] is where a forward scan over the characters in [f] from [a] stops
    when it may not pass [e]. *)
Definition firstOutside (f : ascii -> bool) (mem : list ascii) (a e r : Z) : Prop :=
  a <= r <= e
  /\ (forall i, a <= i < r -> f (peek mem i) = true)
  /\ (r < e -> f (peek mem r) = false).

(** [r] is where a backward scan over the characters in [f] stops, coming
    from just after the character at [p - 1] and never looking at the
    character at [s]. *)
Definition lastOutside (f : ascii -> bool) (mem : list ascii) (p s r : Z) : Prop :=
  s < r <= p
  /\ (forall i, r <= i < p -> f (peek mem i) = true)
  /\ (s + 1 < r -> f (peek mem (r - 1)) = false).

Definition ispunctspace (c : ascii) : bool := isspace c || ispunct c.

(** [l] without its leading characters in [f]. *)
Fixpoint dropWhile (f : ascii -> bool) (l : list ascii) : list ascii :=
  match l with
  | [] => []
  | c :: rest => if f c then dropWhile f rest else l
  end.

(** [l] without its leading characters in [f] and, of what is left, without
    the trailing characters in [g]. *)
Definition strip (f g : ascii -> bool) (l : list ascii) : list ascii :=
  rev (dropWhile g (rev (dropWhile f l))).

(** The text of a comment without the comment punctuation and the blanks at
    its two ends. *)
Definition commentText (l : list ascii) : list ascii := strip iscommentpunct iscommentpunct l.

(** What [processBoilerplate] writes. *)
Definition boilerplateText (gOptions : tAppOptions) (malloc_ok : Z -> bool) : list ascii :=
  match boilerplate gOptions with
  | Some text => if malloc_ok 32768 then text else []
  | None => []
  end.

(** The placeholder [processDescription] writes for a function without a
    description. *)
Definition placeholder : list ascii :=
  str "Brief description needed." ++ NL ++ NL ++ [TAB]
  ++ str "Followed by a more complete description.".

(** The file comment [newFileComment] writes. *)
Definition newHeader (gOptions : tAppOptions) (malloc_ok : Z -> bool) : list ascii :=
  str "/**" ++ NL ++ [TAB] ++ str "@file "
  ++ match filename gOptions with Some f => f | None => str "<unknown>" end
  ++ NL ++ NL ++ [TAB] ++ str "Put a description of the file here." ++ NL
  ++ boilerplateText gOptions malloc_ok
  ++ NL ++ [TAB] ++ str "@todo Edit file comment (automatically generated by insertdox)"
  ++ NL ++ str "*/" ++ NL ++ str "/* $Header$ */" ++ NL ++ NL.

(** The character [c], with [nextc] after it, opens a comment. *)
Definition opensComment (c : ascii) (nextc : option ascii) : bool :=
  (c =? "/")%char && (is_char nextc "/" || is_char nextc "*").

(** The characters [isalnum] accepts, and the underscore. *)
Definition isident (c : ascii) : bool := isalnum c || (c =? "_")%char.

(** The phrase of a declarator with [n] stars: [n] times the pointer words,
    the array words, the [const] word and the base type. *)
Definition phraseWords (n : nat) (array const : bool) : list ascii :=
  concat (repeat (str "a pointer to ") n)
  ++ (if array then str "an array of " else [])
  ++ (if const then str "const " else []).

(** The two lists [parseComment] feeds. *)
Inductive tMined := Todo | Note.

(** The keyword [parseComment] finds at [p], with its length: the kind of
    the comment. *)
Definition keywordAt (mem : list ascii) (p : Z) : option (tMined * Z) :=
  if strncasecmp0 mem p (str "todo") then Some (Todo, 4)
  else if strncasecmp0 mem p (str "fixme") then Some (Todo, 5)
  else if strncasecmp0 mem p (str "fix-me") then Some (Todo, 6)
  else if strncasecmp0 mem p (str "note") then Some (Note, 4)
  else if strncasecmp0 mem p (str "nb") then Some (Note, 2)
  else None.

(** The buffer with one more entry at the head of the list of kind [k]. *)
Definition noted (k : tMined) (entry : option (list ascii)) (b : tBuffer) : tBuffer :=
  match k with
  | Todo => set_todos (entry :: todos b) b
  | Note => set_notes (entry :: notes b) b
  end.

(** The remark of a comment: what follows its keyword, without the blanks
    and the punctuation in front and without the comment punctuation and the
    blanks behind. *)
Definition remark (rest : list ascii) : list ascii := strip ispunctspace iscommentpunct rest.

(** A buffer inside a function body whose pending comment is [text], up to
    the character before its closing [/]. *)
Definition commentBuffer (text : list ascii) : tBuffer :=
  set_commentStart (Some 0) (set_data text initBuffer).

(** ** Runs of [processFile] *)

(** The state of the machine while it has read nothing but blanks: [F] has
    been written, [D] is in the buffer, [pc] was the last character. *)
Definition blankState (pc : ascii) (F D : list ascii) : tState :=
  mkState (mkBuffer F D noRange noRange noRange noRange None None false [] [] [] false)
          pc 0 0 false false false false false true false true true false.

(** [b'] is [b] later in the run as far as the output goes: what had been
    written is still there, in front. *)
Definition grows (b b' : tBuffer) : Prop := exists w, file b' = file b ++ w.

(** What a flush of [b] writes. *)
Definition flushOutput (gOptions : tAppOptions) (malloc_ok : Z -> bool) (b : tBuffer)
    : list ascii :=
  skipn (length (file b)) (file (flushBuffer gOptions malloc_ok b)).

(** The state of the machine inside the block comment that heads the file:
    [F] has been written, the comment so far, [D], is in the buffer. *)
Definition commentState (pc : ascii) (F D : list ascii) : tState :=
  mkState (mkBuffer F D noRange noRange noRange noRange None None true [] [] [] false)
          pc 0 0 true false false false false true false false false false.



(** ** insertdox.c *)

Module Insertdox.

(** The world [main] runs in: the files by path, with their contents, and
    the three standard streams.  [stderr] holds what [main], [printVersion]
    and [printUsage] write to it; the two diagnostics of parser.c go to the
    same stream and are not kept. *)
Record tWorld := mkWorld {
  disk : list (list ascii * list ascii);
  stdin : list ascii;
  stdout : list ascii;
  stderr : list ascii
}.

Definition set_disk v w := mkWorld v (stdin w) (stdout w) (stderr w).
Definition set_stdout v w := mkWorld (disk w) (stdin w) v (stderr w).
Definition set_stderr v w := mkWorld (disk w) (stdin w) (stdout w) v.

(** [fprintf(stderr, ...)] with the formatted characters [s]. *)
Definition complain (s : list ascii) (w : tWorld) : tWorld := set_stderr (stderr w ++ s) w.

Fixpoint lookup (path : list ascii) (d : list (list ascii * list ascii))
    : option (list ascii) :=
  match d with
  | [] => None
  | (p, text) :: rest => if streq p path then Some text else lookup path rest
  end.

Definition remove (path : list ascii) (d : list (list ascii * list ascii))
    : list (list ascii * list ascii) :=
  filter (fun entry => negb (streq (fst entry) path)) d.

Definition write (path text : list ascii) (d : list (list ascii * list ascii))
    : list (list ascii * list ascii) :=
  (path, text) :: remove path d.

(** [l[n] = v]; [main] only assigns inside [argv]. *)
Fixpoint assign (l : list (list ascii)) (n : nat) (v : list ascii) : list (list ascii) :=
  match l, n with
  | [], _ => []
  | _ :: rest, O => v :: rest
  | x :: rest, S k => x :: assign rest k v
  end.

(** [argv[i]], and [s[k]] for a C string [s], whose last character is
    followed by a NUL. *)
Definition argAt (argv : list (list ascii)) (i : nat) : list ascii := nth i argv [].
Definition charAt (s : list ascii) (k : nat) : ascii := nth k s NUL.

Section Main.

(** [qVersion] of common.h, which is not part of the sources. *)
Variable qVersion : list ascii.

(** The environment: the allocator as parser.c meets it, the outcome of the
    [malloc] of [cpycat] for a prefix and a suffix, and whether the system
    lets [fopen] read or write a path and [rename] move one path to
    another. *)
Variable malloc_ok : Z -> bool.
Variable cpycat_ok : list ascii -> list ascii -> bool.
Variable readable : list ascii -> bool.
Variable writable : list ascii -> bool.
Variable movable : list ascii -> list ascii -> bool.
Variable capacity : Z.
Variable sizeof_tBuffer : Z.

(** [fopen(path, "r")], as the characters to be read; [None] is NULL. *)
Definition fopen_r (path : list ascii) (w : tWorld) : option (list ascii) :=
  if readable path then lookup path (disk w) else None.

(** [fopen(path, "w")]: the file is created, or emptied; [None] is NULL. *)
Definition fopen_w (path : list ascii) (w : tWorld) : option tWorld :=
  if writable path then Some (set_disk (write path [] (disk w)) w) else None.

(** [rename(old, new)]; [None] stands for a result other than 0. *)
Definition rename (old new : list ascii) (w : tWorld) : option tWorld :=
  if movable old new then
    match lookup old (disk w) with
    | Some text => Some (set_disk (write new text (remove old (disk w))) w)
    | None => None
    end
  else None.

Definition versionText (appName : list ascii) : list ascii :=
  appName ++ str ", version " ++ qVersion ++ NL
  ++ str "  Copyright (c) Paul Chambers, 2005-06" ++ NL.

Definition usageText (appName : list ascii) : list ascii :=
  versionText appName
  ++ str "Usage: " ++ appName ++ str " [-v|-h] [-p] [-b <filename>] <file list>" ++ NL
  ++ str "    -v, --version    print version message" ++ NL
  ++ str "    -h, --help       print usage message" ++ NL
  ++ str "    -p               only emit function comments and prototypes" ++ NL
  ++ str "    -b <filename>    provide a 'boilerplate' file for the file comment" ++ NL
  ++ str "if <file list> is empty, process stdin to stdout." ++ NL.

Definition printVersion (appName : list ascii) (w : tWorld) : tWorld :=
  complain (versionText appName) w.

Definition printUsage (appName : list ascii) (w : tWorld) : tWorld :=
  complain (usageText appName) w.

(** The variables of [main] that its first loop works on, and the two
    fields of [gOptions] it sets there; [boilerplate] is the path given. *)
Record tArguments := mkArguments {
  argv : list (list ascii);
  count : nat;
  boilerplate : option (list ascii);
  onlyPrototypes : bool;
  usageOnly : bool;
  world : tWorld
}.

(** The body of [for (i = 1; i < argc; ++i)] in the first loop, for
    [i < argc]: the state afterwards and the value of [i], which the [b]
    case increments on its own. *)
Definition optionStep (argc i : nat) (a : tArguments) : nat * tArguments :=
  let arg := argAt (argv a) i in
  let appName := argAt (argv a) 0 in
  let told (f : list ascii -> tWorld -> tWorld) :=
    mkArguments (argv a) (count a) (boilerplate a) (onlyPrototypes a) (usageOnly a)
                (f appName (world a)) in
  let unknown :=
    told (fun app => complain (str "### error: unknown option '" ++ arg
                               ++ str "' given to " ++ app ++ NL)) in
  if (charAt arg 0 =? "-")%char then
    let c := charAt arg 1 in
    if (c =? "V")%char || (c =? "v")%char then (i, told printVersion)
    else if (c =? "?")%char || (c =? "h")%char then (i, told printUsage)
    else if (c =? "b")%char then
      if (S i <? argc)%nat then
        (S i, mkArguments (argv a) (count a) (Some (argAt (argv a) (S i)))
                          (onlyPrototypes a) false (world a))
      else (S i, a)
    else if (c =? "p")%char then
      (i, mkArguments (argv a) (count a) (boilerplate a) true false (world a))
    else if (c =? "-")%char then
      if streq arg (str "--version") then (i, told printVersion)
      else if streq arg (str "--help") then (i, told printUsage)
      else (i, unknown)
    else (i, unknown)
  else
    (i, mkArguments (if (count a =? i)%nat then argv a else assign (argv a) (count a) arg)
                    (S (count a)) (boilerplate a) (onlyPrototypes a) false (world a)).

(** The first loop, from [i] on; every turn advances [i], so [argc] turns
    are enough. *)
Fixpoint optionLoop (fuel : nat) (argc i : nat) (a : tArguments) : tArguments :=
  match fuel with
  | O => a
  | S k =>
    if (i <? argc)%nat then
      let '(i, a) := optionStep argc i a in optionLoop k argc (S i) a
    else a
  end.

(** The state after the first loop of [main]. *)
Definition arguments (args : list (list ascii)) (w : tWorld) : tArguments :=
  let argc := length args in
  optionLoop argc argc 1 (mkArguments args 1 None false (1 <? argc)%nat w).

(** [processFile(out, in)] as [main] calls it, for the characters [input] of
    [in], with the file name [name] in [gOptions]: the value returned and
    what is written to [out].  The boilerplate file is read when
    [processBoilerplate] gets to it, which the model of parser.c has as its
    contents in [gOptions]: they are taken from the disk here.  [None]
    stands for a run the model does not follow to its end: an invalid memory
    access in parser.c, a boilerplate file that cannot be opened (the
    program ends with [exit(1)] where it needs it), or one that is the very
    file being written, [busy]. *)
Definition run (a : tArguments) (name busy : option (list ascii)) (input : list ascii)
    (w : tWorld) : option (Z * list ascii) :=
  let contents :=
    match boilerplate a with
    | None => Some None
    | Some path =>
      if match busy with Some b => streq path b | None => false end then None
      else match fopen_r path w with
           | Some text => Some (Some text)
           | None => None
           end
    end in
  match contents with
  | None => None
  | Some text =>
    processFile (mkOptions name text (onlyPrototypes a)) malloc_ok capacity sizeof_tBuffer input
  end.

(** The body of the second loop for the file [path], with [result] as the
    turn finds it. *)
Definition processPath (a : tArguments) (appName path : list ascii) (result : Z)
    (w : tWorld) : option (Z * tWorld) :=
  let name := filenameFromPath (Some path) in
  match fopen_r path w with
  | None =>
    Some (-1, complain (str "### error: unable to open '" ++ path
                        ++ str "' for reading (in " ++ appName ++ str ")" ++ NL) w)
  | Some input =>
    match cpycat (cpycat_ok path (str ".tmp")) path (str ".tmp") with
    | None => Some (result, w)
    | Some tmpname =>
      let processed :=
        match fopen_w tmpname w with
        | None =>
          Some (-2, complain (str "### error: unable to open '" ++ tmpname
                              ++ str "' for writing (in " ++ appName ++ str ")" ++ NL) w)
        | Some w =>
          match run a name (Some tmpname) input w with
          | None => None
          | Some (result, out) => Some (result, set_disk (write tmpname out (disk w)) w)
          end
        end in
      match processed with
      | None => None
      | Some (result, w) =>
        if result =? 0 then
          match cpycat (cpycat_ok path (str ".bak")) path (str ".bak") with
          | None => Some (result, w)
          | Some bakname =>
            match rename path bakname w with
            | None =>
              Some (-3, complain (str "### error: unable to rename '" ++ path ++ str "' to '"
                                  ++ bakname ++ str "' (in " ++ appName ++ str ")" ++ NL) w)
            | Some w =>
              match rename tmpname path w with
              | None =>
                Some (-4, complain (str "### error: unable to rename '" ++ tmpname
                                    ++ str "' to '" ++ path ++ str "' (in " ++ appName
                                    ++ str ")" ++ NL) w)
              | Some w => Some (0, w)
              end
            end
          end
        else Some (result, w)
      end
    end
  end.

(** The second loop, over the file names in order. *)
Fixpoint fileLoop (a : tArguments) (appName : list ascii) (paths : list (list ascii))
    (result : Z) (w : tWorld) : option (Z * tWorld) :=
  match paths with
  | [] => Some (result, w)
  | path :: rest =>
    match processPath a appName path result w with
    | None => None
    | Some (result, w) => fileLoop a appName rest result w
    end
  end.

(** The file names [main] is left with: [argv[1]] to [argv[count - 1]]. *)
Definition fileNames (a : tArguments) : list (list ascii) :=
  firstn (count a - 1) (skipn 1 (argv a)).

(** [main(argc, argv)] in the world [w]: the value returned and the world
    afterwards; [None] where [run] has none. *)
Definition main (args : list (list ascii)) (w : tWorld) : option (Z * tWorld) :=
  let a := arguments args w in
  let w := world a in
  if usageOnly a then Some (0, w)
  else if (count a <=? 1)%nat then
    match run a None None (stdin w) w with
    | None => None
    | Some (result, out) => Some (result, set_stdout (stdout w ++ out) w)
    end
  else fileLoop a (argAt (argv a) 0) (fileNames a) 0 w.

(** The file [path] can be processed in the world [w], where it holds
    [text], and [out] is what [processFile] makes of it with the options in
    [a], no boilerplate among them: everything the turn of the second loop
    asks of the system succeeds. *)
Definition goesWell (a : tArguments) (path text out : list ascii) (w : tWorld) : Prop :=
  boilerplate a = None
  /\ readable path = true
  /\ lookup path (disk w) = Some text
  /\ cpycat_ok path (str ".tmp") = true
  /\ cpycat_ok path (str ".bak") = true
  /\ writable (path ++ str ".tmp") = true
  /\ movable path (path ++ str ".bak") = true
  /\ movable (path ++ str ".tmp") path = true
  /\ processFile (mkOptions (filenameFromPath (Some path)) None (onlyPrototypes a))
       malloc_ok capacity sizeof_tBuffer text = Some (0, out).

End Main.

(** In the world [w'] the file [path] of [w], which held [text], has been
    replaced by [out]: the old contents are in the backup file, the
    temporary file is gone, and nothing else has changed. *)
Definition replaced (path text out : list ascii) (w w' : tWorld) : Prop :=
  lookup path (disk w') = Some out
  /\ lookup (path ++ str ".bak") (disk w') = Some text
  /\ lookup (path ++ str ".tmp") (disk w') = None
  /\ (forall q, q <> path -> q <> path ++ str ".bak" -> q <> path ++ str ".tmp" ->
      lookup q (disk w') = lookup q (disk w))
  /\ stdin w' = stdin w /\ stdout w' = stdout w /\ stderr w' = stderr w.

(** What the first loop of [main] makes of one argument. *)
Inductive tArgument :=
| Operand (path : list ascii)
| Boilerplate (path : list ascii)
| Prototypes
| Other.

(** The arguments after the program name, by what they are: an argument
    that starts with [-] is an option and its second character decides;
    [-b] takes the argument after it, and is nothing without one. *)
Fixpoint classified (args : list (list ascii)) : list tArgument :=
  match args with
  | [] => []
  | arg :: rest =>
    if (charAt arg 0 =? "-")%char then
      let c := charAt arg 1 in
      if (c =? "V")%char || (c =? "v")%char || (c =? "?")%char || (c =? "h")%char
      then Other :: classified rest
      else if (c =? "b")%char then
        match rest with
        | [] => [Other]
        | path :: rest' => Boilerplate path :: classified rest'
        end
      else if (c =? "p")%char then Prototypes :: classified rest
      else Other :: classified rest
    else Operand arg :: classified rest
  end.

Definition operands (l : list tArgument) : list (list ascii) :=
  flat_map (fun x => match x with Operand p => [p] | _ => [] end) l.

(** The path of the last [-b], if any. *)
Definition lastBoilerplate (l : list tArgument) : option (list ascii) :=
  fold_left (fun acc x => match x with Boilerplate p => Some p | _ => acc end) l None.

Definition isOther (x : tArgument) : bool :=
  match x with Other => true | _ => false end.

Definition isPrototypes (x : tArgument) : bool :=
  match x with Prototypes => true | _ => false end.

(** The state [a'] of the first loop is the state [a] after the arguments
    that [l] classifies: the file names have gone to the end of those
    collected, the last [-b] and any [-p] are recorded, [usageOnly] has
    survived nothing but the other options, and only [stderr] has changed
    in the world. *)
Definition sorted (a a' : tArguments) (l : list tArgument) : Prop :=
  fileNames a' = fileNames a ++ operands l
  /\ count a' = (count a + length (operands l))%nat
  /\ boilerplate a'
     = fold_left (fun acc x => match x with Boilerplate p => Some p | _ => acc end)
                 l (boilerplate a)
  /\ onlyPrototypes a' = onlyPrototypes a || existsb isPrototypes l
  /\ usageOnly a' = usageOnly a && forallb isOther l
  /\ argAt (argv a') 0 = argAt (argv a) 0
  /\ disk (world a') = disk (world a)
  /\ stdin (world a') = stdin (world a)
  /\ stdout (world a') = stdout (world a).

(** A sample world: a system that grants everything, and a disk with the
    one file [a.c]. *)
Definition granted (path : list ascii) : bool := true.
Definition granted2 (path other : list ascii) : bool := true.

Definition sampleText : list ascii := str "int x;" ++ NL.

Definition sampleWorld : tWorld := mkWorld [(str "a.c", sampleText)] [] [] [].

(** What [processFile] makes of the sample file. *)
Definition sampleResult : list ascii :=
  match processFile (mkOptions (Some (str "a.c")) None false) always 4096 4096 sampleText with
  | Some (_, out) => out
  | None => []
  end.

(** The sample command line with a file that does not exist before the
    sample file. *)
Definition sampleArguments : tArguments :=
  arguments (str "0.91") [str "insertdox"; str "b.c"; str "a.c"] sampleWorld.

(** A function on the standard input, and what [processFile] makes of it
    when only prototypes are asked for. *)
Definition pipedText : list ascii :=
  str "int twice(int n)" ++ NL ++ str "{" ++ NL ++ [TAB] ++ str "return n * 2;" ++ NL
  ++ str "}" ++ NL.

Definition pipedWorld : tWorld := mkWorld [(str "a.c", sampleText)] pipedText [] [].

Definition pipedPrototype : list ascii :=
  str "/**" ++ NL ++ [TAB] ++ str "@file <unknown>" ++ NL ++ NL
  ++ [TAB] ++ str "Put a description of the file here." ++ NL ++ NL
  ++ [TAB] ++ str "@todo Edit file comment (automatically generated by insertdox)" ++ NL
  ++ str "*/" ++ NL ++ str "/* $Header$ */" ++ NL ++ NL ++ NL
  ++ str "/**" ++ NL ++ [TAB] ++ str "Brief description needed." ++ NL ++ NL
  ++ [TAB] ++ str "Followed by a more complete description." ++ NL ++ NL
  ++ [TAB] ++ str "@param[in] " ++ [TAB] ++ str "n " ++ [TAB] ++ str "int" ++ NL ++ NL
  ++ [TAB] ++ str "@return int" ++ NL
  ++ [TAB] ++ str "@retval n * 2" ++ NL ++ NL
  ++ [TAB] ++ str "@todo edit me (automatically generated by insertdox)" ++ NL
  ++ str "*/" ++ str "int twice(int n);" ++ NL ++ NL.

End Insertdox.

(** * Properties *)

(** ** Reading memory *)

Lemma peek_nth (mem : list ascii) (p : Z) :
  0 <= p -> peek mem p = nth (Z.to_nat p) mem NUL.
Proof.
  intros Hp. unfold peek. destruct (p <? 0) eqn:E; [apply Z.ltb_lt in E; lia | reflexivity].
Qed.

Lemma memread_length (mem : list ascii) (n : nat) : forall p, length (memread mem p n) = n.
Proof. induction n as [|n IH]; intros p; simpl; [reflexivity | now rewrite IH]. Qed.

Lemma memread_nth (mem : list ascii) (n : nat) :
  forall p i d, (i < n)%nat -> nth i (memread mem p n) d = peek mem (p + Z.of_nat i).
Proof.
  induction n as [|n IH]; intros p i d Hi; [lia|].
  destruct i as [|i]; simpl memread; cbn [nth].
  - now rewrite Z.add_0_r.
  - rewrite IH by lia. f_equal. lia.
Qed.

(** ** String lists *)

(** C10: a call of [addString] on the bytes [s, e) either has both of its
    allocations succeed, and then the list has one new head element, a block
    holding exactly those bytes followed by a NUL, in front of the list as it
    was; or an allocation fails and the list is returned as it was.  Nothing
    else comes back (there is no error value, and the call does not fault),
    and the former elements are the tail unchanged. *)
Theorem addString_outcome :
  forall (ok_element ok_string : bool) (sl : tStringList) (mem : list ascii) (s e : Z),
    0 <= e - s < size_t_max ->
    (ok_element = true /\ ok_string = true /\
     exists block,
       addString ok_element ok_string sl mem s e = Some (Some block :: sl) /\
       Z.of_nat (length block) = e - s + 1 /\
       (forall i, 0 <= i < e - s -> nth (Z.to_nat i) block NUL = peek mem (s + i)) /\
       nth (Z.to_nat (e - s)) block "x"%char = NUL)
    \/ ((ok_element = false \/ ok_string = false) /\
        addString ok_element ok_string sl mem s e = Some sl).
Proof.
  intros ok1 ok2 sl mem s e Hrange.
  unfold addString. rewrite (Z.mod_small _ _ Hrange).
  destruct ok1; [|right; split; [now left | reflexivity]].
  destruct ok2; [|right; split; [now right | reflexivity]].
  replace (e <? s) with false by (symmetry; apply Z.ltb_ge; lia).
  left. repeat split. eexists. split; [reflexivity|].
  assert (Hlen : length (memread mem s (Z.to_nat (e - s))) = Z.to_nat (e - s))
    by apply memread_length.
  repeat split.
  - rewrite length_app, Hlen. simpl. lia.
  - intros i Hi. rewrite app_nth1 by (rewrite Hlen; lia).
    rewrite memread_nth by lia. f_equal. lia.
  - rewrite app_nth2 by (rewrite Hlen; lia).
    rewrite Hlen, Nat.sub_diag. reflexivity.
Qed.

Lemma addString_outcome_witness :
  0 <= 3 - 0 < size_t_max /\
  ((true = true /\ true = true /\
    exists block,
      addString true true [Some (str "x" ++ [NUL])] (str "a+b;") 0 3
        = Some (Some block :: [Some (str "x" ++ [NUL])]) /\
      Z.of_nat (length block) = 3 - 0 + 1 /\
      (forall i, 0 <= i < 3 - 0 -> nth (Z.to_nat i) block NUL = peek (str "a+b;") (0 + i)) /\
      nth (Z.to_nat (3 - 0)) block "x"%char = NUL)
   \/ ((true = false \/ true = false) /\
       addString true true [Some (str "x" ++ [NUL])] (str "a+b;") 0 3
         = Some [Some (str "x" ++ [NUL])])).
Proof.
  assert (H : 0 <= 3 - 0 < size_t_max) by (vm_compute; split; [discriminate | reflexivity]).
  split; [exact H | exact (addString_outcome true true _ _ 0 3 H)].
Defined.

(** ** The type classifier *)

(** C3: the phrase is not kept within the capacity.  With the 200 bytes
    both callers provide, a declarator with sixteen stars makes
    [processTyped] store 204 bytes: the sixteenth [strncat] is allowed 5
    characters and adds a NUL after them, and [remaining -= 13] then wraps
    around, so the base type is appended without any bound. *)
Theorem processTyped_overflows_type :
  bytesWritten (processTyped (str "int ****************p") sizeof_type 0 21) = 204
  /\ sizeof_type = 200
  /\ ptrCount (declarator (str "int ****************p") 0 21) = 16.
Proof. vm_compute. repeat split. Qed.

(** The same slip without any star: a base type that exactly fills the
    capacity gets its NUL stored one byte past it. *)
Lemma processTyped_off_by_one :
  bytesWritten (processTyped (str "long x") 4 0 6) = 5.
Proof. reflexivity. Qed.

(** ** Line continuations *)

(** C2: in a preprocessor directive the backslash is not taken as an escape
    (the directive branch has no case for it), so the line ending after it
    ends the directive and flushes the buffer.  Outside a directive the same
    two characters leave the text in the buffer.  The continuation line of
    the macro is then read as code of its own: here it is given a function
    comment. *)
Theorem backslash_newline_ends_directive :
  let directive := sampleStates (str "#define F \" ++ [LF] ++ str "int f(){}" ++ [LF]) in
  let plain := sampleStates (str "int x = \" ++ [LF] ++ str "1;" ++ [LF]) in
  option_map (fun st => (inPreprocessor st, isLiteral st)) (nth_error directive 10)
    = Some (true, false)
  /\ option_map (fun st => (inPreprocessor st, data (buf st))) (nth_error directive 11)
    = Some (false, [])
  /\ option_map (fun st => isLiteral st) (nth_error plain 8) = Some true
  /\ option_map (fun st => data (buf st)) (nth_error plain 9)
    = Some (str "int x = \" ++ [LF])
  /\ exists comment,
      sampleOutput plainOptions (str "#define F \" ++ [LF] ++ str "int f(){}" ++ [LF])
      = file (newFileComment plainOptions always initBuffer)
          ++ str "#define F \" ++ [LF] ++ NL ++ str "/**" ++ comment
          ++ str "*/int f(){}" ++ [LF].
Proof.
  cbv zeta. repeat split; try (vm_compute; reflexivity).
  exists (firstn 157 (skipn 159
            (sampleOutput plainOptions
               (str "#define F \" ++ [LF] ++ str "int f(){}" ++ [LF])))).
  vm_compute. reflexivity.
Qed.

(** ** Writing to the output *)

Lemma extends_refl b : extends b b.
Proof. unfold extends. repeat split. exists []. now rewrite app_nil_r. Qed.

Lemma extends_trans b1 b2 b3 : extends b1 b2 -> extends b2 b3 -> extends b1 b3.
Proof.
  unfold extends.
  intros (A1 & A2 & A3 & A4 & A5 & A6 & A7 & A8 & A9 & A10 & A11 & A12 & w1 & A13)
         (B1 & B2 & B3 & B4 & B5 & B6 & B7 & B8 & B9 & B10 & B11 & B12 & w2 & B13).
  repeat split; try congruence.
  exists (w1 ++ w2). rewrite B13, A13. now rewrite app_assoc.
Qed.

Lemma extends_fprintf s b : extends b (fprintf s b).
Proof. unfold extends. repeat split. now exists s. Qed.

Lemma extends_dumpBlock s e b : extends b (dumpBlock s e b).
Proof. apply extends_fprintf. Qed.

Create HintDb extends.

#[local] Hint Resolve extends_refl extends_fprintf extends_dumpBlock : extends.

Ltac extends_steps :=
  repeat first
    [ apply extends_refl
    | apply extends_fprintf
    | apply extends_dumpBlock
    | eapply extends_trans; [| solve [apply extends_fprintf | apply extends_dumpBlock] ] ].

Section Rendering.

Variable gOptions : tAppOptions.
Variable malloc_ok : Z -> bool.

Lemma extends_processBoilerplate b : extends b (processBoilerplate gOptions malloc_ok b).
Proof.
  unfold processBoilerplate.
  destruct (boilerplate gOptions); [destruct (malloc_ok 32768)|]; auto with extends.
Qed.

Lemma extends_newFileComment b : extends b (newFileComment gOptions malloc_ok b).
Proof.
  unfold newFileComment.
  eapply extends_trans; [|apply extends_fprintf].
  eapply extends_trans; [|apply extends_fprintf].
  eapply extends_trans; [|apply extends_processBoilerplate].
  eapply extends_trans; [|apply extends_fprintf].
  apply extends_fprintf.
Qed.

Lemma extends_processFileComment b : extends b (processFileComment gOptions malloc_ok b).
Proof.
  unfold processFileComment.
  eapply extends_trans; [|apply extends_fprintf].
  eapply extends_trans; [|apply extends_processBoilerplate].
  eapply extends_trans; [|apply extends_fprintf].
  eapply extends_trans; [|apply extends_dumpBlock].
  apply extends_fprintf.
Qed.

Lemma extends_processDescription b : extends b (processDescription b).
Proof.
  unfold processDescription.
  eapply extends_trans; [|apply extends_fprintf].
  match goal with
  | |- extends b (if ?c then _ else ?x) =>
    assert (H : extends b x); [| destruct c; [eapply extends_trans; [exact H|]; extends_steps | exact H] ]
  end.
  destruct (0 <? count (description b)); [|apply extends_refl].
  match goal with |- context [if ?c then _ else _] => destruct c end.
  - unfold extends. repeat split. exists []. simpl. now rewrite app_nil_r.
  - apply extends_dumpBlock.
Qed.

Lemma extends_paramLine s p b : extends b (fst (paramLine s p b)).
Proof.
  unfold paramLine.
  destruct (processTyped (data b) sizeof_type s p) as [[ns ne] [[[type st] io]|]];
    [|apply extends_refl].
  match goal with |- context [if ?c then _ else _] => destruct c end;
    cbn [fst]; extends_steps.
Qed.

Lemma extends_argLoop fuel : forall s p said b, extends b (fst (argLoop fuel s p said b)).
Proof.
  induction fuel as [|k IH]; intros s p said b; cbn [argLoop fst]; [apply extends_refl|].
  match goal with |- context [if ?c then _ else _] => destruct c end; [|apply IH].
  pose proof (extends_paramLine s p b) as H.
  destruct (paramLine s p b) as [b' said']. cbn [fst] in H.
  eapply extends_trans; [exact H | apply IH].
Qed.

Lemma extends_processArgList b : extends b (processArgList b).
Proof.
  unfold processArgList.
  match goal with |- context [argLoop ?f ?s ?p ?x b] =>
    pose proof (extends_argLoop f s p x b) as H; destruct (argLoop f s p x b) as [b' said]
  end.
  cbn [fst] in H. destruct said; [eapply extends_trans; [exact H | apply extends_fprintf] | exact H].
Qed.

Lemma extends_returnSection type b : extends b (returnSection type b).
Proof.
  unfold returnSection. destruct (negb (streq type (str "void"))); extends_steps.
Qed.

Lemma extends_functionComment b : extends b (functionComment b).
Proof.
  unfold functionComment.
  destruct (match snd (processTyped (data b) sizeof_type (start (function b)) (end_ (function b)))
            with Some (type, isStatic, _) => (type, isStatic) | None => ([], false) end)
    as [type isStatic].
  eapply extends_trans; [|apply extends_fprintf].
  eapply extends_trans; [|apply extends_fprintf].
  eapply extends_trans; [|apply extends_returnSection].
  eapply extends_trans; [|apply extends_processArgList].
  eapply extends_trans; [|apply extends_processDescription].
  apply extends_fprintf.
Qed.

End Rendering.

(** ** The comment block of a function *)

Lemma streq_spec (a : list ascii) : forall b, streq a b = true <-> a = b.
Proof.
  induction a as [|x a IH]; intros [|y b]; simpl; split; intros H;
    try reflexivity; try discriminate.
  - apply andb_prop in H as [H1 H2]. apply Ascii.eqb_eq in H1. apply IH in H2. congruence.
  - injection H as -> ->. rewrite Ascii.eqb_refl. now apply IH.
Qed.

Lemma dumpStringList_lines (tag : list ascii) (sl : tStringList) :
  dumpStringList sl ([TAB] ++ tag) = minedLines tag sl.
Proof.
  unfold minedLines.
  induction sl as [|[s|] sl IH]; simpl in *; [reflexivity| |];
    rewrite IH, <- ?app_assoc; reflexivity.
Qed.

Lemma functionLead_fields (b : tBuffer) :
  let b' := functionLead b in
  data b' = data b /\ function b' = function b /\ arglist b' = arglist b
  /\ todos b' = todos b /\ retvals b' = retvals b
  /\ start (description b') = descriptionStart b
  /\ end_ (description b') = descriptionEnd b
  /\ count (description b') = count (description b)
  /\ file b' = file b ++ slice (data b) 0 (descriptionStart b).
Proof.
  unfold functionLead, descriptionStart, descriptionEnd.
  destruct (count (description b) =? 0); cbn; repeat split; reflexivity.
Qed.

Section FunctionBlock.

Variable gOptions : tAppOptions.

Lemma returnType_extends b b' : extends b b' -> returnType b' = returnType b.
Proof.
  unfold extends, returnType. intros (-> & -> & _). reflexivity.
Qed.

Lemma functionComment_file (b : tBuffer) :
  file (functionComment b)
  = file (paramsDone b)
    ++ (if list_eq_dec ascii_dec (returnType b) (str "void") then []
        else NL ++ [TAB] ++ str "@return " ++ returnType b
             ++ minedLines (str "@retval ") (retvals b) ++ NL)
    ++ minedLines (str "@todo ") (todos b) ++ blockCloser.
Proof.
  unfold functionComment, paramsDone, blockOpener, returnType, staticFunction.
  destruct (snd (processTyped (data b) sizeof_type (start (function b)) (end_ (function b))))
    as [[[type isStatic] io]|].
  - set (b1 := processArgList _).
    assert (E : extends b b1).
    { unfold b1. eapply extends_trans; [|apply extends_processArgList].
      eapply extends_trans; [|apply extends_processDescription]. apply extends_fprintf. }
    destruct E as (_ & _ & _ & _ & _ & _ & _ & _ & _ & Et & _ & Er & _).
    unfold returnSection.
    destruct (list_eq_dec ascii_dec type (str "void")) as [Hv|Hv].
    + apply streq_spec in Hv. rewrite Hv. cbn [negb].
      cbn [fprintf set_file file todos]. rewrite Et, dumpStringList_lines.
      unfold blockCloser. now rewrite <- !app_assoc.
    + destruct (streq type (str "void")) eqn:Hs; [apply streq_spec in Hs; contradiction|].
      cbn [negb]. cbn [fprintf set_file file todos retvals].
      rewrite Et, Er, !dumpStringList_lines.
      unfold blockCloser. now rewrite <- !app_assoc.
  - set (b1 := processArgList _).
    assert (E : extends b b1).
    { unfold b1. eapply extends_trans; [|apply extends_processArgList].
      eapply extends_trans; [|apply extends_processDescription]. apply extends_fprintf. }
    destruct E as (_ & _ & _ & _ & _ & _ & _ & _ & _ & Et & _ & Er & _).
    unfold returnSection.
    destruct (list_eq_dec ascii_dec [] (str "void")) as [Hv|Hv]; [discriminate|].
    cbn [streq str list_ascii_of_string negb]. cbn [fprintf set_file file todos retvals].
    rewrite Et, Er, !dumpStringList_lines.
    unfold blockCloser. now rewrite <- !app_assoc.
Qed.

Lemma processFunction_file (b : tBuffer) :
  file (processFunction gOptions b)
  = file (functionComment (functionLead b)) ++ afterBlock gOptions b.
Proof.
  unfold processFunction, afterBlock.
  pose proof (functionLead_fields b) as (Hd & _ & Ha & _ & _ & _ & He & _).
  cbv zeta in *.
  pose proof (extends_functionComment (functionLead b))
    as (Hd' & _ & Ha' & _ & _ & He' & _).
  destruct (onlyPrototypes gOptions); unfold dumpBlock, fprintf; cbn [file set_file];
    unfold ptr; rewrite ?Hd', ?Ha', ?He', ?Hd, ?Ha, ?He, <- ?app_assoc; reflexivity.
Qed.

(** C8: in the comment block of a function, what stands between the
    parameter lines and the todo lines is nothing at all when the classified
    return type is exactly [void], and otherwise the [@return] line with the
    type, one [@retval] line per mined return value, and a line end. *)
Theorem return_section_unless_void :
  forall b : tBuffer,
    file (processFunction gOptions b)
    = file (paramsDone (functionLead b))
      ++ (if list_eq_dec ascii_dec (returnType b) (str "void") then []
          else NL ++ [TAB] ++ str "@return " ++ returnType b
               ++ minedLines (str "@retval ") (retvals b) ++ NL)
      ++ minedLines (str "@todo ") (todos b) ++ blockCloser ++ afterBlock gOptions b.
Proof.
  intros b. rewrite processFunction_file, functionComment_file.
  pose proof (functionLead_fields b) as (Hd & Hf & _ & Ht & Hr & _).
  cbv zeta in *.
  assert (Hty : returnType (functionLead b) = returnType b)
    by (unfold returnType; now rewrite Hd, Hf).
  rewrite Hty, Ht, Hr. now rewrite <- !app_assoc.
Qed.

End FunctionBlock.

(** ** The flush *)

Lemma slice_all (mem : list ascii) : slice mem 0 (Z.of_nat (length mem)) = mem.
Proof.
  unfold slice. cbn [Z.to_nat skipn]. rewrite Z.max_id, Z.sub_0_r, Nat2Z.id.
  apply firstn_all.
Qed.

Lemma clearBuffer_file_eq (b b' : tBuffer) :
  file b = file b' -> fileComment b = fileComment b' -> faulted b = faulted b' ->
  clearBuffer b = clearBuffer b'.
Proof. unfold clearBuffer. now intros -> -> ->. Qed.

Section Flush.

Variable gOptions : tAppOptions.
Variable malloc_ok : Z -> bool.

Lemma classify_function (b : tBuffer) :
  classify b = FunctionDefinition
  <-> fileComment b = false
      /\ capturedOnce (function b) /\ capturedOnce (arglist b) /\ capturedOnce (body b).
Proof.
  unfold classify, capturedOnce.
  destruct (fileComment b);
    [split; [discriminate | intros (H & _); discriminate]|].
  destruct (count (function b) =? 1) eqn:Ef, (count (arglist b) =? 1) eqn:Ea,
           (count (body b) =? 1) eqn:Eb; cbn [andb];
    rewrite ?Z.eqb_eq, ?Z.eqb_neq in *;
    split; try discriminate; try tauto; intros (_ & ? & ? & ?); contradiction.
Qed.

(** C6: a flush renders its accumulation as a function definition exactly
    when [fileComment] is not set and the function, arglist and body ranges
    each have count 1; with [fileComment] set it renders a file header, and
    anything else is plain text, which goes out unmodified (in prototype-only
    mode it is dropped).  [flushBuffer] renders nothing for an empty buffer,
    hence the assumption that an empty buffer has nothing captured. *)
Theorem flush_classification :
  forall b : tBuffer,
    (data b = [] -> classify b = PlainText) ->
    flushBuffer gOptions malloc_ok b
      = clearBuffer (render gOptions malloc_ok (classify b) b)
    /\ (classify b = FunctionDefinition
        <-> fileComment b = false
            /\ capturedOnce (function b) /\ capturedOnce (arglist b)
            /\ capturedOnce (body b))
    /\ (classify b = FileHeader <-> fileComment b = true)
    /\ (classify b = PlainText ->
        file (flushBuffer gOptions malloc_ok b)
        = file b ++ (if onlyPrototypes gOptions then [] else data b)).
Proof.
  intros b Hempty.
  assert (Hflush : flushBuffer gOptions malloc_ok b
                   = clearBuffer (render gOptions malloc_ok (classify b) b)).
  { unfold flushBuffer, ptr.
    destruct (data b) as [|c mem] eqn:Hd.
    - rewrite (Hempty eq_refl). cbn [length Z.of_nat Z.ltb Z.compare render].
      destruct (onlyPrototypes gOptions); [reflexivity|].
      apply clearBuffer_file_eq; cbn; rewrite ?Hd, ?app_nil_r; reflexivity.
    - replace (0 <? Z.of_nat (length (c :: mem))) with true
        by (symmetry; apply Z.ltb_lt; cbn [length]; lia).
      unfold classify. destruct (fileComment b); [reflexivity|].
      destruct ((count (function b) =? 1) && (count (arglist b) =? 1)
                && (count (body b) =? 1)); [reflexivity|].
      cbn [render]. destruct (onlyPrototypes gOptions); cbn [negb]; [reflexivity|].
      unfold dumpBlock. rewrite Hd, slice_all. reflexivity. }
  split; [exact Hflush|]. split; [apply classify_function|]. split.
  - unfold classify. destruct (fileComment b); [tauto|].
    destruct ((count (function b) =? 1) && (count (arglist b) =? 1)
              && (count (body b) =? 1)); split; discriminate.
  - intros Hp. rewrite Hflush, Hp. cbn [render].
    destruct (onlyPrototypes gOptions); cbn; [now rewrite app_nil_r | reflexivity].
Qed.

End Flush.

Lemma flush_classification_witness :
  (data sampleFunction = [] -> classify sampleFunction = PlainText)
  /\ flushBuffer plainOptions always sampleFunction
     = clearBuffer (render plainOptions always (classify sampleFunction) sampleFunction)
  /\ classify sampleFunction = FunctionDefinition.
Proof.
  assert (H : data sampleFunction = [] -> classify sampleFunction = PlainText)
    by (intros H; discriminate H).
  split; [exact H|].
  split; [exact (proj1 (flush_classification plainOptions always sampleFunction H))
         | reflexivity].
Defined.

(** ** Prototype-only mode *)

Lemma functionComment_block (b : tBuffer) :
  exists block, file (functionComment b) = file b ++ NL ++ str "/**" ++ block ++ str "*/".
Proof.
  rewrite functionComment_file. unfold paramsDone.
  set (b0 := fprintf (blockOpener b) b).
  assert (E : extends b0 (processArgList (processDescription b0))).
  { eapply extends_trans; [apply extends_processDescription | apply extends_processArgList]. }
  destruct E as (_ & _ & _ & _ & _ & _ & _ & _ & _ & _ & _ & _ & w & Hw).
  rewrite Hw. unfold b0, blockOpener, blockCloser. cbn [fprintf set_file file].
  exists (NL ++ (if staticFunction b then [TAB] ++ str "@internal" ++ NL ++ NL else [])
          ++ [TAB] ++ w
          ++ (if list_eq_dec ascii_dec (returnType b) (str "void") then []
              else NL ++ [TAB] ++ str "@return " ++ returnType b
                   ++ minedLines (str "@retval ") (retvals b) ++ NL)
          ++ minedLines (str "@todo ") (todos b)
          ++ NL ++ [TAB] ++ str "@todo edit me (automatically generated by insertdox)" ++ NL).
  rewrite <- !app_assoc. reflexivity.
Qed.

Lemma written_app (f : tBuffer -> tBuffer) (b : tBuffer) (w : list ascii) :
  file (f b) = file b ++ w -> written f b = w.
Proof.
  intros H. unfold written. rewrite H, skipn_app, Nat.sub_diag.
  rewrite skipn_all2 by lia. reflexivity.
Qed.

Lemma processDescription_file (b : tBuffer) :
  file (processDescription b) = file b ++ descriptionLines b.
Proof.
  unfold processDescription, descriptionLines, dumpBlock, fprintf. cbv zeta.
  destruct (0 <? count (description b)) eqn:H0.
  - destruct (skipComment _ _ _ =? _);
      cbn [set_description set_file description count file set_count Z.eqb data].
    + now rewrite <- !app_assoc.
    + apply Z.ltb_lt in H0.
      replace (count (description b) =? 0) with false by (symmetry; apply Z.eqb_neq; lia).
      cbn [set_file file]. now rewrite <- !app_assoc.
  - destruct (count (description b) =? 0); cbn [set_file file];
      now rewrite <- ?app_assoc.
Qed.

Lemma paramLine_same (s p : Z) (b1 b2 : tBuffer) :
  data b1 = data b2 ->
  exists w, file (fst (paramLine s p b1)) = file b1 ++ w
            /\ file (fst (paramLine s p b2)) = file b2 ++ w
            /\ snd (paramLine s p b1) = snd (paramLine s p b2).
Proof.
  intros Hd. unfold paramLine, dumpBlock, fprintf. rewrite Hd.
  destruct (processTyped (data b2) sizeof_type s p) as [[n_start n_end] [[[type st] io]|]].
  - destruct (negb (n_end - n_start =? 4) || negb (strncmp0 (data b2) n_start (str "void")));
      cbn [fst snd set_file file data].
    + rewrite Hd. eexists. rewrite <- !app_assoc. repeat split; reflexivity.
    + exists []. now rewrite !app_nil_r.
  - exists []. cbn [fst snd]. now rewrite !app_nil_r.
Qed.

Lemma argLoop_same (fuel : nat) :
  forall (s p : Z) (said : bool) (b1 b2 : tBuffer),
    data b1 = data b2 ->
    exists w, file (fst (argLoop fuel s p said b1)) = file b1 ++ w
              /\ file (fst (argLoop fuel s p said b2)) = file b2 ++ w
              /\ snd (argLoop fuel s p said b1) = snd (argLoop fuel s p said b2).
Proof.
  induction fuel as [|k IH]; intros s p said b1 b2 Hd; cbn [argLoop].
  - exists []. cbn [fst snd]. now rewrite !app_nil_r.
  - rewrite Hd.
    destruct ((peek (data b2) p =? ",")%char || (peek (data b2) p =? ")")%char); [|now apply IH].
    destruct (paramLine_same s p b1 b2 Hd) as (w & H1 & H2 & H3).
    pose proof (extends_paramLine s p b1) as (D1 & _).
    pose proof (extends_paramLine s p b2) as (D2 & _).
    destruct (paramLine s p b1) as [c1 said1], (paramLine s p b2) as [c2 said2].
    cbn [fst snd] in *. subst said2.
    destruct (IH (p + 1) (p + 1) (said || said1) c1 c2 ltac:(congruence)) as (w' & I1 & I2 & I3).
    exists (w ++ w'). rewrite I1, I2, H1, H2, <- !app_assoc. repeat split. exact I3.
Qed.

(** What [processArgList] writes depends on the text and the argument list
    range alone. *)
Lemma processArgList_file (b b' : tBuffer) :
  data b' = data b -> arglist b' = arglist b ->
  file (processArgList b') = file b' ++ parameterLines b.
Proof.
  intros Hd Ha.
  assert (H : exists w, file (processArgList b') = file b' ++ w
                        /\ file (processArgList b) = file b ++ w).
  { unfold processArgList. rewrite Hd, Ha.
    set (s := scan_fwd _ _ _ _).
    destruct (argLoop_same (Z.to_nat (end_ (arglist b) - s)) s s false b' b Hd)
      as (w & H1 & H2 & H3).
    destruct (argLoop _ s s false b') as [c1 said1], (argLoop _ s s false b) as [c2 said2].
    cbn [fst snd] in *. subst said2.
    destruct said1; cbn [fprintf set_file file]; rewrite H1, H2.
    - exists (w ++ NL). now rewrite <- !app_assoc.
    - now exists w. }
  destruct H as (w & H1 & H2). unfold parameterLines. now rewrite H1, (written_app _ _ _ H2).
Qed.

(** What [processFunction] writes in front of the text of the function. *)
Lemma functionComment_text (b : tBuffer) :
  file (functionComment (functionLead b))
  = file b ++ slice (data b) 0 (descriptionStart b) ++ functionBlock b.
Proof.
  rewrite functionComment_file.
  pose proof (functionLead_fields b) as (Hd & Hf & Ha & Ht & Hr & Hs & He & Hc & Hfile).
  cbv zeta in *. set (b0 := functionLead b) in *.
  assert (Hty : returnType b0 = returnType b) by (unfold returnType; now rewrite Hd, Hf).
  assert (Hop : blockOpener b0 = blockOpener b)
    by (unfold blockOpener, staticFunction; now rewrite Hd, Hf).
  rewrite Hty, Ht, Hr. unfold paramsDone. rewrite Hop.
  set (b1 := fprintf (blockOpener b) b0).
  assert (H1 : descriptionLines b1 = descriptionLines b).
  { unfold descriptionLines, b1. cbn [fprintf set_file data description]. rewrite Hd, Hc.
    destruct (0 <? count (description b)) eqn:H0; [|reflexivity].
    apply Z.ltb_lt in H0. cbv zeta. unfold descriptionStart, descriptionEnd in Hs, He.
    replace (count (description b) =? 0) with false in Hs, He
      by (symmetry; apply Z.eqb_neq; lia).
    now rewrite Hs, He. }
  pose proof (extends_processDescription b1) as (D1 & _ & A1 & _).
  rewrite (processArgList_file b (processDescription b1))
    by (unfold b1 in *; cbn [fprintf set_file data arglist] in *; congruence).
  rewrite processDescription_file, H1. unfold b1. cbn [fprintf set_file file]. rewrite Hfile.
  unfold functionBlock, returnLines. now rewrite <- !app_assoc.
Qed.

Section Prototypes.

Variable gOptions : tAppOptions.
Variable malloc_ok : Z -> bool.

(** The flush of a function definition: the text in front of the
    description range, the comment block, and what [afterBlock] leaves of the
    text. *)
Lemma function_flush_text (b : tBuffer) :
  classify b = FunctionDefinition -> data b <> [] ->
  file (flushBuffer gOptions malloc_ok b)
  = file b ++ slice (data b) 0 (descriptionStart b) ++ functionBlock b
    ++ afterBlock gOptions b.
Proof.
  intros Hk Hne.
  assert (Hp : (0 <? ptr b) = true).
  { apply Z.ltb_lt. unfold ptr. destruct (data b); [contradiction | cbn [length]; lia]. }
  unfold flushBuffer. rewrite Hp.
  unfold classify in Hk.
  destruct (fileComment b); [discriminate|].
  destruct ((count (function b) =? 1) && (count (arglist b) =? 1)
            && (count (body b) =? 1)); [|discriminate].
  cbn [clearBuffer file]. rewrite processFunction_file, functionComment_text.
  now rewrite <- !app_assoc.
Qed.

(** C9: in prototype-only mode a flush of plain text writes nothing, and a
    flush of a function definition writes the text in front of the
    description range (the blank lines before the function) as it is, the
    generated comment block, the text from the end of the description
    through the end of the argument list, [;] and a blank line, and nothing
    else: what follows the argument list, the body included, is not
    written.  The comment block is the one written without prototype-only
    mode ([function_flush_text]). *)
Theorem prototype_only_flush :
  forall b : tBuffer,
    onlyPrototypes gOptions = true ->
    (classify b = PlainText -> file (flushBuffer gOptions malloc_ok b) = file b)
    /\ (classify b = FunctionDefinition -> data b <> [] ->
        file (flushBuffer gOptions malloc_ok b)
        = file b ++ slice (data b) 0 (descriptionStart b)
          ++ functionBlock b
          ++ slice (data b) (descriptionEnd b) (end_ (arglist b))
          ++ str ";" ++ NL ++ NL).
Proof.
  intros b Hproto. split.
  - intros Hk.
    assert (Hfc : fileComment b = false).
    { unfold classify in Hk. destruct (fileComment b); [discriminate | reflexivity]. }
    unfold flushBuffer.
    unfold classify in Hk. rewrite Hfc in *.
    destruct ((count (function b) =? 1) && (count (arglist b) =? 1)
              && (count (body b) =? 1)); [discriminate|].
    rewrite Hproto. cbn [negb]. destruct (0 <? ptr b); reflexivity.
  - intros Hk Hne. rewrite (function_flush_text b Hk Hne).
    unfold afterBlock. now rewrite Hproto.
Qed.

End Prototypes.

(** What the machine has captured of the function when it flushes. *)
Example twiceFunction_captured :
  data twiceFunction = twiceText
  /\ function twiceFunction = mkRange 0 9 1
  /\ arglist twiceFunction = mkRange 9 16 1
  /\ body twiceFunction = mkRange 17 35 1
  /\ count (description twiceFunction) = 0
  /\ retvals twiceFunction = [Some (str "n * 2" ++ [NUL])]
  /\ file twiceFunction = file (newFileComment prototypeOptions always initBuffer).
Proof. vm_compute. repeat split. Qed.

Lemma prototype_only_flush_witness :
  onlyPrototypes prototypeOptions = true
  /\ classify twiceFunction = FunctionDefinition
  /\ data twiceFunction <> []
  /\ file (flushBuffer prototypeOptions always twiceFunction)
     = file twiceFunction ++ slice (data twiceFunction) 0 (descriptionStart twiceFunction)
       ++ functionBlock twiceFunction
       ++ slice (data twiceFunction) (descriptionEnd twiceFunction)
            (end_ (arglist twiceFunction))
       ++ str ";" ++ NL ++ NL.
Proof.
  assert (H1 : onlyPrototypes prototypeOptions = true) by reflexivity.
  assert (H2 : classify twiceFunction = FunctionDefinition) by (vm_compute; reflexivity).
  assert (H3 : data twiceFunction <> []) by (intros H; vm_compute in H; discriminate H).
  split; [exact H1|]. split; [exact H2|]. split; [exact H3|].
  exact (proj2 (prototype_only_flush prototypeOptions always twiceFunction H1) H2 H3).
Defined.

(** The function in prototype-only mode: the comment block, the declarator
    and argument list, [;] and a blank line; the body is gone. *)
Example prototype_only_twice :
  file (flushBuffer prototypeOptions always twiceFunction)
  = file twiceFunction
    ++ NL ++ str "/**" ++ NL ++ [TAB] ++ str "Brief description needed." ++ NL ++ NL
    ++ [TAB] ++ str "Followed by a more complete description." ++ NL ++ NL
    ++ [TAB] ++ str "@param[in] " ++ [TAB] ++ str "n " ++ [TAB] ++ str "int" ++ NL ++ NL
    ++ [TAB] ++ str "@return int" ++ NL
    ++ [TAB] ++ str "@retval n * 2" ++ NL
    ++ blockCloser ++ str "int twice(int n);" ++ NL ++ NL.
Proof. vm_compute. reflexivity. Qed.

(** The sample function in prototype-only mode: the comment block, the
    declarator and argument list, [;] and a blank line. *)
Example prototype_only_sample :
  file (flushBuffer prototypeOptions always sampleFunction)
  = NL ++ str "/**" ++ NL ++ [TAB] ++ str "Brief description needed." ++ NL ++ NL
    ++ [TAB] ++ str "Followed by a more complete description." ++ NL
    ++ blockCloser ++ NL ++ str "void f(void);" ++ NL ++ NL.
Proof. vm_compute. reflexivity. Qed.

(** ** Scanning *)

Lemma scan_fwd_spec (f : ascii -> bool) (mem : list ascii) :
  forall (fuel : nat) (a : Z),
    let r := scan_fwd f mem fuel a in
    a <= r <= a + Z.of_nat fuel
    /\ (forall i, a <= i < r -> f (peek mem i) = true)
    /\ (r < a + Z.of_nat fuel -> f (peek mem r) = false).
Proof.
  induction fuel as [|k IH]; intros a; cbn [scan_fwd].
  - cbv zeta. repeat split; lia.
  - destruct (f (peek mem a)) eqn:E.
    + specialize (IH (a + 1)). cbv zeta in *. destruct IH as (H1 & H2 & H3).
      repeat split; try lia.
      * intros i Hi. destruct (Z.eq_dec i a) as [->|]; [exact E | apply H2; lia].
      * intros Hr. apply H3. lia.
    + cbv zeta. repeat split; try lia. intros _. exact E.
Qed.

Lemma scan_bwd_spec (f : ascii -> bool) (mem : list ascii) :
  forall (fuel : nat) (q : Z),
    let r := scan_bwd f mem fuel q in
    q - Z.of_nat fuel <= r <= q
    /\ (forall i, r < i <= q -> f (peek mem i) = true)
    /\ (q - Z.of_nat fuel < r -> f (peek mem r) = false).
Proof.
  induction fuel as [|k IH]; intros q; cbn [scan_bwd].
  - cbv zeta. repeat split; lia.
  - destruct (f (peek mem q)) eqn:E.
    + specialize (IH (q - 1)). cbv zeta in *. destruct IH as (H1 & H2 & H3).
      repeat split; try lia.
      * intros i Hi. destruct (Z.eq_dec i q) as [->|]; [exact E | apply H2; lia].
      * intros Hr. apply H3. lia.
    + cbv zeta. repeat split; try lia. intros _. exact E.
Qed.

(** The scan is determined by what it finds. *)
Lemma scan_fwd_unique (f : ascii -> bool) (mem : list ascii) (a e r : Z) :
  a <= r <= e ->
  (forall i, a <= i < r -> f (peek mem i) = true) ->
  (r < e -> f (peek mem r) = false) ->
  scan_fwd f mem (Z.to_nat (e - a)) a = r.
Proof.
  intros Hr Hall Hstop.
  pose proof (scan_fwd_spec f mem (Z.to_nat (e - a)) a) as (H1 & H2 & H3).
  cbv zeta in *. set (r' := scan_fwd f mem (Z.to_nat (e - a)) a) in *.
  rewrite Z2Nat.id in * by lia.
  destruct (Z.lt_trichotomy r r') as [Hlt | [Heq | Hgt]]; [|congruence|].
  - rewrite H2 in Hstop by lia. specialize (Hstop ltac:(lia)). discriminate.
  - rewrite Hall in H3 by lia. specialize (H3 ltac:(lia)). discriminate.
Qed.

(** The [static]/[const] loop of [processTyped] has run to its end within
    the fuel [processTyped] gives it: more fuel changes nothing. *)
Lemma strncmp0_head (mem : list ascii) (s : Z) (c : ascii) (lit : list ascii) :
  c <> NUL -> strncmp0 mem s (c :: lit) = true -> 0 <= s < Z.of_nat (length mem).
Proof.
  intros Hc H. cbn [strncmp0] in H. apply andb_true_iff in H. destruct H as [H _].
  apply Ascii.eqb_eq in H. unfold peek in H.
  destruct (s <? 0) eqn:Hs; [congruence|]. apply Z.ltb_ge in Hs.
  destruct (Z_lt_dec s (Z.of_nat (length mem))) as [Hl|Hl]; [lia|].
  rewrite nth_overflow in H by lia. congruence.
Qed.

Lemma strip_quals_steady (mem : list ascii) (e : Z) :
  forall (fuel fuel' : nat) (s : Z) (isStatic isConst : bool),
    Z.max 0 (Z.of_nat (length mem) - Z.max 0 s) < Z.of_nat fuel -> (fuel <= fuel')%nat ->
    strip_quals mem e fuel' s isStatic isConst = strip_quals mem e fuel s isStatic isConst.
Proof.
  induction fuel as [|k IH]; intros fuel' s isStatic isConst Hm Hle.
  - lia.
  - destruct fuel' as [|k']; [lia|]. cbn [strip_quals].
    destruct (strncmp0 mem s (str "static")) eqn:E1.
    + apply strncmp0_head in E1; [|discriminate].
      pose proof (scan_fwd_spec isspace mem (Z.to_nat (e - (s + 6))) (s + 6)) as [Hr _].
      apply IH; unfold skipSpace; lia.
    + destruct (strncmp0 mem s (str "const")) eqn:E2; [|reflexivity].
      apply strncmp0_head in E2; [|discriminate].
      pose proof (scan_fwd_spec isspace mem (Z.to_nat (e - (s + 5))) (s + 5)) as [Hr _].
      apply IH; unfold skipSpace; lia.
Qed.

Lemma strip_quals_fuel (mem : list ascii) (e s : Z) (isStatic isConst : bool) (fuel : nat) :
  (S (length mem) <= fuel)%nat ->
  strip_quals mem e fuel s isStatic isConst
  = strip_quals mem e (S (length mem)) s isStatic isConst.
Proof. intros H. apply strip_quals_steady; lia. Qed.

(** ** Slices *)

Lemma slice_length (mem : list ascii) (a b : Z) :
  0 <= a <= b -> b <= Z.of_nat (length mem) -> Z.of_nat (length (slice mem a b)) = b - a.
Proof.
  intros Ha Hb. unfold slice. rewrite Z.max_r by lia.
  rewrite length_firstn, length_skipn. lia.
Qed.

Lemma slice_nth (mem : list ascii) (a b : Z) (i : nat) (d : ascii) :
  0 <= a -> Z.of_nat i < b - a -> a + Z.of_nat i < Z.of_nat (length mem) ->
  nth i (slice mem a b) d = peek mem (a + Z.of_nat i).
Proof.
  intros Ha Hi Hlen. unfold slice. rewrite Z.max_r by lia.
  rewrite nth_firstn.
  replace (i <? Z.to_nat (b - a))%nat with true by (symmetry; apply Nat.ltb_lt; lia).
  rewrite nth_skipn, peek_nth by lia.
  replace (Z.to_nat (a + Z.of_nat i)) with (Z.to_nat a + i)%nat by lia.
  apply nth_indep. lia.
Qed.

Lemma firstn_plus (A : Type) (m n : nat) :
  forall l : list A, firstn (m + n) l = firstn m l ++ firstn n (skipn m l).
Proof.
  induction m as [|m IH]; intros [|x l]; cbn; try reflexivity.
  - now rewrite firstn_nil.
  - now rewrite IH.
Qed.

Lemma slice_app (mem : list ascii) (a b c : Z) :
  0 <= a <= b -> b <= c -> slice mem a c = slice mem a b ++ slice mem b c.
Proof.
  intros Ha Hb. unfold slice. rewrite !Z.max_r by lia.
  replace (Z.to_nat (c - a)) with (Z.to_nat (b - a) + Z.to_nat (c - b))%nat by lia.
  rewrite firstn_plus. f_equal. rewrite skipn_skipn. do 2 f_equal. lia.
Qed.

Lemma slice_nil (mem : list ascii) (a : Z) : slice mem a a = [].
Proof.
  unfold slice. destruct (Z.max_spec 0 a) as [[? ->]|[? ->]].
  - now rewrite Z.sub_diag.
  - replace (Z.to_nat (a - 0)) with 0%nat by lia. reflexivity.
Qed.

Lemma slice_skipn (mem : list ascii) (a : Z) :
  0 <= a -> slice mem a (Z.of_nat (length mem)) = skipn (Z.to_nat a) mem.
Proof.
  intros Ha. unfold slice. rewrite Z.max_r by lia.
  apply firstn_all2. rewrite length_skipn. lia.
Qed.

Lemma slice_Forall (P : ascii -> Prop) (mem : list ascii) (a b : Z) :
  0 <= a <= b -> b <= Z.of_nat (length mem) ->
  (forall i, a <= i < b -> P (peek mem i)) -> Forall P (slice mem a b).
Proof.
  intros Ha Hb H. apply Forall_forall. intros x Hx.
  apply (In_nth _ _ NUL) in Hx as (i & Hi & <-).
  apply Nat2Z.inj_lt in Hi. rewrite slice_length in Hi by lia.
  rewrite slice_nth by lia. apply H. lia.
Qed.

Lemma slice_cons (mem : list ascii) (a b : Z) :
  0 <= a < b -> b <= Z.of_nat (length mem) ->
  slice mem a b = peek mem a :: slice mem (a + 1) b.
Proof.
  intros Ha Hb. rewrite (slice_app mem a (a + 1) b) by lia. f_equal.
  pose proof (slice_length mem a (a + 1) ltac:(lia) ltac:(lia)) as Hl.
  pose proof (slice_nth mem a (a + 1) 0 NUL ltac:(lia) ltac:(cbn; lia) ltac:(cbn; lia)) as Hn.
  destruct (slice mem a (a + 1)) as [|x [|y l]]; cbn [length] in Hl; try lia.
  cbn in Hn. rewrite Z.add_0_r in Hn. now subst.
Qed.

Lemma slice_snoc (mem : list ascii) (a b : Z) :
  0 <= a < b -> b <= Z.of_nat (length mem) ->
  slice mem a b = slice mem a (b - 1) ++ [peek mem (b - 1)].
Proof.
  intros Ha Hb. rewrite (slice_app mem a (b - 1) b) by lia. f_equal.
  rewrite slice_cons by lia. replace (b - 1 + 1) with b by lia. now rewrite slice_nil.
Qed.

(** ** Trimming *)

Lemma dropSpace_spaces (A X : list ascii) :
  Forall (fun c => isspace c = true) A -> dropSpace (A ++ X) = dropSpace X.
Proof.
  induction 1 as [|c A Hc _ IH]; [reflexivity|]. cbn. now rewrite Hc.
Qed.

Lemma dropSpace_all (A : list ascii) :
  Forall (fun c => isspace c = true) A -> dropSpace A = [].
Proof.
  intros H. rewrite <- (app_nil_r A). now rewrite dropSpace_spaces.
Qed.

Lemma trimSpaces_middle (A B C : list ascii) (x y : ascii) (B1 B2 : list ascii) :
  Forall (fun c => isspace c = true) A ->
  Forall (fun c => isspace c = true) C ->
  B = x :: B1 -> B = B2 ++ [y] -> isspace x = false -> isspace y = false ->
  trimSpaces (A ++ B ++ C) = B.
Proof.
  intros HA HC Hx Hy Ex Ey. unfold trimSpaces.
  rewrite dropSpace_spaces by assumption.
  assert (H1 : dropSpace (B ++ C) = B ++ C) by (rewrite Hx; cbn; now rewrite Ex).
  rewrite H1, rev_app_distr.
  rewrite dropSpace_spaces by (apply Forall_rev; assumption).
  rewrite Hy at 1. rewrite rev_app_distr. cbn. rewrite Ey.
  change (y :: rev B2) with (rev [y] ++ rev B2).
  rewrite <- rev_app_distr, rev_involutive. now symmetry.
Qed.

Lemma trimSpaces_blank (A : list ascii) :
  Forall (fun c => isspace c = true) A -> trimSpaces A = [].
Proof. intros H. unfold trimSpaces. now rewrite (dropSpace_all A H). Qed.

(** [skipSpace] and then [trimSpace] on a range of the text leave the range
    of its trimmed characters. *)
Lemma trim_range (mem : list ascii) (a b : Z) :
  0 <= a <= b -> b <= Z.of_nat (length mem) ->
  let s := skipSpace mem a b in
  let e := trimSpace mem b s in
  a <= s <= e /\ e <= b
  /\ slice mem s e = trimSpaces (slice mem a b)
  /\ (s < e -> isspace (peek mem s) = false /\ isspace (peek mem (e - 1)) = false)
  /\ (s = e -> s = b).
Proof.
  intros Ha Hb. cbv zeta.
  pose proof (scan_fwd_spec isspace mem (Z.to_nat (b - a)) a) as (F1 & F2 & F3).
  cbv zeta in *. fold (skipSpace mem a b) in *. set (s := skipSpace mem a b) in *.
  rewrite Z2Nat.id in * by lia.
  pose proof (scan_bwd_spec isspace mem (Z.to_nat (b - 1 - s)) (b - 1)) as (B1 & B2 & B3).
  cbv zeta in *. unfold trimSpace.
  set (r := scan_bwd isspace mem (Z.to_nat (b - 1 - s)) (b - 1)) in *.
  destruct (Z.eq_dec s b) as [Hsb | Hsb].
  - (* nothing but whitespace *)
    replace (Z.to_nat (b - 1 - s)) with 0%nat in * by lia.
    assert (r = b - 1) by lia.
    replace (r + 1) with b by lia. rewrite Hsb.
    repeat split; try lia.
    rewrite slice_nil. symmetry. apply trimSpaces_blank.
    apply slice_Forall; try lia. intros i Hi. apply F2. lia.
  - rewrite Z2Nat.id in * by lia.
    assert (Hs : isspace (peek mem s) = false) by (apply F3; lia).
    assert (Hr : isspace (peek mem r) = false).
    { destruct (Z.eq_dec r s) as [->|]; [exact Hs | apply B3; lia]. }
    repeat split; try lia; try (replace (r + 1 - 1) with r by lia; assumption).
    rewrite (slice_app mem a s b), (slice_app mem s (r + 1) b) by lia.
    symmetry.
    eapply (trimSpaces_middle _ _ _ (peek mem s) (peek mem r)).
    + apply slice_Forall; try lia. intros i Hi. apply F2. lia.
    + apply slice_Forall; try lia. intros i Hi. apply B2. lia.
    + apply slice_cons; lia.
    + rewrite slice_snoc by lia. replace (r + 1 - 1) with r by lia. reflexivity.
    + exact Hs.
    + exact Hr.
Qed.

Lemma count_char_slice (c : ascii) (mem : list ascii) (n : nat) :
  forall a, 0 <= a -> a + Z.of_nat n <= Z.of_nat (length mem) ->
  count_char c mem n a
  = Z.of_nat (count_occ ascii_dec (slice mem a (a + Z.of_nat n)) c).
Proof.
  induction n as [|n IH]; intros a Ha Hlen.
  - rewrite Z.add_0_r, slice_nil. reflexivity.
  - cbn [count_char]. rewrite slice_cons by lia.
    rewrite IH by lia. replace (a + 1 + Z.of_nat n) with (a + Z.of_nat (S n)) by lia.
    destruct (peek mem a =? c)%char eqn:E.
    + apply Ascii.eqb_eq in E. rewrite count_occ_cons_eq by exact E. lia.
    + apply Ascii.eqb_neq in E. rewrite count_occ_cons_neq by exact E. lia.
Qed.

Lemma memread_slice (mem : list ascii) (n : nat) :
  forall a, 0 <= a -> a + Z.of_nat n <= Z.of_nat (length mem) ->
  memread mem a n = slice mem a (a + Z.of_nat n).
Proof.
  induction n as [|n IH]; intros a Ha Hlen.
  - rewrite Z.add_0_r, slice_nil. reflexivity.
  - cbn [memread]. rewrite slice_cons by lia. rewrite IH by lia.
    do 2 f_equal. lia.
Qed.

Lemma strncmp0_inside (mem : list ascii) (lit : list ascii) :
  Forall (fun c => c <> NUL) lit ->
  forall p, strncmp0 mem p lit = true ->
  lit = [] \/ (0 <= p /\ p + Z.of_nat (length lit) <= Z.of_nat (length mem)).
Proof.
  induction 1 as [|c lit Hc _ IH]; intros p Hm; [now left|]. right.
  cbn [strncmp0] in Hm. apply andb_prop in Hm as [H1 H2]. apply Ascii.eqb_eq in H1.
  assert (Hp : 0 <= p < Z.of_nat (length mem)).
  { unfold peek in H1. destruct (p <? 0) eqn:E; [congruence|]. apply Z.ltb_ge in E.
    split; [exact E|]. destruct (Z_lt_le_dec p (Z.of_nat (length mem))) as [|Hge]; [assumption|].
    rewrite nth_overflow in H1 by lia. congruence. }
  destruct (IH _ H2) as [-> | [_ Hl]]; cbn [length]; lia.
Qed.

(** ** The direction of a parameter *)

(** The three properties of a declarator that decide the guess, read off the
    text. *)











(** ** Return statements *)

Lemma peek_end (mem : list ascii) : peek mem (Z.of_nat (length mem)) = NUL.
Proof. rewrite peek_nth by lia. apply nth_overflow. lia. Qed.

Lemma wrappedOnce_range (mem : list ascii) (s e : Z) :
  0 <= s < e -> e <= Z.of_nat (length mem) ->
  wrappedOnce (slice mem s e)
  = (peek mem s =? "(")%char
    && (count_char "(" mem (Z.to_nat (e - s)) s =? 1)
    && (peek mem (e - 1) =? ")")%char.
Proof.
  intros Hs He. unfold wrappedOnce.
  rewrite (count_char_slice "(" mem (Z.to_nat (e - s)) s) by lia.
  replace (s + Z.of_nat (Z.to_nat (e - s))) with e by lia.
  f_equal; [f_equal|].
  - rewrite slice_cons by lia. reflexivity.
  - rewrite slice_snoc by lia. now rewrite last_last.
Qed.

(** The range [returnValue] selects holds the text [returnText] describes. *)
Lemma returnValue_text (mem : list ascii) (s : Z) :
  strncmp0 mem s (str "return") = true ->
  let r := returnValue mem s (Z.of_nat (length mem)) in
  0 <= fst r <= snd r /\ snd r <= Z.of_nat (length mem)
  /\ slice mem (fst r) (snd r) = returnText (skipn (Z.to_nat (s + 6)) mem).
Proof.
  intros Hm.
  destruct (strncmp0_inside mem (str "return")
              ltac:(repeat constructor; discriminate) s Hm) as [Hnil | [Hs Hlen]];
    [discriminate Hnil|].
  change (Z.of_nat (length (str "return"))) with 6 in Hlen.
  set (n := Z.of_nat (length mem)) in *.
  pose proof (trim_range mem (s + 6) n ltac:(lia) ltac:(lia)) as T.
  cbv zeta in T. destruct T as (T1 & T2 & T3 & T4 & T5).
  unfold returnValue, returnText.
  set (s1 := skipSpace mem (s + 6) n) in *.
  set (e1 := trimSpace mem n s1) in *.
  unfold n in T3. rewrite slice_skipn in T3 by lia. rewrite <- T3. fold n.
  destruct (Z.eq_dec s1 e1) as [Heq | Hne].
  - (* an empty expression *)
    pose proof (T5 Heq) as Hn. rewrite <- Heq, slice_nil.
    replace (peek mem s1) with NUL by (rewrite Hn; symmetry; apply peek_end).
    cbn. rewrite Heq, slice_nil. repeat split; lia.
  - rewrite (wrappedOnce_range mem s1 e1) by lia.
    destruct (peek mem s1 =? "(")%char eqn:Eo; cbn [andb];
      [|cbn [fst snd]; repeat split; lia].
    destruct ((count_char "(" mem (Z.to_nat (e1 - s1)) s1 =? 1)
              && (peek mem (e1 - 1) =? ")")%char) eqn:Ec;
      [|cbn [fst snd]; repeat split; lia].
    apply andb_prop in Ec as [_ Ecl].
    apply Ascii.eqb_eq in Eo, Ecl.
    assert (Hlen2 : s1 + 1 <= e1 - 1).
    { destruct (Z.eq_dec (s1 + 1) e1) as [E|]; [|lia].
      replace (e1 - 1) with s1 in Ecl by lia. congruence. }
    (* the scan for the first inner character stops before the parenthesis *)
    assert (Hskip : skipSpace mem (s1 + 1) e1 = skipSpace mem (s1 + 1) (e1 - 1)).
    { pose proof (scan_fwd_spec isspace mem (Z.to_nat (e1 - 1 - (s1 + 1))) (s1 + 1))
        as (F1 & F2 & F3).
      cbv zeta in *. fold (skipSpace mem (s1 + 1) (e1 - 1)) in *.
      rewrite Z2Nat.id in * by lia.
      apply scan_fwd_unique; [lia | exact F2 |].
      intros _. destruct (Z.eq_dec (skipSpace mem (s1 + 1) (e1 - 1)) (e1 - 1)) as [->|];
        [rewrite Ecl; reflexivity | apply F3; lia]. }
    rewrite Hskip.
    pose proof (trim_range mem (s1 + 1) (e1 - 1) ltac:(lia) ltac:(lia)) as U.
    cbv zeta in U. destruct U as (U1 & U2 & U3 & _).
    cbn [fst snd]. rewrite U3.
    repeat split; try lia.
    f_equal. rewrite (slice_cons mem s1 e1) by lia. cbn [tl].
    rewrite (slice_snoc mem (s1 + 1) e1) by lia. now rewrite removelast_last.
Qed.

Lemma closer_spec (l : list ascii) :
  forall (depth i : nat), closer depth l = Some i ->
                          (i < length l)%nat /\ nth i l NUL = ")"%char.
Proof.
  induction l as [|c l IH]; intros depth i H; cbn [closer] in H; [discriminate|].
  destruct (c =? ")")%char eqn:Ec.
  - destruct depth as [|d].
    + injection H as <-. apply Ascii.eqb_eq in Ec. cbn. split; [lia | exact Ec].
    + destruct (closer d l) as [j|] eqn:Ej; [|discriminate]. injection H as <-.
      destruct (IH _ _ Ej). cbn. split; [lia | assumption].
  - destruct (c =? "(")%char.
    + destruct (closer (S depth) l) as [j|] eqn:Ej; [|discriminate]. injection H as <-.
      destruct (IH _ _ Ej). cbn. split; [lia | assumption].
    + destruct (closer depth l) as [j|] eqn:Ej; [|discriminate]. injection H as <-.
      destruct (IH _ _ Ej). cbn. split; [lia | assumption].
Qed.

Lemma last_nth (l : list ascii) (d : ascii) : last l d = nth (length l - 1) l d.
Proof.
  induction l as [|x [|y l] IH]; [reflexivity | reflexivity|].
  change (last (x :: y :: l) d) with (last (y :: l) d). rewrite IH.
  cbn [length]. replace (S (S (length l)) - 1)%nat with (S (S (length l) - 1)) by lia.
  reflexivity.
Qed.

(** The condition of the spec is sufficient for the one the code tests. *)
Lemma wrappedMatching_wrappedOnce (expr : list ascii) :
  wrappedMatching expr = true -> wrappedOnce expr = true.
Proof.
  unfold wrappedMatching, wrappedOnce. intros H.
  apply andb_prop in H as [H Hc]. rewrite H. cbn [andb].
  destruct (closer 0 (tl expr)) as [i|] eqn:Ei; [|discriminate].
  apply Nat.eqb_eq in Hc. apply closer_spec in Ei as [Hi Hn].
  destruct expr as [|x rest]; [discriminate|]. cbn [tl length] in *.
  rewrite last_nth. cbn [length].
  replace (S (length rest) - 1)%nat with (S i) by lia. cbn [nth].
  rewrite Hn. reflexivity.
Qed.

(** Without a further opening parenthesis the first closing one is the
    match. *)
Lemma closer_first (l : list ascii) :
  count_occ ascii_dec l "("%char = 0%nat -> last l NUL = ")"%char ->
  (closer 0 l = Some (length l - 1)%nat <-> count_occ ascii_dec l ")"%char = 1%nat).
Proof.
  induction l as [|c l IH]; intros Ho Hl; [cbn in Hl; discriminate|].
  destruct (ascii_dec c "("%char) as [->|Hco];
    [rewrite count_occ_cons_eq in Ho by reflexivity; discriminate|].
  rewrite count_occ_cons_neq in Ho by exact Hco.
  cbn [closer length]. replace (S (length l) - 1)%nat with (length l) by lia.
  destruct (c =? ")")%char eqn:Ec.
  - apply Ascii.eqb_eq in Ec. subst c. rewrite count_occ_cons_eq by reflexivity.
    destruct l as [|y l]; [cbn; tauto|].
    assert (Hin : In ")"%char (y :: l)).
    { change (last (")"%char :: y :: l) NUL) with (last (y :: l) NUL) in Hl.
      rewrite <- Hl. rewrite last_nth. apply nth_In. cbn [length]. lia. }
    apply (count_occ_In ascii_dec) in Hin. cbn [length]. split; [intros [=] | lia].
  - apply Ascii.eqb_neq in Ec. rewrite count_occ_cons_neq by exact Ec.
    replace (c =? "(")%char with false by (symmetry; apply Ascii.eqb_neq; exact Hco).
    destruct l as [|y l]; [cbn in Hl; congruence|].
    change (last (c :: y :: l) NUL) with (last (y :: l) NUL) in Hl.
    rewrite <- (IH Ho Hl). cbn [length].
    replace (S (length l) - 1)%nat with (length l) by lia.
    destruct (closer 0 (y :: l)) as [j|]; cbn [option_map]; split; intros [=]; f_equal; lia.
Qed.

(** The two conditions differ on the expressions with a further closing
    parenthesis, and only there. *)
Lemma wrappedOnce_matching (expr : list ascii) :
  wrappedOnce expr = true ->
  (wrappedMatching expr = true <-> count_occ ascii_dec expr ")"%char = 1%nat).
Proof.
  unfold wrappedOnce, wrappedMatching. intros H.
  apply andb_prop in H as [H Hl]. rewrite H. cbn [andb].
  apply andb_prop in H as [Hh Hc].
  apply Ascii.eqb_eq in Hh, Hl. apply Z.eqb_eq in Hc.
  destruct expr as [|x rest]; [discriminate|]. cbn [hd tl length] in *. subst x.
  rewrite count_occ_cons_eq in Hc by reflexivity.
  rewrite count_occ_cons_neq by discriminate.
  destruct rest as [|y rest]; [discriminate|].
  change (last ("("%char :: y :: rest) NUL) with (last (y :: rest) NUL) in Hl.
  rewrite <- (closer_first (y :: rest) ltac:(lia) Hl). cbn [length].
  replace (S (length rest) - 1)%nat with (length rest) by lia.
  destruct (closer 0 (y :: rest)) as [j|]; [|split; discriminate].
  split.
  - intros Hj. apply Nat.eqb_eq in Hj. f_equal. lia.
  - intros [= ->]. apply Nat.eqb_refl.
Qed.

Section Mining.

Variable malloc_ok : Z -> bool.

(** C5, as amended: a statement that starts with [return] records the
    trimmed expression after the keyword; the expression loses its outer
    parentheses (and the white space inside them) exactly when it has one
    opening parenthesis, at its start, and its last character is a closing
    one.  The condition of the spec, that this last character is the
    parenthesis matching the opening one, is sufficient for it, and the two
    differ only on an expression with a further closing parenthesis.  So
    [return (x);] records [x] and [return (a)+(b);] records [(a)+(b)]. *)
Theorem return_parentheses :
  (forall (b : tBuffer) (s : Z),
      statementStart b = Some s ->
      strncmp0 (data b) s (str "return") = true ->
      (forall n, malloc_ok n = true) ->
      ptr b < size_t_max ->
      retvals (parseStatement malloc_ok b)
      = Some (returnText (skipn (Z.to_nat (s + 6)) (data b)) ++ [NUL]) :: retvals b)
  /\ (forall expr : list ascii,
         returnText expr
         = if wrappedOnce (trimSpaces expr)
           then trimSpaces (removelast (tl (trimSpaces expr)))
           else trimSpaces expr)
  /\ (forall expr : list ascii, wrappedMatching expr = true -> wrappedOnce expr = true)
  /\ (forall expr : list ascii,
         wrappedOnce expr = true ->
         (wrappedMatching expr = true <-> count_occ ascii_dec expr ")"%char = 1%nat))
  /\ wrappedOnce (str "(x)") = true
  /\ wrappedOnce (str "(a)+(b)") = false
  /\ returnText (str " (x)") = str "x"
  /\ returnText (str " (a)+(b)") = str "(a)+(b)"
  /\ retvals (parseStatement always (statementBuffer (str "return (x)")))
     = [Some (str "x" ++ [NUL])]
  /\ retvals (parseStatement always (statementBuffer (str "return (a)+(b)")))
     = [Some (str "(a)+(b)" ++ [NUL])].
Proof.
  split; [|split; [reflexivity|]; split; [exact wrappedMatching_wrappedOnce|];
           split; [exact wrappedOnce_matching|]; repeat split].
  intros b s Hst Hm Hok Hfit.
  unfold parseStatement. rewrite Hst, Hm.
  pose proof (returnValue_text (data b) s Hm) as R. cbv zeta in R.
  fold (ptr b) in R.
  destruct (returnValue (data b) s (ptr b)) as [s' e']. cbn [fst snd] in R.
  destruct R as (R1 & R2 & R3).
  unfold addString', addString. rewrite !Hok.
  replace (e' <? s') with false by (symmetry; apply Z.ltb_ge; lia).
  cbn [mined retvals set_statementStart set_retvals].
  rewrite (Z.mod_small (e' - s')) by lia.
  rewrite memread_slice by (unfold ptr in *; lia).
  replace (s' + Z.of_nat (Z.to_nat (e' - s'))) with e' by lia.
  now rewrite R3.
Qed.

End Mining.

Lemma return_parentheses_witness :
  statementStart (statementBuffer (str "return ( x+1 )")) = Some 0
  /\ strncmp0 (data (statementBuffer (str "return ( x+1 )"))) 0 (str "return") = true
  /\ (forall n, always n = true)
  /\ ptr (statementBuffer (str "return ( x+1 )")) < size_t_max
  /\ retvals (parseStatement always (statementBuffer (str "return ( x+1 )")))
     = Some (returnText (skipn (Z.to_nat (0 + 6))
                           (data (statementBuffer (str "return ( x+1 )")))) ++ [NUL])
       :: retvals (statementBuffer (str "return ( x+1 )")).
Proof.
  assert (H1 : statementStart (statementBuffer (str "return ( x+1 )")) = Some 0)
    by reflexivity.
  assert (H2 : strncmp0 (data (statementBuffer (str "return ( x+1 )"))) 0 (str "return")
               = true) by reflexivity.
  assert (H3 : forall n, always n = true) by reflexivity.
  assert (H4 : ptr (statementBuffer (str "return ( x+1 )")) < size_t_max) by reflexivity.
  split; [exact H1|]. split; [exact H2|]. split; [exact H3|]. split; [exact H4|].
  exact (proj1 (return_parentheses always) _ 0 H1 H2 H3 H4).
Defined.

(** C5 as the spec words it does not hold.  In [return (a));] the expression
    has one opening parenthesis, at its start, and the parenthesis that
    matches it is not its last character: under the condition of the spec
    nothing would be stripped, and [parseStatement] records [a)].  The same
    happens in a function that compiles, where the statement holds a line
    comment that ends with a closing parenthesis: its [@retval] line reads
    [a) // x]. *)
Lemma return_strips_unmatched_parenthesis :
  wrappedMatching (str "(a))") = false
  /\ matchedReturnText (str " (a))") = str "(a))"
  /\ retvals (parseStatement always (statementBuffer (str "return (a))")))
     = [Some (str "a)" ++ [NUL])]
  /\ retvals (parseStatement always (statementBuffer (str "return (a))")))
     <> [Some (matchedReturnText (str " (a))") ++ [NUL])]
  /\ wrappedMatching (str "(a) // x)") = false
  /\ sampleOutput plainOptions commentedReturn
     = file (newFileComment plainOptions always initBuffer)
       ++ NL ++ str "/**" ++ NL ++ [TAB] ++ str "Brief description needed." ++ NL ++ NL
       ++ [TAB] ++ str "Followed by a more complete description." ++ NL ++ NL
       ++ [TAB] ++ str "@param[in] " ++ [TAB] ++ str "a " ++ [TAB] ++ str "int" ++ NL ++ NL
       ++ [TAB] ++ str "@return int" ++ NL
       ++ [TAB] ++ str "@retval a) // x" ++ NL
       ++ blockCloser ++ commentedReturn.
Proof.
  split; [reflexivity|]. split; [reflexivity|]. split; [reflexivity|].
  split; [intros H; vm_compute in H; discriminate H|].
  split; [reflexivity|]. vm_compute. reflexivity.
Qed.

(** ** What the helper calls leave alone *)

Section Frames.

Variable gOptions : tAppOptions.
Variable malloc_ok : Z -> bool.

Lemma processFunction_fileComment (b : tBuffer) :
  fileComment (processFunction gOptions b) = fileComment b.
Proof.
  unfold processFunction.
  assert (H : fileComment (functionComment (functionLead b)) = fileComment b).
  { destruct (extends_functionComment (functionLead b)) as (_ & _ & _ & _ & _ & _ & _ & _ & H & _).
    rewrite H. unfold functionLead. destruct (count (description b) =? 0); reflexivity. }
  destruct (onlyPrototypes gOptions).
  - destruct (extends_fprintf (str ";" ++ NL ++ NL)
                (dumpBlock (end_ (description (functionComment (functionLead b))))
                   (end_ (arglist (functionComment (functionLead b))))
                   (functionComment (functionLead b))))
      as (_ & _ & _ & _ & _ & _ & _ & _ & E1 & _).
    destruct (extends_dumpBlock (end_ (description (functionComment (functionLead b))))
                (end_ (arglist (functionComment (functionLead b))))
                (functionComment (functionLead b)))
      as (_ & _ & _ & _ & _ & _ & _ & _ & E2 & _).
    now rewrite E1, E2.
  - destruct (extends_dumpBlock (end_ (description (functionComment (functionLead b))))
                (ptr (functionComment (functionLead b)))
                (functionComment (functionLead b)))
      as (_ & _ & _ & _ & _ & _ & _ & _ & E2 & _).
    now rewrite E2.
Qed.

Lemma flushBuffer_shape (b : tBuffer) :
  flushBuffer gOptions malloc_ok b
  = mkBuffer (file (flushBuffer gOptions malloc_ok b)) [] noRange noRange noRange noRange
             None None (fileComment b) [] [] [] (faulted (flushBuffer gOptions malloc_ok b)).
Proof.
  unfold flushBuffer, clearBuffer. cbn [file faulted]. f_equal.
  destruct (0 <? ptr b); [|reflexivity].
  destruct (fileComment b) eqn:Hf.
  - destruct (extends_processFileComment gOptions malloc_ok b)
      as (_ & _ & _ & _ & _ & _ & _ & _ & H & _). now rewrite H.
  - destruct ((count (function b) =? 1) && (count (arglist b) =? 1) && (count (body b) =? 1)).
    + now rewrite processFunction_fileComment.
    + destruct (negb (onlyPrototypes gOptions)); cbn; assumption.
Qed.

Lemma parseComment_shape (b : tBuffer) :
  parseComment malloc_ok b
  = mkBuffer (file b) (data b) (function b) (arglist b) (body b) (description b)
             None (statementStart b) (fileComment b)
             (todos (parseComment malloc_ok b)) (notes (parseComment malloc_ok b)) (retvals b)
             (faulted (parseComment malloc_ok b)).
Proof.
  unfold parseComment. destruct b as [f d fn al bd ds cs ss fc td nt rv ft].
  cbn [commentStart data].
  destruct cs as [cs|]; [|reflexivity].
  repeat match goal with |- context [strncasecmp0 ?a ?b ?c] => destruct (strncasecmp0 a b c) end;
    try reflexivity;
    match goal with |- context [addString' ?m ?l ?a ?b ?c] => destruct (addString' m l a b c) end;
    reflexivity.
Qed.

Lemma parseStatement_shape (b : tBuffer) :
  parseStatement malloc_ok b
  = mkBuffer (file b) (data b) (function b) (arglist b) (body b) (description b)
             (commentStart b) None (fileComment b)
             (todos b) (notes b) (retvals (parseStatement malloc_ok b))
             (faulted (parseStatement malloc_ok b)).
Proof.
  unfold parseStatement. destruct b as [f d fn al bd ds cs ss fc td nt rv ft].
  cbn [statementStart data].
  destruct ss as [ss|]; [|reflexivity].
  destruct (strncmp0 d ss (str "return")); [|reflexivity].
  match goal with |- context [returnValue ?a ?b ?c] => destruct (returnValue a b c) end.
  match goal with |- context [addString' ?m ?l ?a ?b ?c] => destruct (addString' m l a b c) end;
    reflexivity.
Qed.

Lemma appended_refl b : appended b b.
Proof. exists []. destruct b. unfold set_file. cbn. now rewrite app_nil_r. Qed.

Lemma appended_trans b1 b2 b3 : appended b1 b2 -> appended b2 b3 -> appended b1 b3.
Proof.
  intros [w1 ->] [w2 ->]. exists (w1 ++ w2). unfold set_file. cbn. now rewrite app_assoc.
Qed.

Lemma appended_fprintf s b : appended b (fprintf s b).
Proof. now exists s. Qed.

Lemma appended_processBoilerplate b : appended b (processBoilerplate gOptions malloc_ok b).
Proof.
  unfold processBoilerplate.
  destruct (boilerplate gOptions); [destruct (malloc_ok 32768)|];
    first [apply appended_fprintf | apply appended_refl].
Qed.

Lemma appended_newFileComment b : appended b (newFileComment gOptions malloc_ok b).
Proof.
  unfold newFileComment.
  eapply appended_trans; [|apply appended_fprintf].
  eapply appended_trans; [|apply appended_fprintf].
  eapply appended_trans; [|apply appended_processBoilerplate].
  eapply appended_trans; [|apply appended_fprintf].
  apply appended_fprintf.
Qed.

Lemma newFileComment_shape (b : tBuffer) :
  newFileComment gOptions malloc_ok b
  = set_file (file (newFileComment gOptions malloc_ok b)) b.
Proof.
  destruct (appended_newFileComment b) as [w Hw]. rewrite Hw at 1. now rewrite Hw.
Qed.

Lemma flushBuffer_fields (b : tBuffer) :
  data (flushBuffer gOptions malloc_ok b) = []
  /\ function (flushBuffer gOptions malloc_ok b) = noRange
  /\ arglist (flushBuffer gOptions malloc_ok b) = noRange
  /\ body (flushBuffer gOptions malloc_ok b) = noRange
  /\ description (flushBuffer gOptions malloc_ok b) = noRange
  /\ fileComment (flushBuffer gOptions malloc_ok b) = fileComment b.
Proof. rewrite flushBuffer_shape. repeat split. Qed.

Lemma parseComment_fields (b : tBuffer) :
  file (parseComment malloc_ok b) = file b
  /\ data (parseComment malloc_ok b) = data b
  /\ function (parseComment malloc_ok b) = function b
  /\ arglist (parseComment malloc_ok b) = arglist b
  /\ body (parseComment malloc_ok b) = body b
  /\ description (parseComment malloc_ok b) = description b
  /\ fileComment (parseComment malloc_ok b) = fileComment b.
Proof. rewrite parseComment_shape. repeat split. Qed.

Lemma parseStatement_fields (b : tBuffer) :
  file (parseStatement malloc_ok b) = file b
  /\ data (parseStatement malloc_ok b) = data b
  /\ function (parseStatement malloc_ok b) = function b
  /\ arglist (parseStatement malloc_ok b) = arglist b
  /\ body (parseStatement malloc_ok b) = body b
  /\ description (parseStatement malloc_ok b) = description b
  /\ fileComment (parseStatement malloc_ok b) = fileComment b.
Proof. rewrite parseStatement_shape. repeat split. Qed.

Lemma newFileComment_fields (b : tBuffer) :
  data (newFileComment gOptions malloc_ok b) = data b
  /\ function (newFileComment gOptions malloc_ok b) = function b
  /\ arglist (newFileComment gOptions malloc_ok b) = arglist b
  /\ body (newFileComment gOptions malloc_ok b) = body b
  /\ description (newFileComment gOptions malloc_ok b) = description b
  /\ fileComment (newFileComment gOptions malloc_ok b) = fileComment b.
Proof. rewrite newFileComment_shape. repeat split. Qed.

End Frames.

(** ** The invariants of the loop *)

Ltac break_if :=
  match goal with
  | |- context [if ?c then _ else _] => destruct c eqn:?
  end.

Ltac state_simpl :=
  cbn [buf prevc depthCurly depthRound inComment inCppComment inPreprocessor
       inSingleQuotes inDoubleQuotes inBetween isLiteral isChar1 atStart doFlush
       set_buf set_prevc set_depthCurly set_depthRound set_inComment set_inCppComment
       set_inPreprocessor set_inSingleQuotes set_inDoubleQuotes set_inBetween
       set_isLiteral set_isChar1 set_atStart set_doFlush on_buf
       file data function arglist body description commentStart statementStart
       fileComment todos notes retvals
       set_file set_data set_function set_arglist set_body set_description
       set_commentStart set_statementStart set_fileComment set_todos set_notes set_retvals
       faulted set_faulted
       start end_ count set_start set_end set_count closeDescription noRange
       emitChar fst snd negb andb orb] in *.

(** A whitespace character is none of the characters the machine acts on. *)
Ltac not_space :=
  match goal with
  | H : (?c =? ?k)%char = true, Hs : isspace ?c = true |- _ =>
    apply Ascii.eqb_eq in H; subst c; vm_compute in Hs; discriminate Hs
  end.

Ltac bool_hyps :=
  repeat match goal with
  | H : _ && _ = true |- _ => apply andb_prop in H; destruct H
  | H : _ || _ = false |- _ => apply orb_false_elim in H; destruct H
  | H : negb _ = true |- _ => apply negb_true_iff in H
  | H : negb _ = false |- _ => apply negb_false_iff in H
  | H : Z.eqb _ _ = true |- _ => apply Z.eqb_eq in H
  | H : Z.eqb _ _ = false |- _ => apply Z.eqb_neq in H
  | H : true = true |- _ => clear H
  | H : false = false |- _ => clear H
  | H : true = false |- _ => discriminate H
  | H : false = true |- _ => discriminate H
  end.

Section Invariants.

Variable gOptions : tAppOptions.
Variable malloc_ok : Z -> bool.
Variable capacity : Z.

Lemma data_flushBuffer b : data (flushBuffer gOptions malloc_ok b) = [].
Proof. apply flushBuffer_fields. Qed.
Lemma function_flushBuffer b : function (flushBuffer gOptions malloc_ok b) = noRange.
Proof. apply flushBuffer_fields. Qed.
Lemma arglist_flushBuffer b : arglist (flushBuffer gOptions malloc_ok b) = noRange.
Proof. apply flushBuffer_fields. Qed.
Lemma body_flushBuffer b : body (flushBuffer gOptions malloc_ok b) = noRange.
Proof. apply flushBuffer_fields. Qed.
Lemma description_flushBuffer b : description (flushBuffer gOptions malloc_ok b) = noRange.
Proof. apply flushBuffer_fields. Qed.
Lemma fileComment_flushBuffer b :
  fileComment (flushBuffer gOptions malloc_ok b) = fileComment b.
Proof. apply flushBuffer_fields. Qed.

Lemma file_parseComment b : file (parseComment malloc_ok b) = file b.
Proof. apply parseComment_fields. Qed.
Lemma file_parseStatement b : file (parseStatement malloc_ok b) = file b.
Proof. apply parseStatement_fields. Qed.
Lemma data_parseComment b : data (parseComment malloc_ok b) = data b.
Proof. apply parseComment_fields. Qed.
Lemma body_parseComment b : body (parseComment malloc_ok b) = body b.
Proof. apply parseComment_fields. Qed.
Lemma description_parseComment b : description (parseComment malloc_ok b) = description b.
Proof. apply parseComment_fields. Qed.
Lemma fileComment_parseComment b : fileComment (parseComment malloc_ok b) = fileComment b.
Proof. apply parseComment_fields. Qed.

Lemma data_parseStatement b : data (parseStatement malloc_ok b) = data b.
Proof. apply parseStatement_fields. Qed.
Lemma body_parseStatement b : body (parseStatement malloc_ok b) = body b.
Proof. apply parseStatement_fields. Qed.
Lemma description_parseStatement b :
  description (parseStatement malloc_ok b) = description b.
Proof. apply parseStatement_fields. Qed.
Lemma fileComment_parseStatement b :
  fileComment (parseStatement malloc_ok b) = fileComment b.
Proof. apply parseStatement_fields. Qed.

Lemma data_newFileComment b : data (newFileComment gOptions malloc_ok b) = data b.
Proof. apply newFileComment_fields. Qed.
Lemma body_newFileComment b : body (newFileComment gOptions malloc_ok b) = body b.
Proof. apply newFileComment_fields. Qed.
Lemma description_newFileComment b :
  description (newFileComment gOptions malloc_ok b) = description b.
Proof. apply newFileComment_fields. Qed.
Lemma fileComment_newFileComment b :
  fileComment (newFileComment gOptions malloc_ok b) = fileComment b.
Proof. apply newFileComment_fields. Qed.

End Invariants.

Create Rewrite HintDb fields.

#[local] Hint Rewrite file_parseComment file_parseStatement
  data_flushBuffer function_flushBuffer arglist_flushBuffer
  body_flushBuffer description_flushBuffer fileComment_flushBuffer
  data_parseComment body_parseComment description_parseComment fileComment_parseComment
  data_parseStatement body_parseStatement description_parseStatement
  fileComment_parseStatement
  data_newFileComment body_newFileComment description_newFileComment
  fileComment_newFileComment : fields.

Ltac unfold_machine :=
  unfold iteration, endOfTurn, flushIfDue, accumulate, store, startCheck, lex,
    lexCppComment, lexBlockComment, lexPreprocessor, lexPlain, slash, openComment.

Ltac finish_field :=
  unfold not; intros; bool_hyps; subst; state_simpl;
  try match goal with
      | H : _ ++ [_] = [] |- _ => apply app_eq_nil in H; destruct H as [_ H]; discriminate H
      end;
  rewrite ?length_app in *; cbn [length] in *;
  try solve [ lia | congruence | tauto | intuition (first [lia | congruence]) ].

Section Turns.

Variable gOptions : tAppOptions.
Variable malloc_ok : Z -> bool.
Variable capacity : Z.

Lemma accumulate_invariant (c : ascii) (nextc : option ascii) (st : tState) :
  TurnInvariant st -> FlushInvariant (accumulate gOptions malloc_ok capacity c nextc st).
Proof.
  intros [S1 S2 S3 S4 S5 S6 S7 S8 S9 S11 S12].
  destruct st as [b pc dC dR iC iCpp iP iS iD iB iL i1 aS dF].
  unfold ptr in *. state_simpl.
  destruct aS, (isspace c) eqn:Hsp.
  all: unfold_machine; state_simpl.
  all: repeat (break_if; state_simpl; try not_space).
  all: split; unfold ptr; state_simpl; autorewrite with fields; state_simpl.
  all: finish_field.
Qed.

Lemma turn_invariant (c : ascii) (nextc : option ascii) (st : tState) :
  TurnInvariant st -> TurnInvariant (iteration gOptions malloc_ok capacity c nextc st).
Proof.
  intros H. apply (accumulate_invariant c nextc) in H.
  unfold iteration.
  generalize dependent (accumulate gOptions malloc_ok capacity c nextc st).
  intros a [M1 M2 M3 M4 M5 M6 M8 M9 M11 M12].
  destruct a as [b pc dC dR iC iCpp iP iS iD iB iL i1 aS dF].
  unfold ptr in *. state_simpl.
  unfold endOfTurn, flushIfDue. state_simpl.
  repeat (break_if; state_simpl).
  all: split; unfold ptr; state_simpl; autorewrite with fields; state_simpl.
  all: finish_field.
Qed.

Lemma initState_invariant : TurnInvariant initState.
Proof. split; cbn; intros; try lia; try discriminate; auto. Qed.

(** Where a turn ends with an empty buffer, and so wherever [flushBuffer]
    is given an empty buffer, nothing is captured: the flush has nothing to
    tell apart. *)
Lemma empty_buffer_is_plain (input : list ascii) (st : tState) :
  In st (states gOptions malloc_ok capacity input initState) ->
  data (buf st) = [] -> classify (buf st) = PlainText.
Proof.
  assert (H : forall s0, TurnInvariant s0 ->
                In st (states gOptions malloc_ok capacity input s0) -> TurnInvariant st).
  { induction input as [|c rest IH]; intros s0 H0 Hin; [contradiction|].
    cbn [states] in Hin. destruct Hin as [<- | Hin].
    - now apply turn_invariant.
    - apply (IH _ (turn_invariant c (hd_error rest) s0 H0) Hin). }
  intros Hin Hd. destruct (H _ initState_invariant Hin) as [_ _ _ S4 _ _ _ _ _ _ S12].
  destruct (S12 Hd) as (Hf & Ha & Hfc).
  unfold classify. now rewrite Hfc, Hf.
Qed.

Lemma moments_invariant (input : list ascii) :
  forall st, TurnInvariant st ->
  forall m, In m (moments gOptions malloc_ok capacity input st) ->
  FlushInvariant m \/ TurnInvariant m.
Proof.
  induction input as [|c rest IH]; intros st Hst m Hm; [contradiction|].
  cbn [moments] in Hm. destruct Hm as [<- | [<- | Hm]].
  - left. now apply accumulate_invariant.
  - right. now apply turn_invariant.
  - apply (IH _ (turn_invariant c (hd_error rest) st Hst) m Hm).
Qed.

(** C4, as amended: the body and the description are captured at most once
    in an accumulation cycle, and once captured their start is not after
    their end.  (The function and arglist ranges are left out: see
    [capture_count_exceeds_one].) *)
Theorem capture_counts :
  forall (input : list ascii) (st : tState),
    In st (moments gOptions malloc_ok capacity input initState) ->
    0 <= count (body (buf st)) <= 1
    /\ 0 <= count (description (buf st)) <= 1
    /\ (count (body (buf st)) = 1 -> start (body (buf st)) <= end_ (body (buf st)))
    /\ (count (description (buf st)) = 1 ->
        start (description (buf st)) <= end_ (description (buf st))).
Proof.
  intros input st Hin.
  destruct (moments_invariant input initState initState_invariant st Hin)
    as [[M1 M2 M3 M4 M5 M6 M8 M9 M11 M12] | [S1 S2 S3 S4 S5 S6 S7 S8 S9 S11 S12]].
  - repeat split; try lia.
  - repeat split; try lia.
Qed.

End Turns.

(** C4 as it is stated fails for the function and arglist ranges.  With a
    second parenthesis pair at top level both counts reach 2 before anything
    is flushed (all fourteen characters are still in the buffer); and a
    declarator that starts after a first parenthesis gets a start behind
    its end. *)
Lemma capture_count_exceeds_one :
  option_map (fun st => (data (buf st), function (buf st), arglist (buf st)))
             (nth_error (sampleStates (str "int (*fp)(int);")) 13)
  = Some (str "int (*fp)(int)", mkRange 0 9 2, mkRange 9 14 2)
  /\ option_map (fun st => (data (buf st), function (buf st)))
                (nth_error (sampleStates (str "( x")) 2)
     = Some (str "( x", mkRange 2 0 1).
Proof. split; vm_compute; reflexivity. Qed.

Lemma capture_counts_witness :
  let st := accumulate plainOptions always 4096 "}"%char None
              (loop plainOptions always 4096 (str "f(){") initState) in
  In st (moments plainOptions always 4096 (str "f(){}") initState)
  /\ (0 <= count (body (buf st)) <= 1
      /\ 0 <= count (description (buf st)) <= 1
      /\ (count (body (buf st)) = 1 -> start (body (buf st)) <= end_ (body (buf st)))
      /\ (count (description (buf st)) = 1 ->
          start (description (buf st)) <= end_ (description (buf st)))).
Proof.
  cbv zeta.
  assert (H : In (accumulate plainOptions always 4096 "}"%char None
                    (loop plainOptions always 4096 (str "f(){") initState))
                 (moments plainOptions always 4096 (str "f(){}") initState)).
  { vm_compute. do 8 right. left. reflexivity. }
  split; [exact H | exact (capture_counts plainOptions always 4096 _ _ H)].
Defined.

(** ** Subsequences *)

Lemma Subseq_refl (A : Type) (l : list A) : Subseq l l.
Proof. induction l; [apply Subseq_nil | now apply Subseq_keep]. Qed.

Lemma Subseq_nil_l (A : Type) (l : list A) : Subseq [] l.
Proof. induction l; [apply Subseq_nil | now apply Subseq_skip]. Qed.

Lemma Subseq_nil_r (A : Type) (l : list A) : Subseq l [] -> l = [].
Proof. inversion 1; reflexivity. Qed.

Lemma Subseq_app (A : Type) (a b : list A) :
  Subseq a b -> forall c d, Subseq c d -> Subseq (a ++ c) (b ++ d).
Proof.
  induction 1 as [|x a b H IH|x a b H IH]; intros c d H2; cbn.
  - exact H2.
  - apply Subseq_skip. now apply IH.
  - apply Subseq_keep. now apply IH.
Qed.

Lemma Subseq_app_r (A : Type) (a b c : list A) : Subseq a b -> Subseq a (b ++ c).
Proof.
  intros H. rewrite <- (app_nil_r a). apply Subseq_app; [exact H | apply Subseq_nil_l].
Qed.

Lemma Subseq_app_l (A : Type) (a b c : list A) : Subseq a c -> Subseq a (b ++ c).
Proof.
  intros H. change a with ([] ++ a). apply Subseq_app; [apply Subseq_nil_l | exact H].
Qed.

Lemma Subseq_trans (A : Type) (b c : list A) :
  Subseq b c -> forall a, Subseq a b -> Subseq a c.
Proof.
  induction 1 as [|x b c Hbc IH|x b c Hbc IH]; intros a Hab.
  - exact Hab.
  - constructor. now apply IH.
  - inversion Hab; subst.
    + apply Subseq_skip. now apply IH.
    + apply Subseq_keep. now apply IH.
Qed.

Lemma Subseq_firstn (A : Type) (n : nat) (l : list A) : Subseq (firstn n l) l.
Proof.
  rewrite <- (firstn_skipn n l) at 2. apply Subseq_app_r, Subseq_refl.
Qed.

Lemma Subseq_skipn (A : Type) (n : nat) (l : list A) : Subseq (skipn n l) l.
Proof.
  rewrite <- (firstn_skipn n l) at 2. apply Subseq_app_l, Subseq_refl.
Qed.

Lemma Subseq_slice (mem : list ascii) (a b : Z) : Subseq (slice mem a b) mem.
Proof.
  unfold slice. eapply Subseq_trans; [apply Subseq_skipn | apply Subseq_firstn].
Qed.

(** Wherever the text is cut, the two slices make up the text. *)
Lemma slice_cut (mem : list ascii) (x : Z) :
  slice mem 0 x ++ slice mem x (Z.of_nat (length mem)) = mem.
Proof.
  unfold slice. cbn [Z.to_nat skipn]. rewrite Z.max_id, Z.sub_0_r.
  destruct (Z_lt_le_dec x 0) as [Hneg | Hpos].
  - replace (Z.to_nat x) with 0%nat by lia. rewrite Z.max_l by lia.
    cbn [firstn skipn app]. rewrite Z.sub_0_r, Nat2Z.id. apply firstn_all.
  - rewrite Z.max_r by lia.
    rewrite (firstn_all2 (n := Z.to_nat (Z.of_nat (length mem) - x)))
      by (rewrite length_skipn; lia).
    apply firstn_skipn.
Qed.

Lemma slice_grow (mem : list ascii) (c : ascii) (e : Z) :
  Subseq (slice mem e (Z.of_nat (length mem)))
         (slice (mem ++ [c]) e (Z.of_nat (length (mem ++ [c])))).
Proof.
  unfold slice.
  rewrite !firstn_all2 by (rewrite length_skipn; lia).
  rewrite skipn_app. apply Subseq_app_r, Subseq_refl.
Qed.

Lemma slice_snoc_end (mem : list ascii) (c : ascii) (e : Z) :
  0 <= e <= Z.of_nat (length mem) ->
  slice (mem ++ [c]) e (Z.of_nat (length (mem ++ [c])))
  = slice mem e (Z.of_nat (length mem)) ++ [c].
Proof.
  intros He. unfold slice.
  rewrite !firstn_all2 by (rewrite length_skipn; lia).
  rewrite skipn_app. f_equal.
  replace (Z.to_nat e - length mem)%nat with 0%nat by lia. reflexivity.
Qed.

(** ** Pieces *)

Lemma bytes_app (p q : list tPiece) : bytes (p ++ q) = bytes p ++ bytes q.
Proof. apply flat_map_app. Qed.

Lemma texts_app (p q : list tPiece) : texts (p ++ q) = texts p ++ texts q.
Proof. apply flat_map_app. Qed.

(** More output that is made of comment blocks and of text [t] taken from
    the next part [D] of the input. *)
Lemma Flushed_more (out F CF : list ascii) (more : list tPiece) (D CD : list ascii) :
  Flushed out F CF ->
  Forall wellFormed more -> Subseq CD (texts more) -> Subseq (texts more) D ->
  Flushed (out ++ bytes more) (F ++ D) (CF ++ CD).
Proof.
  intros (pieces & -> & Hwf & Hc & Ht) Hmore Hcd Hd.
  exists (pieces ++ more). rewrite bytes_app, texts_app. repeat split.
  - apply Forall_app. now split.
  - now apply Subseq_app.
  - now apply Subseq_app.
Qed.

Lemma blank_NL : blank NL.
Proof. repeat constructor. Qed.

Lemma blank_nil : blank [].
Proof. constructor. Qed.

(** ** What a flush writes *)

Section FlushText.

Variable gOptions : tAppOptions.
Variable malloc_ok : Z -> bool.

Lemma processBoilerplate_file (b : tBuffer) :
  exists w, file (processBoilerplate gOptions malloc_ok b) = file b ++ w.
Proof.
  destruct (appended_processBoilerplate gOptions malloc_ok b) as [w ->]. now exists w.
Qed.

Lemma processFileComment_block (b : tBuffer) :
  exists w, file (processFileComment gOptions malloc_ok b) = file b ++ w /\ commentBlock w.
Proof.
  unfold processFileComment.
  set (b1 := fprintf NL _).
  destruct (processBoilerplate_file b1) as [w Hw].
  cbn [fprintf set_file file]. rewrite Hw. unfold b1, dumpBlock. cbn [fprintf set_file file].
  match goal with |- context [slice ?d ?s ?e] => set (t := slice d s e) end.
  exists (str "/*" ++ (str "*" ++ NL ++ [TAB] ++ t ++ NL ++ w ++ NL) ++ str "*/" ++ NL).
  split.
  - rewrite <- !app_assoc. reflexivity.
  - exists [], (str "*" ++ NL ++ [TAB] ++ t ++ NL ++ w ++ NL), NL.
    repeat split; [apply blank_nil | apply blank_NL].
Qed.

Lemma newFileComment_blocks (b : tBuffer) :
  exists w1 w2,
    file (newFileComment gOptions malloc_ok b) = file b ++ w1 ++ w2
    /\ commentBlock w1 /\ commentBlock w2.
Proof.
  unfold newFileComment.
  set (b1 := fprintf (NL ++ NL ++ [TAB] ++ str "Put a description of the file here." ++ NL) _).
  destruct (processBoilerplate_file b1) as [w Hw].
  cbn [fprintf set_file file]. rewrite Hw. unfold b1. cbn [fprintf set_file file].
  set (name := match filename gOptions with Some f => f | None => str "<unknown>" end).
  exists (str "/*"
          ++ (str "*" ++ NL ++ [TAB] ++ str "@file " ++ name
              ++ NL ++ NL ++ [TAB] ++ str "Put a description of the file here." ++ NL
              ++ w ++ NL ++ [TAB]
              ++ str "@todo Edit file comment (automatically generated by insertdox)" ++ NL)
          ++ str "*/" ++ NL),
         (str "/*" ++ str " $Header$ " ++ str "*/" ++ NL ++ NL).
  split; [|split].
  - rewrite <- !app_assoc. reflexivity.
  - eexists [], _, NL. repeat split; [apply blank_nil | apply blank_NL].
  - exists [], (str " $Header$ "), (NL ++ NL).
    repeat split; [apply blank_nil | repeat constructor].
Qed.

Lemma processFunction_pieces (b : tBuffer) :
  onlyPrototypes gOptions = false ->
  exists w,
    file (processFunction gOptions b)
    = file b ++ slice (data b) 0 (descriptionStart b) ++ w
      ++ slice (data b) (descriptionEnd b) (ptr b)
    /\ commentBlock w.
Proof.
  intros Hp. rewrite processFunction_file.
  destruct (functionComment_block (functionLead b)) as [block Hb].
  pose proof (functionLead_fields b) as (_ & _ & _ & _ & _ & _ & _ & _ & Hf).
  cbv zeta in Hf. rewrite Hb, Hf. unfold afterBlock. rewrite Hp.
  exists (NL ++ str "/*" ++ (str "*" ++ block) ++ str "*/" ++ []).
  split.
  - rewrite app_nil_r, <- !app_assoc. reflexivity.
  - exists NL, (str "*" ++ block), []. repeat split; [apply blank_NL | apply blank_nil].
Qed.

(** A flush accounts for the whole buffer. *)
Lemma flush_text (b : tBuffer) (F CF CD : list ascii) :
  onlyPrototypes gOptions = false ->
  Flushed (file b) F CF ->
  Subseq CD (data b) ->
  (count (description b) = 0
   \/ (count (description b) = 1 /\ start (description b) = 0
       /\ Subseq CD (slice (data b) (end_ (description b)) (ptr b)))) ->
  (fileComment b = true -> CD = []) ->
  Flushed (file (flushBuffer gOptions malloc_ok b)) (F ++ data b) (CF ++ CD).
Proof.
  intros Hp Hfl Hcd Hdesc Hfc.
  unfold flushBuffer. cbn [clearBuffer file].
  destruct (0 <? ptr b) eqn:Hptr.
  - destruct (fileComment b) eqn:Efc.
    + (* the file header *)
      rewrite (Hfc eq_refl).
      destruct (processFileComment_block b) as (w & -> & Hw).
      replace w with (bytes [Block w]) by (cbn; apply app_nil_r).
      apply Flushed_more; try assumption.
      * repeat constructor. exact Hw.
      * apply Subseq_nil_l.
      * apply Subseq_nil_l.
    + destruct ((count (function b) =? 1) && (count (arglist b) =? 1)
                && (count (body b) =? 1)).
      * (* a function *)
        destruct (processFunction_pieces b Hp) as (w & -> & Hw).
        replace (slice (data b) 0 (descriptionStart b) ++ w
                 ++ slice (data b) (descriptionEnd b) (ptr b))
          with (bytes [Text (slice (data b) 0 (descriptionStart b)); Block w;
                       Text (slice (data b) (descriptionEnd b) (ptr b))])
          by (cbn; now rewrite app_nil_r).
        apply Flushed_more; try assumption.
        -- repeat constructor. exact Hw.
        -- cbn. rewrite app_nil_r.
           unfold descriptionStart, descriptionEnd.
           destruct Hdesc as [H0 | (H1 & Hs & Hsub)].
           ++ rewrite H0. cbn [Z.eqb]. unfold ptr. now rewrite slice_cut.
           ++ rewrite H1. cbn [Z.eqb]. now apply Subseq_app_l.
        -- cbn. rewrite app_nil_r.
           unfold descriptionStart, descriptionEnd.
           destruct Hdesc as [H0 | (H1 & Hs & Hsub)].
           ++ rewrite H0. cbn [Z.eqb]. unfold ptr. rewrite slice_cut. apply Subseq_refl.
           ++ rewrite H1, Hs. cbn [Z.eqb]. rewrite slice_nil. apply Subseq_slice.
      * (* plain text *)
        rewrite Hp. cbn [negb]. unfold dumpBlock, ptr. rewrite slice_all.
        cbn [fprintf set_file file].
        replace (data b) with (bytes [Text (data b)]) at 1 by (cbn; apply app_nil_r).
        apply Flushed_more; try assumption.
        -- repeat constructor.
        -- cbn. now rewrite app_nil_r.
        -- cbn. rewrite app_nil_r. apply Subseq_refl.
  - (* nothing to flush *)
    apply Z.ltb_ge in Hptr. unfold ptr in Hptr.
    destruct (data b); [|cbn [length] in Hptr; lia].
    apply Subseq_nil_r in Hcd. subst CD. now rewrite !app_nil_r.
Qed.

End FlushText.

(** ** What the state machine does to the text *)

Ltac fields_simpl := state_simpl; autorewrite with fields; state_simpl.

(** Premises that hold by reflexivity are used up. *)
Ltac use_hyps :=
  repeat match goal with
  | H : ?x = ?x -> _ |- _ => specialize (H eq_refl)
  | H : _ /\ _ |- _ => destruct H
  end.

Ltac atom := first [reflexivity | assumption | congruence | lia].

Section Effects.

Variable gOptions : tAppOptions.
Variable malloc_ok : Z -> bool.
Variable capacity : Z.

(** The state machine either leaves the text of the buffer alone, or it
    flushes the buffer, possibly after closing the description. *)
Lemma lex_effect (c : ascii) (nextc : option ascii) (st : tState) :
  TurnInvariant st ->
  let st' := lex gOptions malloc_ok c nextc st in
  (file (buf st') = file (buf st) /\ data (buf st') = data (buf st)
   /\ fileComment (buf st') = fileComment (buf st)
   /\ ((description (buf st') = description (buf st)
        /\ (inComment st' = true -> depthCurly st' = 0 ->
            inComment st = true /\ depthCurly st = 0))
       \/ (inComment st = true /\ depthCurly st = 0 /\ inComment st' = false)
       \/ (count (description (buf st')) = 0 /\ inComment st' = false)))
  \/ (exists b0,
        file (buf st') = file (flushBuffer gOptions malloc_ok b0)
        /\ data b0 = data (buf st) /\ file b0 = file (buf st)
        /\ fileComment b0 = fileComment (buf st)
        /\ (description b0 = description (buf st)
            \/ (count (description b0) = 1 /\ start (description b0) = 0
                /\ inComment st = true /\ depthCurly st = 0))
        /\ data (buf st') = [] /\ count (description (buf st')) = 0).
Proof.
  intros [S1 S2 S3 S4 S5 S6 S7 S8 S9 S11 S12]. cbv zeta.
  destruct st as [b pc dC dR iC iCpp iP iS iD iB iL i1 aS dF].
  unfold ptr in *. state_simpl.
  unfold_machine; state_simpl.
  repeat (break_if; state_simpl).
  all: bool_hyps; subst; use_hyps.
  all: first
    [ left; fields_simpl; split; [atom|]; split; [atom|]; split; [atom|];
      first [ left; split; [atom | intros; split; atom]
            | right; left; repeat split; atom
            | right; right; repeat split; atom ]
    | right; eexists; fields_simpl; split; [reflexivity|]; fields_simpl;
      split; [atom|]; split; [atom|]; split; [atom|];
      split; [| split; atom];
      first [ left; atom | right; repeat split; atom ] ].
Qed.

Lemma lex_atStart (c : ascii) (nextc : option ascii) (st : tState) :
  TurnInvariant st ->
  let st' := lex gOptions malloc_ok c nextc st in
  atStart st' = true -> inComment st' = true -> depthCurly st' = 0.
Proof.
  intros [S1 S2 S3 S4 S5 S6 S7 S8 S9 S11 S12]. cbv zeta.
  destruct st as [b pc dC dR iC iCpp iP iS iD iB iL i1 aS dF].
  state_simpl. unfold_machine; state_simpl.
  repeat (break_if; state_simpl).
  all: intros; bool_hyps; subst; use_hyps; atom.
Qed.

(** When the character is not part of a comment, the machine is outside
    comments, no file comment is pending, and a captured description ends
    inside the text. *)
Lemma store_conditions (c : ascii) (nextc : option ascii) (st : tState) :
  TurnInvariant st ->
  let st2 := startCheck gOptions malloc_ok c (lex gOptions malloc_ok c nextc st) in
  commentChar st st2 = true
  \/ (inComment st2 = false /\ fileComment (buf st2) = false
      /\ (count (description (buf st2)) = 1 ->
          0 <= end_ (description (buf st2)) <= ptr (buf st2))).
Proof.
  intros [S1 S2 S3 S4 S5 S6 S7 S8 S9 S11 S12]. cbv zeta. unfold commentChar.
  destruct st as [b pc dC dR iC iCpp iP iS iD iB iL i1 aS dF].
  unfold ptr in *. state_simpl.
  destruct iC, iCpp, (fileComment b) eqn:Efc.
  all: unfold_machine; state_simpl.
  all: repeat (break_if; state_simpl).
  all: bool_hyps; subst; use_hyps.
  all: first [ left; reflexivity
             | right; unfold ptr; fields_simpl; repeat split; intros; atom ].
Qed.

Lemma inComment_iteration (c : ascii) (nextc : option ascii) (st : tState) :
  inComment (iteration gOptions malloc_ok capacity c nextc st)
  = inComment (startCheck gOptions malloc_ok c (lex gOptions malloc_ok c nextc st)).
Proof.
  unfold iteration, endOfTurn, flushIfDue, accumulate, store.
  generalize (startCheck gOptions malloc_ok c (lex gOptions malloc_ok c nextc st)).
  intros s. state_simpl. repeat (break_if; state_simpl); reflexivity.
Qed.

End Effects.

(** ** The text through one turn of the loop *)

Section TextSteps.

Variable gOptions : tAppOptions.
Variable malloc_ok : Z -> bool.
Variable capacity : Z.

Hypothesis whole_text : onlyPrototypes gOptions = false.

Lemma lex_text (c : ascii) (nextc : option ascii) (st : tState) (P C : list ascii) :
  TurnInvariant st -> TextTurn st P C ->
  TextTurn (lex gOptions malloc_ok c nextc st) P C.
Proof.
  intros Hinv (CD & (F & CF & HP & HC & Hfl & Hsub & Hdesc) & Q1 & Q2).
  pose proof (lex_effect gOptions malloc_ok c nextc st Hinv) as E. cbv zeta in E.
  destruct Hinv as [S1 S2 S3 S4 S5 S6 S7 S8 S9 S11 S12].
  set (st' := lex gOptions malloc_ok c nextc st) in *.
  destruct E as [(Ef & Ed & Efc & E) | (b0 & Ef & Ed0 & Ef0 & Efc0 & Edesc & Ed & Ec)].
  - (* the text is left alone *)
    exists CD. split; [|split].
    + exists F, CF. rewrite Ef, Ed. repeat split; try assumption.
      intros Hc. destruct E as [(Esame & _) | [(Hin & Hdep & _) | (Hzero & _)]].
      * unfold ptr. rewrite Esame, Ed. apply Hdesc. now rewrite <- Esame.
      * rewrite (Q1 Hin Hdep). apply Subseq_nil_l.
      * lia.
    + intros Hin Hdep. destruct E as [(_ & Himp) | [(Hin' & Hdep' & Hout) | (_ & Hout)]].
      * destruct (Himp Hin Hdep) as [Hin' Hdep']. now apply Q1.
      * now apply Q1.
      * congruence.
    + rewrite Efc. exact Q2.
  - (* the buffer is flushed *)
    exists []. split; [|split; reflexivity].
    exists (F ++ data (buf st)), (CF ++ CD). rewrite Ed, Ec, !app_nil_r.
    repeat split; try assumption; try apply Subseq_nil_l; [|intros; lia].
    rewrite Ef, <- Ed0.
    apply flush_text; try assumption.
    + now rewrite Ef0.
    + now rewrite Ed0.
    + destruct Edesc as [Esame | (Hone & Hstart & Hin & Hdep)].
      * rewrite Esame. unfold ptr. rewrite Ed0.
        destruct S2 as [S2 | S2]; [now left | right]. repeat split; try assumption.
        now apply Hdesc.
      * right. repeat split; try assumption. rewrite (Q1 Hin Hdep). apply Subseq_nil_l.
    + rewrite Efc0. exact Q2.
Qed.

Lemma startCheck_text (c : ascii) (st : tState) (P C : list ascii) :
  (atStart st = true -> inComment st = true -> depthCurly st = 0) ->
  TextTurn st P C -> TextTurn (startCheck gOptions malloc_ok c st) P C.
Proof.
  intros Hstart (CD & (F & CF & HP & HC & Hfl & Hsub & Hdesc) & Q1 & Q2).
  unfold startCheck.
  destruct (atStart st && negb (isspace c)) eqn:Hc;
    [|exists CD; split; [exists F, CF; repeat split; assumption | split; assumption]].
  apply andb_prop in Hc as [Ha _].
  destruct st as [b pc dC dR iC iCpp iP iS iD iB iL i1 aS dF]. state_simpl.
  destruct iC.
  - (* the file starts with a comment *)
    exists CD. state_simpl. split; [|split].
    + exists F, CF. repeat split; assumption.
    + assumption.
    + intros _. apply Q1; [reflexivity | now apply Hstart].
  - (* a file comment is generated *)
    exists CD. state_simpl. split; [|split].
    + exists F, CF. rewrite newFileComment_shape. unfold ptr in *. state_simpl.
      repeat split; try assumption.
      destruct (newFileComment_blocks gOptions malloc_ok b) as (w1 & w2 & -> & Hw1 & Hw2).
      replace (w1 ++ w2) with (bytes [Block w1; Block w2]) by (cbn; now rewrite app_nil_r).
      rewrite <- (app_nil_r F), <- (app_nil_r CF).
      apply Flushed_more; try assumption.
      * repeat constructor; assumption.
      * apply Subseq_nil.
      * apply Subseq_nil.
    + assumption.
    + rewrite fileComment_newFileComment. assumption.
Qed.

Lemma store_text (c : ascii) (m : bool) (st : tState) (P C : list ascii) :
  m = true
  \/ (inComment st = false /\ fileComment (buf st) = false
      /\ (count (description (buf st)) = 1 ->
          0 <= end_ (description (buf st)) <= ptr (buf st))) ->
  TextTurn st P C ->
  TextTurn (store capacity c st) (P ++ [c]) (C ++ (if m then [] else [c])).
Proof.
  intros Hm (CD & (F & CF & HP & HC & Hfl & Hsub & Hdesc) & Q1 & Q2).
  assert (Hbuf : buf (store capacity c st) = set_data (data (buf st) ++ [c]) (buf st)).
  { unfold store. state_simpl. break_if; reflexivity. }
  assert (Hin : inComment (store capacity c st) = inComment st).
  { unfold store. state_simpl. break_if; reflexivity. }
  assert (Hdep : depthCurly (store capacity c st) = depthCurly st).
  { unfold store. state_simpl. break_if; reflexivity. }
  exists (CD ++ (if m then [] else [c])).
  rewrite Hbuf, Hin, Hdep. split; [|split].
  - exists F, CF. unfold ptr. state_simpl. repeat split.
    + rewrite HP. now rewrite app_assoc.
    + rewrite HC. now rewrite app_assoc.
    + assumption.
    + apply Subseq_app; [assumption|]. destruct m; [apply Subseq_nil_l | apply Subseq_refl].
    + intros Hc. specialize (Hdesc Hc). unfold ptr in Hdesc.
      destruct m.
      * rewrite app_nil_r. eapply Subseq_trans; [apply slice_grow | exact Hdesc].
      * destruct Hm as [Hm | (_ & _ & Hend)]; [discriminate|].
        rewrite slice_snoc_end by (apply Hend; exact Hc).
        apply Subseq_app; [exact Hdesc | apply Subseq_refl].
  - intros Hi Hd. destruct m.
    + rewrite app_nil_r. now apply Q1.
    + destruct Hm as [Hm | (Hout & _)]; [discriminate | congruence].
  - intros Hf. state_simpl. destruct m.
    + rewrite app_nil_r. now apply Q2.
    + destruct Hm as [Hm | (_ & Hnf & _)]; [discriminate | congruence].
Qed.

Lemma flushIfDue_text (st : tState) (P C : list ascii) :
  count (description (buf st)) = 0
  \/ (count (description (buf st)) = 1 /\ start (description (buf st)) = 0) ->
  TextTurn st P C -> TextTurn (flushIfDue gOptions malloc_ok st) P C.
Proof.
  intros Hd (CD & (F & CF & HP & HC & Hfl & Hsub & Hdesc) & Q1 & Q2).
  unfold flushIfDue. destruct (doFlush st);
    [|exists CD; split; [exists F, CF; repeat split; assumption | split; assumption]].
  exists []. split; [|split; reflexivity].
  exists (F ++ data (buf st)), (CF ++ CD). unfold ptr. state_simpl.
  rewrite data_flushBuffer, description_flushBuffer, !app_nil_r. state_simpl.
  repeat split; try assumption; try apply Subseq_nil_l; [|intros; lia].
  apply flush_text; try assumption.
  destruct Hd as [H0 | (H1 & Hs)]; [now left | right]. repeat split; try assumption.
  now apply Hdesc.
Qed.

Lemma endOfTurn_text (c : ascii) (st : tState) (P C : list ascii) :
  TextTurn st P C -> TextTurn (endOfTurn c st) P C.
Proof.
  intros H. unfold endOfTurn. destruct (isChar1 st && negb (isspace c)); exact H.
Qed.

(** One turn of the loop accounts for its character. *)
Lemma turn_text (c : ascii) (nextc : option ascii) (st : tState) (P C : list ascii) :
  TurnInvariant st -> TextTurn st P C ->
  let st' := iteration gOptions malloc_ok capacity c nextc st in
  TextTurn st' (P ++ [c]) (C ++ (if commentChar st st' then [] else [c])).
Proof.
  intros Hinv Htext. cbv zeta.
  assert (Hmask : commentChar st (iteration gOptions malloc_ok capacity c nextc st)
                  = commentChar st (startCheck gOptions malloc_ok c
                                      (lex gOptions malloc_ok c nextc st))).
  { unfold commentChar. now rewrite inComment_iteration. }
  rewrite Hmask. unfold iteration, accumulate.
  apply endOfTurn_text.
  pose proof (accumulate_invariant gOptions malloc_ok capacity c nextc st Hinv) as Hacc.
  unfold accumulate in Hacc.
  apply flushIfDue_text.
  - destruct Hacc as [_ M2 _ _ M5 _ _ _ _ _].
    destruct M2 as [M2 | M2]; [now left | right; now split].
  - apply store_text.
    + apply store_conditions. exact Hinv.
    + apply startCheck_text.
      * apply lex_atStart. exact Hinv.
      * apply lex_text; assumption.
Qed.

Lemma loop_text (input : list ascii) :
  forall (st : tState) (P C : list ascii),
    TurnInvariant st -> TextTurn st P C ->
    TextTurn (loop gOptions malloc_ok capacity input st)
             (P ++ input) (C ++ codeText gOptions malloc_ok capacity input st).
Proof.
  induction input as [|c rest IH]; intros st P C Hinv Htext; cbn [loop codeText].
  - now rewrite !app_nil_r.
  - replace (P ++ c :: rest) with ((P ++ [c]) ++ rest) by (now rewrite <- app_assoc).
    rewrite app_assoc. apply IH.
    + apply turn_invariant. exact Hinv.
    + apply (turn_text c (hd_error rest) st P C Hinv Htext).
Qed.

Lemma loop_invariant (input : list ascii) :
  forall st, TurnInvariant st ->
  TurnInvariant (loop gOptions malloc_ok capacity input st).
Proof.
  induction input as [|c rest IH]; intros st Hinv; cbn [loop]; [exact Hinv|].
  apply IH, turn_invariant, Hinv.
Qed.

Lemma initState_text : TextTurn initState [] [].
Proof.
  exists []. split; [|split; reflexivity].
  exists [], []. repeat split; try apply Subseq_nil.
  - exists []. repeat split; try apply Subseq_nil. constructor.
  - intros H. discriminate H.
Qed.

End TextSteps.

(** ** Content preservation *)

(** Content preservation, for the runs that return.  With prototype-only
    mode off, the output of [processFile] is a sequence of pieces, each
    either text or a comment block that the program wrote; the text pieces,
    in their order, are taken from the input in its order, and they hold
    every character of the input that the machine reads outside comments.
    So the code of the input goes through byte for byte and in order,
    interrupted only by comment blocks, and the only input that does not go
    through unchanged is text of comments. *)
Theorem content_preserved :
  forall (gOptions : tAppOptions) (malloc_ok : Z -> bool) (capacity sizeof_tBuffer : Z)
         (input out : list ascii),
    onlyPrototypes gOptions = false ->
    processFile gOptions malloc_ok capacity sizeof_tBuffer input = Some (0, out) ->
    exists pieces : list tPiece,
      out = bytes pieces
      /\ Forall wellFormed pieces
      /\ Subseq (codeText gOptions malloc_ok capacity input initState) (texts pieces)
      /\ Subseq (texts pieces) input.
Proof.
  intros gOptions malloc_ok capacity sizeof_tBuffer input out Hp Hrun.
  unfold processFile in Hrun.
  destruct (malloc_ok sizeof_tBuffer); [|discriminate Hrun].
  cbv zeta in Hrun.
  destruct (faulted (flushBuffer gOptions malloc_ok
                       (buf (loop gOptions malloc_ok capacity input initState))));
    [discriminate Hrun|].
  injection Hrun as <-.
  pose proof (loop_text gOptions malloc_ok capacity Hp input initState [] []
                initState_invariant initState_text) as Htext.
  pose proof (loop_invariant gOptions malloc_ok capacity input initState
                initState_invariant) as [_ S2 _ _ S5 _ _ _ _ _ _].
  cbn [app] in Htext.
  destruct Htext as (CD & (F & CF & HP & HC & Hfl & Hsub & Hdesc) & _ & Q2).
  set (b := buf (loop gOptions malloc_ok capacity input initState)) in *.
  assert (H : Flushed (file (flushBuffer gOptions malloc_ok b)) (F ++ data b) (CF ++ CD)).
  { apply flush_text; try assumption.
    destruct S2 as [S2 | S2]; [now left | right]. repeat split; try assumption.
    now apply Hdesc. }
  rewrite <- HP, <- HC in H. exact H.
Qed.

Lemma content_preserved_witness :
  let input := str "int add(int a, int b) { return a+b; }" in
  let out := sampleOutput plainOptions input in
  onlyPrototypes plainOptions = false
  /\ processFile plainOptions always 4096 4096 input = Some (0, out)
  /\ exists pieces : list tPiece,
       out = bytes pieces
       /\ Forall wellFormed pieces
       /\ Subseq (codeText plainOptions always 4096 input initState) (texts pieces)
       /\ Subseq (texts pieces) input.
Proof.
  cbv zeta.
  assert (H1 : onlyPrototypes plainOptions = false) by reflexivity.
  assert (H2 : processFile plainOptions always 4096 4096
                 (str "int add(int a, int b) { return a+b; }")
               = Some (0, sampleOutput plainOptions
                            (str "int add(int a, int b) { return a+b; }")))
    by (vm_compute; reflexivity).
  split; [exact H1|]. split; [exact H2|].
  exact (content_preserved plainOptions always 4096 4096 _ _ H1 H2).
Defined.

(** What the machine reads as code in a small file: the comments are left
    out, the line ends after them are not. *)
Example codeText_sample :
  codeText plainOptions always 4096
    (str "/* header */" ++ [LF] ++ str "int x; // count" ++ [LF]
     ++ str "int f(){ /* todo: all of it */ }" ++ [LF]) initState
  = [LF] ++ str "int x; " ++ [LF] ++ str "int f(){  }" ++ [LF].
Proof. vm_compute. reflexivity. Qed.

(** The function of the spec's example: a generated header, a generated
    comment block with two [in] parameters, the return type and value and the
    standing reminder, and then the function as it was. *)
Example add_sample :
  sampleOutput plainOptions (str "int add(int a, int b) { return a+b; }")
  = file (newFileComment plainOptions always initBuffer)
    ++ NL ++ str "/**" ++ NL ++ [TAB] ++ str "Brief description needed." ++ NL ++ NL
    ++ [TAB] ++ str "Followed by a more complete description." ++ NL
    ++ NL ++ [TAB] ++ str "@param[in] " ++ [TAB] ++ str "a " ++ [TAB] ++ str "int"
    ++ NL ++ [TAB] ++ str "@param[in] " ++ [TAB] ++ str "b " ++ [TAB] ++ str "int" ++ NL
    ++ NL ++ [TAB] ++ str "@return int"
    ++ NL ++ [TAB] ++ str "@retval a+b" ++ NL
    ++ blockCloser
    ++ str "int add(int a, int b) { return a+b; }".
Proof. vm_compute. reflexivity. Qed.

(** ** A comment that ends the run *)

(** C1: the run does not get to write the text of every input.  In a
    function body, a comment that holds nothing but [todo] makes
    [parseComment] hand [addString] a range that ends one character before
    it starts; the length wraps around to [SIZE_MAX], the string is
    allocated with [malloc(0)], and copying [SIZE_MAX] bytes into it is an
    invalid memory access.  The run is over before the function is ever
    written.  ([content_preserved] is what holds of the runs that
    return.) *)
Theorem todo_comment_ends_run :
  let input := str "void f(void) { /* todo */ }" in
  processFile plainOptions always 4096 4096 input = None
  /\ option_map (fun st => (commentStart (buf st), data (buf st)))
                (nth_error (sampleStates input) 23)
     = Some (Some 15, str "void f(void) { /* todo *")
  /\ skipPunct (str "void f(void) { /* todo *") 22 24 = 24
  /\ trimComment (str "void f(void) { /* todo *") 24 22 = 23
  /\ addString true true [] (str "void f(void) { /* todo *") 24 23 = None.
Proof. cbv zeta. repeat split; vm_compute; reflexivity. Qed.
(** * Properties of the rest of the sources *)

(** ** stringutils.c *)

(** X1: [skipSpace], [skipComment] and [skipPunct] return the first position
    from [ptr] on whose character is not of their kind, and [end_] when
    there is none before it: every character passed over is of the kind, and
    the result never lies outside [ptr, end_]. *)
Theorem skip_stops_at_first_other :
  forall (mem : list ascii) (ptr end_ : Z),
    ptr <= end_ ->
    firstOutside isspace mem ptr end_ (skipSpace mem ptr end_)
    /\ firstOutside iscommentpunct mem ptr end_ (skipComment mem ptr end_)
    /\ firstOutside ispunctspace mem ptr end_ (skipPunct mem ptr end_).
Proof.
  intros mem p e Hpe.
  unfold firstOutside, skipSpace, skipComment, skipPunct, ispunctspace.
  repeat split;
    match goal with
    | |- context [scan_fwd ?f mem ?n p] =>
      pose proof (scan_fwd_spec f mem n p) as (H1 & H2 & H3); cbv zeta in *;
      rewrite Z2Nat.id in * by lia
    end; try lia;
    first [ exact H2 | intros Hr; apply H3; lia ].
Qed.

Lemma skip_stops_at_first_other_witness :
  0 <= 6
  /\ firstOutside isspace (str "  x y ") 0 6 (skipSpace (str "  x y ") 0 6)
  /\ skipSpace (str "  x y ") 0 6 = 2.
Proof.
  assert (H : 0 <= 6) by lia.
  split; [exact H|].
  split; [exact (proj1 (skip_stops_at_first_other (str "  x y ") 0 6 H)) | reflexivity].
Defined.

(** X2: [trimSpace] and [trimComment], called with [start] before [ptr],
    return a position after [start]: the characters from there to [ptr] are
    all of their kind, the one before it is not, unless the result is
    [start + 1].  The character at [start] itself is never looked at, so a
    range of nothing but blanks is trimmed to its first character, not to
    nothing. *)
Theorem trim_keeps_first_character :
  forall (mem : list ascii) (ptr start : Z),
    start < ptr ->
    lastOutside isspace mem ptr start (trimSpace mem ptr start)
    /\ lastOutside iscommentpunct mem ptr start (trimComment mem ptr start).
Proof.
  intros mem p s Hsp. unfold lastOutside, trimSpace, trimComment.
  repeat split;
    match goal with
    | |- context [scan_bwd ?f mem ?n (p - 1)] =>
      pose proof (scan_bwd_spec f mem n (p - 1)) as (H1 & H2 & H3); cbv zeta in *;
      rewrite Z2Nat.id in * by lia;
      set (r := scan_bwd f mem n (p - 1)) in *
    end; try lia.
  - intros i Hi. apply H2. lia.
  - intros Hr. replace (r + 1 - 1) with r by lia. apply H3. lia.
  - intros i Hi. apply H2. lia.
  - intros Hr. replace (r + 1 - 1) with r by lia. apply H3. lia.
Qed.

Lemma trim_keeps_first_character_witness :
  0 < 3
  /\ lastOutside isspace (str "   ") 3 0 (trimSpace (str "   ") 3 0)
  /\ trimSpace (str "   ") 3 0 = 1.
Proof.
  assert (H : 0 < 3) by lia.
  split; [exact H|].
  split; [exact (proj1 (trim_keeps_first_character (str "   ") 3 0 H)) | reflexivity].
Defined.

Lemma strrchr_spec (c : ascii) (s : list ascii) :
  match strrchr s c with
  | Some i => (i < length s)%nat /\ nth i s NUL = c /\ ~ In c (skipn (S i) s)
  | None => ~ In c s
  end.
Proof.
  induction s as [|x rest IH]; cbn [strrchr]; [intros []|].
  destruct (strrchr rest c) as [i|].
  - destruct IH as (H1 & H2 & H3). cbn [length nth skipn]. repeat split; [lia | exact H2 | exact H3].
  - destruct (x =? c)%char eqn:E.
    + apply Ascii.eqb_eq in E. subst x. cbn. repeat split; [lia | exact IH].
    + apply Ascii.eqb_neq in E. intros [H | H]; [contradiction | exact (IH H)].
Qed.

(** X3: [filenameFromPath] cuts a path after its last separator: the path is
    a directory part, empty or ending in the separator, followed by the
    result, and the result holds no separator.  A path without a separator
    is returned whole, so the function applied to its own result changes
    nothing; NULL gives NULL. *)
Theorem filenameFromPath_splits :
  forall path : list ascii,
    exists dir name,
      filenameFromPath (Some path) = Some name
      /\ path = dir ++ name
      /\ ~ In qOSPathSeparator name
      /\ (dir = [] \/ exists d, dir = d ++ [qOSPathSeparator])
      /\ filenameFromPath (Some name) = Some name.
Proof.
  intros path. unfold filenameFromPath.
  pose proof (strrchr_spec qOSPathSeparator path) as H.
  destruct (strrchr path qOSPathSeparator) as [i|] eqn:E.
  - destruct H as (H1 & H2 & H3).
    exists (firstn (S i) path), (skipn (S i) path).
    split; [reflexivity|]. split; [now rewrite firstn_skipn|]. split; [exact H3|].
    split.
    + right. exists (firstn i path).
      rewrite <- H2. clear -H1. revert i H1.
      induction path as [|x rest IH]; intros i Hi; [cbn in Hi; lia|].
      destruct i as [|i]; [destruct rest; reflexivity|].
      cbn [length] in Hi. cbn [nth]. rewrite !firstn_cons. cbn [app].
      f_equal. apply IH. lia.
    + pose proof (strrchr_spec qOSPathSeparator (skipn (S i) path)) as H'.
      destruct (strrchr (skipn (S i) path) qOSPathSeparator) as [j|]; [|reflexivity].
      destruct H' as (J1 & J2 & _). exfalso. apply H3. rewrite <- J2. now apply nth_In.
  - exists [], path. rewrite E. repeat split; auto.
Qed.

Lemma c_str_terminated (t : list ascii) : c_str (t ++ [NUL]) = c_str t.
Proof.
  induction t as [|c t IH]; [reflexivity|].
  cbn [app c_str]. destruct (c =? NUL)%char; [reflexivity | now rewrite IH].
Qed.

(** X4: what [addString] stores, [dumpStringList] prints first: after a
    successful [addString] of the range [start, end_) the dump is a line
    with the prefix and the bytes of the range up to their first NUL,
    followed by the dump of the list as it was.  Entries therefore come out
    latest first. *)
Theorem dump_after_add :
  forall (sl sl' : tStringList) (mem prefix : list ascii) (start end_ : Z),
    0 <= start <= end_ -> end_ <= Z.of_nat (length mem) ->
    Z.of_nat (length mem) < size_t_max ->
    addString true true sl mem start end_ = Some sl' ->
    dumpStringList sl' prefix
    = NL ++ prefix ++ c_str (slice mem start end_) ++ dumpStringList sl prefix.
Proof.
  intros sl sl' mem prefix s e Hs He Hm Hadd. unfold addString in Hadd.
  replace (e <? s) with false in Hadd by (symmetry; apply Z.ltb_ge; lia).
  injection Hadd as <-. cbn [dumpStringList].
  rewrite Z.mod_small by lia. rewrite memread_slice by lia.
  replace (s + Z.of_nat (Z.to_nat (e - s))) with e by lia.
  now rewrite c_str_terminated.
Qed.

Lemma dump_after_add_witness :
  dumpStringList [Some (str "x" ++ [NUL])] (str "@retval ")
  = NL ++ str "@retval " ++ c_str (slice (str "return x;") 7 8) ++ dumpStringList [] (str "@retval ").
Proof.
  apply (dump_after_add [] [Some (str "x" ++ [NUL])] (str "return x;") (str "@retval ") 7 8).
  - lia.
  - cbn; lia.
  - cbn; lia.
  - reflexivity.
Defined.

(** ** Comment text *)

Lemma dropWhile_all (f : ascii -> bool) (A X : list ascii) :
  Forall (fun c => f c = true) A -> dropWhile f (A ++ X) = dropWhile f X.
Proof.
  induction 1 as [|c A Hc _ IH]; [reflexivity|]. cbn. now rewrite Hc.
Qed.

Lemma strip_middle (f g : ascii -> bool) (A B C : list ascii) (x y : ascii)
    (B1 B2 : list ascii) :
  Forall (fun c => f c = true) A ->
  Forall (fun c => g c = true) C ->
  B = x :: B1 -> B = B2 ++ [y] -> f x = false -> g y = false ->
  strip f g (A ++ B ++ C) = B.
Proof.
  intros HA HC Hx Hy Ex Ey. unfold strip.
  rewrite dropWhile_all by assumption.
  assert (H1 : dropWhile f (B ++ C) = B ++ C) by (rewrite Hx; cbn; now rewrite Ex).
  rewrite H1, rev_app_distr.
  rewrite dropWhile_all by (apply Forall_rev; assumption).
  rewrite Hy at 1. rewrite rev_app_distr. cbn. rewrite Ey.
  change (y :: rev B2) with (rev [y] ++ rev B2).
  rewrite <- rev_app_distr, rev_involutive. now symmetry.
Qed.

Lemma strip_all (f g : ascii -> bool) (A : list ascii) :
  Forall (fun c => f c = true) A -> strip f g A = [].
Proof.
  intros H. unfold strip. rewrite <- (app_nil_r A). now rewrite dropWhile_all.
Qed.

Lemma slice_empty (mem : list ascii) (a b : Z) : b <= a -> slice mem a b = [].
Proof.
  intros H. unfold slice. replace (Z.to_nat (b - Z.max 0 a)) with 0%nat by lia. reflexivity.
Qed.

(** A forward scan from [a] and a backward scan from [b] that may not pass
    [q], somewhere between [a] and the end of the forward scan, leave the
    range of the stripped characters. *)
Lemma strip_range (f g : ascii -> bool) (mem : list ascii) (a q b : Z) :
  (forall c, g c = true -> f c = true) ->
  0 <= a <= b -> b <= Z.of_nat (length mem) ->
  let s := scan_fwd f mem (Z.to_nat (b - a)) a in
  let e := scan_bwd g mem (Z.to_nat (b - 1 - q)) (b - 1) + 1 in
  a <= q <= s ->
  slice mem s e = strip f g (slice mem a b)
  /\ (s < b -> s < e <= b /\ f (peek mem s) = false /\ g (peek mem (e - 1)) = false)
  /\ (s = b -> q < b -> q < e <= b).
Proof.
  intros Hgf Ha Hb. cbv zeta.
  pose proof (scan_fwd_spec f mem (Z.to_nat (b - a)) a) as (F1 & F2 & F3).
  cbv zeta in *. set (s := scan_fwd f mem (Z.to_nat (b - a)) a) in *.
  rewrite Z2Nat.id in * by lia. intros Hq.
  pose proof (scan_bwd_spec g mem (Z.to_nat (b - 1 - q)) (b - 1)) as (B1 & B2 & B3).
  cbv zeta in *.
  set (r := scan_bwd g mem (Z.to_nat (b - 1 - q)) (b - 1)) in *.
  destruct (Z.eq_dec s b) as [Hsb | Hsb].
  - (* nothing but characters in [f] *)
    split; [|split; [lia|]].
    + rewrite slice_empty by lia. symmetry. apply strip_all.
      apply slice_Forall; try lia. intros i Hi. apply F2. lia.
    + intros _ Hqb. rewrite Z2Nat.id in * by lia. lia.
  - rewrite Z2Nat.id in * by lia.
    assert (Hs : f (peek mem s) = false) by (apply F3; lia).
    assert (Hgs : g (peek mem s) = false).
    { destruct (g (peek mem s)) eqn:E; [|reflexivity]. apply Hgf in E. congruence. }
    assert (Hrs : s <= r).
    { destruct (Z_le_gt_dec s r) as [|Hlt]; [assumption|].
      rewrite B2 in Hgs by lia. discriminate. }
    assert (Hr : g (peek mem r) = false).
    { destruct (Z.eq_dec r s) as [->|]; [exact Hgs | apply B3; lia]. }
    split; [|split; [|lia]].
    + rewrite (slice_app mem a s b), (slice_app mem s (r + 1) b) by lia.
      symmetry.
      eapply (strip_middle f g _ _ _ (peek mem s) (peek mem r)).
      * apply slice_Forall; try lia. intros i Hi. apply F2. lia.
      * apply slice_Forall; try lia. intros i Hi. apply B2. lia.
      * apply slice_cons; lia.
      * rewrite slice_snoc by lia. replace (r + 1 - 1) with r by lia. reflexivity.
      * exact Hs.
      * exact Hr.
    + intros _. replace (r + 1 - 1) with r by lia. repeat split; try lia; assumption.
Qed.

Section CommentText.

Variable gOptions : tAppOptions.
Variable malloc_ok : Z -> bool.

Lemma processBoilerplate_text (b : tBuffer) :
  file (processBoilerplate gOptions malloc_ok b) = file b ++ boilerplateText gOptions malloc_ok.
Proof.
  unfold processBoilerplate, boilerplateText.
  destruct (boilerplate gOptions); [destruct (malloc_ok 32768)|];
    cbn [fprintf set_file file]; now rewrite ?app_nil_r.
Qed.

(** X5: [processFileComment] rewrites the comment at the head of the file as
    a Doxygen block: the opener, the text of the buffer without the comment
    punctuation and the blanks at its two ends, a line end, the boilerplate
    and the closer.  A comment of nothing but punctuation gives an empty
    block. *)
Theorem processFileComment_text :
  forall b : tBuffer,
    file (processFileComment gOptions malloc_ok b)
    = file b ++ str "/**" ++ NL ++ [TAB] ++ commentText (data b) ++ NL
      ++ boilerplateText gOptions malloc_ok ++ NL ++ str "*/" ++ NL.
Proof.
  intros b. unfold processFileComment.
  set (b1 := fprintf NL _).
  cbn [fprintf set_file file]. rewrite processBoilerplate_text.
  unfold b1, dumpBlock. cbn [fprintf set_file file data].
  unfold skipComment, trimComment, ptr.
  pose proof (strip_range iscommentpunct iscommentpunct (data b) 0
                (scan_fwd iscommentpunct (data b) (Z.to_nat (Z.of_nat (length (data b)) - 0)) 0)
                (Z.of_nat (length (data b))) (fun c H => H)
                ltac:(lia) ltac:(lia)) as H.
  cbv zeta in H.
  pose proof (scan_fwd_spec iscommentpunct (data b)
                (Z.to_nat (Z.of_nat (length (data b)) - 0)) 0) as (F1 & _).
  cbv zeta in F1. destruct (H ltac:(lia)) as (-> & _).
  rewrite slice_all. unfold commentText. now rewrite <- !app_assoc.
Qed.

(** X6: [processDescription] writes the description of a function: the text
    of the comment captured before it, without the comment punctuation and
    the blanks at its two ends, or the two placeholder lines when no comment
    was captured or nothing is left of it; then a line end. *)
Theorem processDescription_text :
  forall b : tBuffer,
    0 <= count (description b) ->
    (0 < count (description b) ->
     0 <= start (description b) <= end_ (description b)
     /\ end_ (description b) <= ptr b) ->
    let text := commentText (slice (data b) (start (description b)) (end_ (description b))) in
    file (processDescription b)
    = file b
      ++ (if (0 <? count (description b)) && negb (Nat.eqb (length text) 0)
          then text else placeholder)
      ++ NL.
Proof.
  intros b Hc Hrange. cbv zeta. unfold processDescription.
  destruct (0 <? count (description b)) eqn:Hcnt; cbn [andb].
  - apply Z.ltb_lt in Hcnt. destruct (Hrange Hcnt) as (Hs & He). unfold ptr in He.
    unfold skipComment, trimComment.
    set (a := start (description b)) in *. set (e := end_ (description b)) in *.
    pose proof (strip_range iscommentpunct iscommentpunct (data b) a
                  (scan_fwd iscommentpunct (data b) (Z.to_nat (e - a)) a) e (fun c H => H)
                  ltac:(lia) ltac:(lia)) as H.
    cbv zeta in H.
    pose proof (scan_fwd_spec iscommentpunct (data b) (Z.to_nat (e - a)) a) as (F1 & _).
    cbv zeta in F1. rewrite Z2Nat.id in F1 by lia.
    set (s := scan_fwd iscommentpunct (data b) (Z.to_nat (e - a)) a) in *.
    destruct (H ltac:(lia)) as (Hsl & Hlt & _).
    set (e' := scan_bwd iscommentpunct (data b) (Z.to_nat (e - 1 - s)) (e - 1) + 1) in *.
    fold (commentText (slice (data b) a e)) in Hsl.
    destruct (s =? e') eqn:Hse.
    + apply Z.eqb_eq in Hse.
      assert (Hnil : commentText (slice (data b) a e) = []).
      { rewrite <- Hsl. apply slice_empty. lia. }
      rewrite Hnil. cbn [length Nat.eqb negb].
      cbn [set_description set_count description count Z.eqb fprintf set_file file].
      unfold placeholder. now rewrite <- !app_assoc.
    + apply Z.eqb_neq in Hse.
      assert (Hsb : s < e).
      { destruct (Z.eq_dec s e) as [E|]; [|lia]. exfalso. apply Hse.
        unfold e'. rewrite E. replace (Z.to_nat (e - 1 - e)) with 0%nat by lia. cbn. lia. }
      destruct (Hlt Hsb) as (Hlt' & _).
      assert (Hlen : Z.of_nat (length (commentText (slice (data b) a e))) = e' - s).
      { rewrite <- Hsl. apply slice_length; lia. }
      destruct (length (commentText (slice (data b) a e))) eqn:El; [lia|].
      cbn [Nat.eqb negb]. unfold dumpBlock.
      cbn [fprintf set_file file description].
      replace (count (description b) =? 0) with false by (symmetry; apply Z.eqb_neq; lia).
      cbn [fprintf set_file file]. rewrite Hsl. now rewrite <- !app_assoc.
  - apply Z.ltb_ge in Hcnt.
    replace (count (description b) =? 0) with true by (symmetry; apply Z.eqb_eq; lia).
    cbn [fprintf set_file file]. unfold placeholder. now rewrite <- !app_assoc.
Qed.

End CommentText.

Lemma processDescription_text_witness :
  file (processDescription
          (set_description (mkRange 0 14 1) (set_data (str "/* adds one */") initBuffer)))
  = str "adds one" ++ NL.
Proof.
  apply (processDescription_text
           (set_description (mkRange 0 14 1) (set_data (str "/* adds one */") initBuffer))).
  - cbn; lia.
  - intros _. cbn; lia.
Defined.

(** ** Mining comments *)

Lemma strncasecmp0_inside (mem : list ascii) (lit : list ascii) :
  Forall (fun c => tolower c <> NUL) lit ->
  forall p, strncasecmp0 mem p lit = true ->
  lit = [] \/ (0 <= p /\ p + Z.of_nat (length lit) <= Z.of_nat (length mem)).
Proof.
  induction 1 as [|c lit Hc _ IH]; intros p Hm; [now left|]. right.
  cbn [strncasecmp0] in Hm. apply andb_prop in Hm as [H1 H2]. apply Ascii.eqb_eq in H1.
  assert (Hp : 0 <= p < Z.of_nat (length mem)).
  { unfold peek in H1. destruct (p <? 0) eqn:E.
    - exfalso. apply Hc. now rewrite <- H1.
    - apply Z.ltb_ge in E. split; [exact E|].
      destruct (Z_lt_le_dec p (Z.of_nat (length mem))) as [|Hge]; [assumption|].
      rewrite nth_overflow in H1 by lia. exfalso. apply Hc. now rewrite <- H1. }
  destruct (IH _ H2) as [-> | [_ Hl]]; cbn [length]; lia.
Qed.

Lemma keywordAt_inside (mem : list ascii) (p : Z) (k : tMined) (n : Z) :
  keywordAt mem p = Some (k, n) -> 0 <= p /\ 0 < n /\ p + n <= Z.of_nat (length mem).
Proof.
  unfold keywordAt.
  repeat match goal with
  | |- context [strncasecmp0 mem p ?lit] =>
    let E := fresh "E" in
    destruct (strncasecmp0 mem p lit) eqn:E;
    [ apply strncasecmp0_inside in E;
      [ destruct E as [E | E]; [discriminate E|]; cbn [length str list_ascii_of_string] in E;
        intros [= <- <-]; lia
      | repeat constructor; discriminate ]
    | ]
  end.
  discriminate.
Qed.

Lemma commentpunct_punctspace (c : ascii) : iscommentpunct c = true -> ispunctspace c = true.
Proof.
  unfold iscommentpunct, ispunctspace. intros H.
  apply orb_true_iff in H as [H | H].
  - apply orb_true_iff in H as [H | H].
    + now rewrite H.
    + apply Ascii.eqb_eq in H. subst c. reflexivity.
  - apply Ascii.eqb_eq in H. subst c. reflexivity.
Qed.

Section MiningComments.

Variable malloc_ok : Z -> bool.

(** X7: [parseComment] tells the kind of a comment in a function body by the
    keyword its text begins with, whatever the case of the letters: [todo],
    [fixme] and [fix-me] feed the todos, [note] and [nb] the notes.  The
    entry recorded is the remark after the keyword: no blanks or punctuation
    in front, no comment punctuation or blanks behind.  A comment without a
    keyword is not recorded, and in all cases the pending comment is
    cleared. *)
Theorem parseComment_records_remark :
  forall (b : tBuffer) (cs : Z),
    commentStart b = Some cs ->
    0 <= cs <= ptr b -> ptr b < size_t_max ->
    (forall n, malloc_ok n = true) ->
    let p := skipPunct (data b) cs (ptr b) in
    match keywordAt (data b) p with
    | None => parseComment malloc_ok b = set_commentStart None b
    | Some (k, n) =>
      let text := remark (slice (data b) (p + n) (ptr b)) in
      text <> [] ->
      parseComment malloc_ok b = set_commentStart None (noted k (Some (text ++ [NUL])) b)
    end.
Proof.
  intros b cs Hcs Hrange Hsize Hmalloc. cbv zeta.
  unfold parseComment. rewrite Hcs.
  set (mem := data b) in *. set (p := skipPunct mem cs (ptr b)).
  assert (Hmine : forall (k : tMined) (n : Z) set get,
             keywordAt mem p = Some (k, n) ->
             remark (slice mem (p + n) (ptr b)) <> [] ->
             (forall sl, set sl b = match k with Todo => set_todos sl b | Note => set_notes sl b end) ->
             get = match k with Todo => todos b | Note => notes b end ->
             mined set (addString' malloc_ok get mem (skipPunct mem (p + n) (ptr b))
                                   (trimComment mem (ptr b) (p + n))) b
             = noted k (Some (remark (slice mem (p + n) (ptr b)) ++ [NUL])) b).
  { intros k n set get Hk Htext Hset ->.
    apply keywordAt_inside in Hk as (Hp0 & Hn & Hpn).
    unfold skipPunct, trimComment, ptr in *. fold mem in Hpn, Htext, Hsize |- *.
    pose proof (strip_range ispunctspace iscommentpunct mem (p + n) (p + n)
                  (Z.of_nat (length mem)) commentpunct_punctspace
                  ltac:(lia) ltac:(lia)) as H.
    cbv zeta in H.
    pose proof (scan_fwd_spec ispunctspace mem
                  (Z.to_nat (Z.of_nat (length mem) - (p + n))) (p + n)) as (F1 & _).
    cbv zeta in F1. rewrite Z2Nat.id in F1 by lia.
    change (fun c => isspace c || ispunct c) with ispunctspace.
    set (s := scan_fwd ispunctspace mem (Z.to_nat (Z.of_nat (length mem) - (p + n))) (p + n)) in *.
    set (e := scan_bwd iscommentpunct mem
                (Z.to_nat (Z.of_nat (length mem) - 1 - (p + n))) (Z.of_nat (length mem) - 1) + 1) in *.
    destruct (H ltac:(lia)) as (Hsl & Hlt & _).
    fold (remark (slice mem (p + n) (Z.of_nat (length mem)))) in Hsl.
    assert (Hsb : s < Z.of_nat (length mem)).
    { destruct (Z.eq_dec s (Z.of_nat (length mem))) as [E|]; [|lia].
      exfalso. apply Htext. rewrite <- Hsl.
      rewrite E in *. unfold slice. rewrite firstn_all2; [|rewrite length_skipn; lia].
      apply skipn_all2. lia. }
    destruct (Hlt Hsb) as (Hse & _).
    unfold addString', addString. rewrite !Hmalloc.
    replace (e <? s) with false by (symmetry; apply Z.ltb_ge; lia).
    rewrite Z.mod_small by lia. rewrite memread_slice by lia.
    replace (s + Z.of_nat (Z.to_nat (e - s))) with e by lia.
    rewrite Hsl. unfold mined, noted. rewrite Hset. now destruct k. }
  unfold keywordAt in *. fold mem.
  destruct (strncasecmp0 mem p (str "todo")) eqn:E1.
  { intros Ht. f_equal. now apply (Hmine Todo 4). }
  destruct (strncasecmp0 mem p (str "fixme")) eqn:E2.
  { intros Ht. f_equal. now apply (Hmine Todo 5). }
  destruct (strncasecmp0 mem p (str "fix-me")) eqn:E3.
  { intros Ht. f_equal. now apply (Hmine Todo 6). }
  destruct (strncasecmp0 mem p (str "note")) eqn:E4.
  { intros Ht. f_equal. now apply (Hmine Note 4). }
  destruct (strncasecmp0 mem p (str "nb")) eqn:E5.
  { intros Ht. f_equal. now apply (Hmine Note 2). }
  reflexivity.
Qed.

End MiningComments.

Lemma parseComment_records_remark_witness :
  parseComment always (commentBuffer (str "/* TODO: check the length *"))
  = set_commentStart None
      (noted Todo (Some (str "check the length" ++ [NUL]))
             (commentBuffer (str "/* TODO: check the length *"))).
Proof.
  assert (H1 : 0 <= 0 <= ptr (commentBuffer (str "/* TODO: check the length *")))
    by (vm_compute; split; discriminate).
  assert (H2 : ptr (commentBuffer (str "/* TODO: check the length *")) < size_t_max)
    by reflexivity.
  assert (H3 : forall n, always n = true) by reflexivity.
  assert (H4 : remark (slice (str "/* TODO: check the length *") 7 27) <> [])
    by (vm_compute; discriminate).
  exact (parseComment_records_remark always
           (commentBuffer (str "/* TODO: check the length *")) 0 eq_refl H1 H2 H3 H4).
Defined.

(** ** The notes *)

Section Notes.

Variable gOptions : tAppOptions.
Variable malloc_ok : Z -> bool.
Variable sl : tStringList.

Lemma fprintf_notes s b : fprintf s (set_notes sl b) = set_notes sl (fprintf s b).
Proof. reflexivity. Qed.

Lemma dumpBlock_notes s e b : dumpBlock s e (set_notes sl b) = set_notes sl (dumpBlock s e b).
Proof. reflexivity. Qed.

Lemma processBoilerplate_notes b :
  processBoilerplate gOptions malloc_ok (set_notes sl b)
  = set_notes sl (processBoilerplate gOptions malloc_ok b).
Proof.
  unfold processBoilerplate.
  destruct (boilerplate gOptions); [destruct (malloc_ok 32768)|]; reflexivity.
Qed.

Lemma processFileComment_notes b :
  processFileComment gOptions malloc_ok (set_notes sl b)
  = set_notes sl (processFileComment gOptions malloc_ok b).
Proof.
  unfold processFileComment. cbv zeta.
  change (data (set_notes sl b)) with (data b).
  change (ptr (set_notes sl b)) with (ptr b).
  now rewrite !fprintf_notes, dumpBlock_notes, !fprintf_notes, processBoilerplate_notes,
    fprintf_notes.
Qed.

Lemma processDescription_notes b :
  processDescription (set_notes sl b) = set_notes sl (processDescription b).
Proof.
  unfold processDescription. cbv zeta.
  change (description (set_notes sl b)) with (description b).
  change (data (set_notes sl b)) with (data b).
  set (s := skipComment (data b) (start (description b)) (end_ (description b))).
  set (e := trimComment (data b) (end_ (description b)) s).
  destruct (0 <? count (description b)).
  - destruct (s =? e).
    + cbn [description set_description count set_count Z.eqb]. reflexivity.
    + rewrite dumpBlock_notes.
      change (description (set_notes sl (dumpBlock s e b))) with (description b).
      change (description (dumpBlock s e b)) with (description b).
      destruct (count (description b) =? 0); reflexivity.
  - change (description (set_notes sl b)) with (description b).
    destruct (count (description b) =? 0); reflexivity.
Qed.

Lemma paramLine_notes s p b :
  paramLine s p (set_notes sl b)
  = (set_notes sl (fst (paramLine s p b)), snd (paramLine s p b)).
Proof.
  unfold paramLine. change (data (set_notes sl b)) with (data b).
  destruct (processTyped (data b) sizeof_type s p) as [[ns ne] [[[type st] io]|]];
    [|reflexivity].
  destruct (negb (ne - ns =? 4) || negb (strncmp0 (data b) ns (str "void"))); reflexivity.
Qed.

Lemma argLoop_notes fuel :
  forall s p said b,
    argLoop fuel s p said (set_notes sl b)
    = (set_notes sl (fst (argLoop fuel s p said b)), snd (argLoop fuel s p said b)).
Proof.
  induction fuel as [|k IH]; intros s p said b; [reflexivity|].
  cbn [argLoop]. change (data (set_notes sl b)) with (data b).
  destruct ((peek (data b) p =? ",")%char || (peek (data b) p =? ")")%char).
  - rewrite paramLine_notes. destruct (paramLine s p b) as [b' said']. cbn [fst snd].
    apply IH.
  - apply IH.
Qed.

Lemma processArgList_notes b :
  processArgList (set_notes sl b) = set_notes sl (processArgList b).
Proof.
  unfold processArgList. cbv zeta.
  change (arglist (set_notes sl b)) with (arglist b).
  change (data (set_notes sl b)) with (data b).
  rewrite argLoop_notes.
  destruct (argLoop _ _ _ false b) as [b' said]. cbn [fst snd].
  destruct said; reflexivity.
Qed.

Lemma returnSection_notes type b :
  returnSection type (set_notes sl b) = set_notes sl (returnSection type b).
Proof. unfold returnSection. destruct (negb (streq type (str "void"))); reflexivity. Qed.

Lemma functionLead_notes b : functionLead (set_notes sl b) = set_notes sl (functionLead b).
Proof.
  unfold functionLead. change (description (set_notes sl b)) with (description b).
  destruct (count (description b) =? 0); reflexivity.
Qed.

Lemma commentSteps_notes (type : list ascii) (st : bool) (b : tBuffer) :
  (let b0 := fprintf (NL ++ str "/**" ++ NL
                      ++ (if st then [TAB] ++ str "@internal" ++ NL ++ NL else [])
                      ++ [TAB]) (set_notes sl b) in
   let b1 := processDescription b0 in
   let b2 := processArgList b1 in
   let b3 := returnSection type b2 in
   let b4 := fprintf (dumpStringList (todos b3) ([TAB] ++ str "@todo ")) b3 in
   fprintf (NL ++ [TAB] ++ str "@todo edit me (automatically generated by insertdox)"
            ++ NL ++ str "*/") b4)
  = set_notes sl
      (let b0 := fprintf (NL ++ str "/**" ++ NL
                          ++ (if st then [TAB] ++ str "@internal" ++ NL ++ NL else [])
                          ++ [TAB]) b in
       let b1 := processDescription b0 in
       let b2 := processArgList b1 in
       let b3 := returnSection type b2 in
       let b4 := fprintf (dumpStringList (todos b3) ([TAB] ++ str "@todo ")) b3 in
       fprintf (NL ++ [TAB] ++ str "@todo edit me (automatically generated by insertdox)"
                ++ NL ++ str "*/") b4).
Proof.
  cbv zeta.
  rewrite fprintf_notes, processDescription_notes, processArgList_notes, returnSection_notes.
  match goal with
  | |- context [returnSection ?t ?x] => generalize (returnSection t x)
  end.
  intros y. reflexivity.
Qed.

Lemma functionComment_notes b :
  functionComment (set_notes sl b) = set_notes sl (functionComment b).
Proof.
  unfold functionComment.
  change (data (set_notes sl b)) with (data b).
  change (function (set_notes sl b)) with (function b).
  destruct (snd (processTyped (data b) sizeof_type (start (function b)) (end_ (function b))))
    as [[[type st] io]|].
  - apply commentSteps_notes.
  - apply (commentSteps_notes (@nil ascii) false).
Qed.

Lemma processFunction_notes b :
  processFunction gOptions (set_notes sl b) = set_notes sl (processFunction gOptions b).
Proof.
  unfold processFunction. cbv zeta.
  rewrite functionLead_notes, functionComment_notes.
  generalize (functionComment (functionLead b)). intros y.
  destruct (onlyPrototypes gOptions); reflexivity.
Qed.

(** X8: the notes never reach the output.  [parseComment] collects the
    [note] and [nb] comments of a function body, but no rendering function
    reads the list: a flush does the same whatever the notes are. *)
Theorem notes_are_not_written :
  forall b : tBuffer,
    flushBuffer gOptions malloc_ok (set_notes sl b) = flushBuffer gOptions malloc_ok b.
Proof.
  intros b. unfold flushBuffer.
  change (ptr (set_notes sl b)) with (ptr b).
  change (fileComment (set_notes sl b)) with (fileComment b).
  change (function (set_notes sl b)) with (function b).
  change (arglist (set_notes sl b)) with (arglist b).
  change (body (set_notes sl b)) with (body b).
  destruct (0 <? ptr b); [|reflexivity].
  destruct (fileComment b).
  - rewrite processFileComment_notes.
    generalize (processFileComment gOptions malloc_ok b). intros y. reflexivity.
  - destruct ((count (function b) =? 1) && (count (arglist b) =? 1) && (count (body b) =? 1)).
    + rewrite processFunction_notes.
      generalize (processFunction gOptions b). intros y. reflexivity.
    + destruct (negb (onlyPrototypes gOptions)); reflexivity.
Qed.

End Notes.

(** ** The type classifier *)

(** X9: the name [processTyped] narrows a declarator to consists of letters,
    digits and underscores only, for any text and any range; and unless the
    name is empty, the character before it is none of these, or the name
    starts where the declarator does once the leading blanks are skipped. *)
Theorem declarator_name_is_identifier :
  forall (mem : list ascii) (n_start n_end : Z),
    let d := declarator mem n_start n_end in
    nameStart d <= nameEnd d
    /\ (forall i, nameStart d <= i < nameEnd d -> isident (peek mem i) = true)
    /\ (nameStart d < nameEnd d ->
        nameStart d = skipSpace mem n_start n_end
        \/ isident (peek mem (nameStart d - 1)) = false).
Proof.
  intros mem ns ne. cbv zeta. unfold declarator.
  set (s := skipSpace mem ns ne).
  set (e0 := trimSpace mem ne ns - 1).
  set (ae := if (peek mem e0 =? "]")%char
             then (true,
                   if s <? scan_bwd (fun c => negb (c =? "[")%char) mem (Z.to_nat (e0 - s)) (e0 - 1)
                   then scan_bwd (fun c => negb (c =? "[")%char) mem (Z.to_nat (e0 - s)) (e0 - 1) - 1
                   else scan_bwd (fun c => negb (c =? "[")%char) mem (Z.to_nat (e0 - s)) (e0 - 1))
             else (false, e0)).
  destruct ae as [isArr e].
  change (fun c => isalnum c || (c =? "_")%char) with isident.
  pose proof (scan_bwd_spec isident mem (Z.to_nat (e - s + 1)) e) as (B1 & B2 & B3).
  cbv zeta in *. set (r := scan_bwd isident mem (Z.to_nat (e - s + 1)) e) in *.
  destruct (strip_quals mem (e + 1) (S (length mem)) s false false) as [[s' st] cn].
  destruct (count_stars mem s' _ _ 0) as [e' pc].
  cbn [nameStart nameEnd].
  split; [lia|]. split.
  - intros i Hi. apply B2. lia.
  - intros Hne. destruct (Z_le_gt_dec r (s - 1)) as [Hle | Hgt].
    + left. lia.
    + right. replace (r + 1 - 1) with r by lia. apply B3. lia.
Qed.

Lemma take_upto_all (n : Z) (l : list ascii) : Z.of_nat (length l) <= n -> take_upto n l = l.
Proof.
  intros H. unfold take_upto.
  now replace (Z.of_nat (length l) <=? n) with true by (symmetry; apply Z.leb_le; lia).
Qed.

Lemma take_upto_length (n : Z) (l : list ascii) :
  0 <= n -> Z.of_nat (length (take_upto n l)) <= n.
Proof.
  intros H. unfold take_upto. destruct (Z.of_nat (length l) <=? n) eqn:E.
  - now apply Z.leb_le in E.
  - rewrite length_firstn. lia.
Qed.

Lemma add_pointers_fits (n : nat) :
  forall (type : list ascii) (remaining : Z),
    13 * Z.of_nat n <= remaining < size_t_max ->
    add_pointers n type remaining
    = (type ++ concat (repeat (str "a pointer to ") n), remaining - 13 * Z.of_nat n).
Proof.
  induction n as [|n IH]; intros type remaining H.
  - cbn. rewrite app_nil_r. f_equal. lia.
  - cbn [add_pointers]. unfold strncat at 1. rewrite take_upto_all by (cbn; lia).
    unfold size_sub. rewrite Z.mod_small by lia.
    rewrite IH by lia. cbn [repeat concat]. rewrite <- app_assoc. f_equal. lia.
Qed.

Lemma pointer_words_length (k : nat) :
  Z.of_nat (length (concat (repeat (str "a pointer to ") k))) = 13 * Z.of_nat k.
Proof.
  induction k as [|k IH]; [reflexivity|].
  cbn [repeat concat]. rewrite length_app, Nat2Z.inj_add, IH.
  change (Z.of_nat (length (str "a pointer to "))) with 13. lia.
Qed.

(** X10: [processTyped] stays inside the [type] buffer whenever the phrase is
    shorter than the buffer, counting 13 characters for each star, 12 for an
    array, 6 for [const] and the length of the base type: the phrase is then
    the pointer words, the array words, the [const] word and the base type
    in this order, complete, and with its NUL it takes no more than [size]
    bytes. *)
Theorem processTyped_fits :
  forall (mem : list ascii) (size n_start n_end : Z),
    let d := declarator mem n_start n_end in
    let base := (typeEnd d - typeStart d) mod size_t_max in
    0 <= ptrCount d -> size < size_t_max ->
    13 * ptrCount d + (if isArray d then 12 else 0) + (if isConst d then 6 else 0) + base
    < size ->
    snd (processTyped mem size n_start n_end)
    = Some (phraseWords (Z.to_nat (ptrCount d)) (isArray d) (isConst d)
            ++ take_upto base (cstr_at mem (typeStart d)),
            isStatic d, inOnly d)
    /\ bytesWritten (processTyped mem size n_start n_end) <= size.
Proof.
  intros mem size ns ne. cbv zeta.
  set (d := declarator mem ns ne).
  set (base := (typeEnd d - typeStart d) mod size_t_max).
  intros Hp Hsize Hfit.
  assert (Hbase : 0 <= base < size_t_max) by (apply Z.mod_pos_bound; reflexivity).
  assert (Hpos : 0 < size) by (destruct (isArray d), (isConst d); lia).
  unfold processTyped, bytesWritten. fold d. cbn [snd].
  replace (0 <? size) with true by (symmetry; apply Z.ltb_lt; lia).
  assert (Hphrase : typePhrase mem size d
                    = phraseWords (Z.to_nat (ptrCount d)) (isArray d) (isConst d)
                      ++ take_upto base (cstr_at mem (typeStart d))).
  { unfold typePhrase, phraseWords.
    rewrite add_pointers_fits by (destruct (isArray d), (isConst d); lia).
    rewrite Z2Nat.id by lia. cbn [app]. fold base.
    destruct (isArray d), (isConst d); unfold strncat, size_sub;
      rewrite ?Z.mod_small by lia;
      rewrite ?Z.mod_small by lia;
      rewrite ?(take_upto_all _ (str "an array of "))
        by (cbn [length str list_ascii_of_string]; lia);
      rewrite ?(take_upto_all _ (str "const "))
        by (cbn [length str list_ascii_of_string]; lia);
      match goal with
      | |- context [if ?c then _ else _] =>
        replace c with true by (symmetry; apply Z.ltb_lt; lia)
      end;
      rewrite ?app_nil_r, <- ?app_assoc; reflexivity. }
  rewrite Hphrase. split; [reflexivity|].
  rewrite length_app. unfold phraseWords. rewrite !length_app.
  pose proof (take_upto_length base (cstr_at mem (typeStart d)) ltac:(lia)) as Hl.
  assert (Hc : Z.of_nat (length (concat (repeat (str "a pointer to ") (Z.to_nat (ptrCount d)))))
               = 13 * ptrCount d).
  { rewrite pointer_words_length. lia. }
  destruct (isArray d), (isConst d); cbn [length str list_ascii_of_string] in *; lia.
Qed.

Lemma processTyped_fits_witness :
  snd (processTyped (str "const char *s") 200 0 13)
  = Some (str "a pointer to const char", false, true)
  /\ bytesWritten (processTyped (str "const char *s") 200 0 13) <= 200.
Proof.
  apply (processTyped_fits (str "const char *s") 200 0 13).
  - vm_compute. discriminate.
  - reflexivity.
  - reflexivity.
Defined.

(** ** Runs of [processFile] *)

Lemma grows_refl b : grows b b.
Proof. exists []. now rewrite app_nil_r. Qed.

Lemma grows_trans b1 b2 b3 : grows b1 b2 -> grows b2 b3 -> grows b1 b3.
Proof. intros [w1 H1] [w2 H2]. exists (w1 ++ w2). now rewrite H2, H1, app_assoc. Qed.

Lemma grows_same b b' : file b' = file b -> grows b b'.
Proof. intros H. exists []. now rewrite app_nil_r. Qed.

Lemma extends_grows b b' : extends b b' -> grows b b'.
Proof. intros (_ & _ & _ & _ & _ & _ & _ & _ & _ & _ & _ & _ & H). exact H. Qed.

Ltac setters :=
  cbv [on_buf set_buf set_prevc set_depthCurly set_depthRound set_inComment
       set_inCppComment set_inPreprocessor set_inSingleQuotes set_inDoubleQuotes
       set_inBetween set_isLiteral set_isChar1 set_atStart set_doFlush
       set_file set_data set_function set_arglist set_body set_description
       set_commentStart set_statementStart set_fileComment set_todos set_notes
       set_retvals set_faulted
       buf prevc depthCurly depthRound inComment inCppComment inPreprocessor
       inSingleQuotes inDoubleQuotes inBetween isLiteral isChar1 atStart doFlush
       file data function arglist body description commentStart statementStart
       fileComment todos notes retvals faulted
       start end_ count set_start set_end set_count closeDescription noRange
       blankState commentState emitChar fst snd negb andb orb].

Section Runs.

Variable gOptions : tAppOptions.
Variable malloc_ok : Z -> bool.
Variable capacity : Z.
Variable sizeof_tBuffer : Z.

Lemma newFileComment_file (b : tBuffer) :
  file (newFileComment gOptions malloc_ok b) = file b ++ newHeader gOptions malloc_ok.
Proof.
  unfold newFileComment. cbv zeta. cbn [fprintf set_file file].
  rewrite processBoilerplate_text. cbn [fprintf set_file file].
  unfold newHeader. now rewrite <- !app_assoc.
Qed.

Lemma flushBuffer_grows (b : tBuffer) : grows b (flushBuffer gOptions malloc_ok b).
Proof.
  unfold flushBuffer, grows. cbn [clearBuffer file].
  destruct (0 <? ptr b); [|apply grows_refl].
  destruct (fileComment b).
  - apply extends_grows, extends_processFileComment.
  - destruct ((count (function b) =? 1) && (count (arglist b) =? 1) && (count (body b) =? 1)).
    + rewrite processFunction_file.
      destruct (extends_functionComment (functionLead b))
        as (_ & _ & _ & _ & _ & _ & _ & _ & _ & _ & _ & _ & w & Hw).
      pose proof (functionLead_fields b) as (_ & _ & _ & _ & _ & _ & _ & _ & Hf).
      cbv zeta in Hf. rewrite Hw, Hf. eexists. rewrite <- !app_assoc. reflexivity.
    + destruct (negb (onlyPrototypes gOptions)); [|apply grows_refl].
      now eexists.
Qed.

Lemma file_flushBuffer (b : tBuffer) :
  file (flushBuffer gOptions malloc_ok b) = file b ++ flushOutput gOptions malloc_ok b.
Proof.
  unfold flushOutput. destruct (flushBuffer_grows b) as [w Hw].
  rewrite Hw at 2. rewrite skipn_app, skipn_all, Nat.sub_diag. exact Hw.
Qed.

Ltac grow_leaf :=
  unfold grows; state_simpl;
  repeat (first [ rewrite file_flushBuffer | rewrite newFileComment_file
                | rewrite file_parseComment | rewrite file_parseStatement ];
          state_simpl);
  rewrite <- ?app_assoc; eexists;
  first [reflexivity | symmetry; apply app_nil_r].

Lemma lex_grows (c : ascii) (nextc : option ascii) (st : tState) :
  grows (buf st) (buf (lex gOptions malloc_ok c nextc st)).
Proof.
  destruct st as [b pc dC dR iC iCpp iP iS iD iB iL i1 aS dF].
  unfold lex, lexCppComment, lexBlockComment, lexPreprocessor, lexPlain, slash, openComment;
    state_simpl.
  repeat (break_if; state_simpl).
  all: grow_leaf.
Qed.

Lemma startCheck_grows (c : ascii) (st : tState) :
  grows (buf st) (buf (startCheck gOptions malloc_ok c st)).
Proof.
  destruct st as [b pc dC dR iC iCpp iP iS iD iB iL i1 aS dF].
  unfold startCheck; state_simpl.
  repeat (break_if; state_simpl).
  all: grow_leaf.
Qed.

Lemma afterCheck_grows (c : ascii) (st : tState) :
  grows (buf st) (buf (endOfTurn c (flushIfDue gOptions malloc_ok (store capacity c st)))).
Proof.
  destruct st as [b pc dC dR iC iCpp iP iS iD iB iL i1 aS dF].
  unfold endOfTurn, flushIfDue, store; state_simpl.
  repeat (break_if; state_simpl).
  all: grow_leaf.
Qed.

(** One turn of the loop only adds to the output. *)
Lemma iteration_grows (c : ascii) (nextc : option ascii) (st : tState) :
  grows (buf st) (buf (iteration gOptions malloc_ok capacity c nextc st)).
Proof.
  unfold iteration, accumulate.
  eapply grows_trans; [apply (lex_grows c nextc)|].
  eapply grows_trans; [apply (startCheck_grows c)|].
  apply afterCheck_grows.
Qed.

Lemma loop_grows (input : list ascii) :
  forall st, grows (buf st) (buf (loop gOptions malloc_ok capacity input st)).
Proof.
  induction input as [|c rest IH]; intros st; [apply grows_refl|].
  cbn [loop]. eapply grows_trans; [apply iteration_grows | apply IH].
Qed.

Lemma flush_blank (pc : ascii) (F D : list ascii) :
  flushBuffer gOptions malloc_ok (buf (blankState pc F D))
  = buf (blankState pc (F ++ if onlyPrototypes gOptions then [] else D) []).
Proof.
  unfold blankState, flushBuffer, ptr; state_simpl. cbn [Z.eqb andb].
  destruct D as [|d D].
  - cbn [length Z.of_nat Z.ltb Z.compare]. unfold clearBuffer; state_simpl.
    destruct (onlyPrototypes gOptions); now rewrite app_nil_r.
  - replace (0 <? Z.of_nat (length (d :: D))) with true
      by (symmetry; apply Z.ltb_lt; cbn [length]; lia).
    destruct (onlyPrototypes gOptions); cbn [negb];
      unfold dumpBlock, clearBuffer, fprintf; setters;
      rewrite ?slice_all, ?app_nil_r; reflexivity.
Qed.

Lemma lex_blank (c pc : ascii) (nextc : option ascii) (F D : list ascii) :
  isspace c = true ->
  lex gOptions malloc_ok c nextc (blankState pc F D) = blankState pc F D.
Proof.
  intros Hsp. unfold blankState, lex, lexPlain; state_simpl. rewrite Hsp. state_simpl.
  repeat (break_if; try not_space); reflexivity.
Qed.

Lemma store_blank (c pc : ascii) (F D : list ascii) :
  store capacity c (blankState pc F D)
  = if capacity <=? Z.of_nat (length (D ++ [c]))
    then set_doFlush true (blankState pc F (D ++ [c]))
    else blankState pc F (D ++ [c]).
Proof.
  unfold store, emitChar, ptr, blankState. setters.
  destruct (capacity <=? Z.of_nat (length (D ++ [c]))); reflexivity.
Qed.

Lemma flushIfDue_blank (pc : ascii) (F D : list ascii) :
  flushIfDue gOptions malloc_ok (set_doFlush true (blankState pc F D))
  = blankState pc (F ++ if onlyPrototypes gOptions then [] else D) [].
Proof.
  unfold flushIfDue, on_buf.
  change (doFlush (set_doFlush true (blankState pc F D))) with true. cbv iota.
  change (buf (set_doFlush false (set_doFlush true (blankState pc F D))))
    with (buf (blankState pc F D)).
  rewrite flush_blank. reflexivity.
Qed.

(** A blank read in the blank state leaves the machine there: the blank
    goes to the buffer, and the buffer to the output when it is full. *)
Lemma blank_turn (c pc : ascii) (nextc : option ascii) (F D : list ascii) :
  isspace c = true ->
  iteration gOptions malloc_ok capacity c nextc (blankState pc F D)
  = if capacity <=? Z.of_nat (length (D ++ [c]))
    then blankState c (F ++ if onlyPrototypes gOptions then [] else D ++ [c]) []
    else blankState c F (D ++ [c]).
Proof.
  intros Hsp. unfold iteration, accumulate. rewrite lex_blank by exact Hsp.
  assert (Hstart : startCheck gOptions malloc_ok c (blankState pc F D) = blankState pc F D).
  { unfold startCheck. change (atStart (blankState pc F D)) with true.
    now rewrite Hsp. }
  rewrite Hstart, store_blank.
  destruct (capacity <=? Z.of_nat (length (D ++ [c]))).
  - rewrite flushIfDue_blank. unfold endOfTurn, blankState. setters. now rewrite Hsp.
  - unfold flushIfDue, endOfTurn, blankState. setters. now rewrite Hsp.
Qed.

Lemma blank_run (ws : list ascii) :
  blank ws ->
  forall tail pc F D,
    exists pc' F' D',
      loop gOptions malloc_ok capacity (ws ++ tail) (blankState pc F D)
      = loop gOptions malloc_ok capacity tail (blankState pc' F' D')
      /\ (onlyPrototypes gOptions = false -> F' ++ D' = F ++ D ++ ws)
      /\ (onlyPrototypes gOptions = true -> F' = F)
      /\ (Z.of_nat (length D) + Z.of_nat (length ws) < capacity -> F' = F).
Proof.
  induction 1 as [|c ws Hc _ IH]; intros tail pc F D.
  - exists pc, F, D. cbn [app]. rewrite app_nil_r. auto.
  - cbn [app loop]. rewrite blank_turn by exact Hc.
    destruct (capacity <=? Z.of_nat (length (D ++ [c]))) eqn:Hcap.
    + destruct (IH tail c (F ++ if onlyPrototypes gOptions then [] else D ++ [c]) [])
        as (pc' & F' & D' & -> & H1 & H2 & H3).
      exists pc', F', D'. split; [reflexivity|]. split; [|split].
      * intros Hp. rewrite (H1 Hp), Hp. cbn [app]. now rewrite <- !app_assoc.
      * intros Hp. rewrite (H2 Hp), Hp. apply app_nil_r.
      * apply Z.leb_le in Hcap. rewrite length_app in Hcap. cbn [length] in *. lia.
    + destruct (IH tail c F (D ++ [c])) as (pc' & F' & D' & -> & H1 & H2 & H3).
      exists pc', F', D'. split; [reflexivity|]. split; [|split].
      * intros Hp. rewrite (H1 Hp). now rewrite <- !app_assoc.
      * exact H2.
      * intros Hl. apply H3. rewrite length_app. cbn [length] in *. lia.
Qed.

(** X11: a file of nothing but blanks, the empty file included, goes through
    as it is: [processFile] returns 0, writes no file comment, and writes
    the blanks themselves unless only prototypes are asked for, in which
    case it writes nothing. *)
Theorem blank_file_unchanged :
  forall input : list ascii,
    blank input ->
    malloc_ok sizeof_tBuffer = true ->
    processFile gOptions malloc_ok capacity sizeof_tBuffer input
    = Some (0, if onlyPrototypes gOptions then [] else input).
Proof.
  intros input Hb Hm. unfold processFile. rewrite Hm.
  destruct (blank_run input Hb [] NUL [] []) as (pc & F & D & Hrun & H1 & H2 & _).
  rewrite app_nil_r in Hrun.
  change initState with (blankState NUL [] []). rewrite Hrun. cbn [loop].
  rewrite flush_blank.
  unfold blankState; state_simpl.
  destruct (onlyPrototypes gOptions).
  - now rewrite (H2 eq_refl).
  - now rewrite (H1 eq_refl).
Qed.

(** X12: when the first character of the file that is not a blank does not
    open a comment, [processFile] writes a new file comment before anything
    else of the file: the output begins with the generated header, with the
    file name and the boilerplate in it.  Only blanks can precede the
    header, and only when so many of them come first that the buffer was
    flushed before the first character was seen. *)
Theorem new_header_comes_first :
  forall (ws rest out : list ascii) (c : ascii) (r : Z),
    blank ws -> isspace c = false -> opensComment c (hd_error rest) = false ->
    processFile gOptions malloc_ok capacity sizeof_tBuffer (ws ++ c :: rest) = Some (r, out) ->
    malloc_ok sizeof_tBuffer = true ->
    exists lead more,
      out = lead ++ newHeader gOptions malloc_ok ++ more
      /\ (exists tail, ws = lead ++ tail)
      /\ (Z.of_nat (length ws) < capacity -> lead = [])
      /\ (onlyPrototypes gOptions = true -> lead = []).
Proof.
  intros ws rest out c r Hws Hc Hopen Hrun Hm.
  unfold processFile in Hrun. rewrite Hm in Hrun.
  set (b := flushBuffer gOptions malloc_ok
              (buf (loop gOptions malloc_ok capacity (ws ++ c :: rest) initState))) in *.
  destruct (faulted b); [discriminate|].
  assert (Hout : out = file b) by congruence.
  subst out. unfold b. clear Hrun b.
  change initState with (blankState NUL [] []).
  destruct (blank_run ws Hws (c :: rest) NUL [] []) as (pc & F & D & -> & H1 & H2 & H3).
  cbn [loop].
  set (st1 := startCheck gOptions malloc_ok c
                (lex gOptions malloc_ok c (hd_error rest) (blankState pc F D))).
  assert (Hfile : file (buf st1) = F ++ newHeader gOptions malloc_ok).
  { unfold st1, blankState, opensComment in *.
    unfold lex, lexPlain, slash, openComment, startCheck; state_simpl.
    rewrite Hc. state_simpl.
    repeat (break_if; state_simpl; try discriminate);
      rewrite ?newFileComment_file; state_simpl; try reflexivity.
    all: bool_hyps; try congruence.
    all: cbn [orb andb] in *; try discriminate. }
  pose proof (afterCheck_grows c st1) as G1.
  pose proof (loop_grows rest
                (endOfTurn c (flushIfDue gOptions malloc_ok (store capacity c st1)))) as G2.
  pose proof (flushBuffer_grows
                (buf (loop gOptions malloc_ok capacity rest
                        (endOfTurn c (flushIfDue gOptions malloc_ok (store capacity c st1))))))
    as G3.
  destruct (grows_trans _ _ _ G1 (grows_trans _ _ _ G2 G3)) as [w Hw].
  unfold iteration, accumulate. fold st1. rewrite Hw, Hfile.
  exists F, w. split; [now rewrite <- app_assoc|]. split; [|split].
  - destruct (onlyPrototypes gOptions) eqn:Hp.
    + rewrite (H2 eq_refl). now exists ws.
    + exists D. specialize (H1 eq_refl). cbn [app] in H1. now symmetry.
  - intros Hl. apply H3. cbn [length]. lia.
  - exact H2.
Qed.

End Runs.

Lemma blank_file_unchanged_witness :
  processFile plainOptions always 4096 4096 ([TAB] ++ str "  " ++ NL)
  = Some (0, [TAB] ++ str "  " ++ NL).
Proof.
  apply (blank_file_unchanged plainOptions always 4096 4096 ([TAB] ++ str "  " ++ NL)).
  - repeat constructor.
  - reflexivity.
Defined.

Lemma new_header_comes_first_witness :
  exists lead more,
    sampleOutput plainOptions (NL ++ str "int x;")
    = lead ++ newHeader plainOptions always ++ more
    /\ (exists tail, NL = lead ++ tail)
    /\ (Z.of_nat (length NL) < 4096 -> lead = [])
    /\ (onlyPrototypes plainOptions = true -> lead = []).
Proof.
  apply (new_header_comes_first plainOptions always 4096 4096
           NL (str "nt x;") (sampleOutput plainOptions (NL ++ str "int x;")) "i"%char 0).
  - repeat constructor.
  - reflexivity.
  - reflexivity.
  - vm_compute. reflexivity.
  - reflexivity.
Defined.

(** ** The size of the accumulation *)

Section Capacity.

Variable gOptions : tAppOptions.
Variable malloc_ok : Z -> bool.
Variable capacity : Z.

Lemma full_buffer_is_flushed (c : ascii) (st : tState) :
  let st' := endOfTurn c (flushIfDue gOptions malloc_ok (store capacity c st)) in
  data (buf st') = [] \/ ptr (buf st') < capacity.
Proof.
  destruct st as [b pc dC dR iC iCpp iP iS iD iB iL i1 aS dF]. cbv zeta.
  unfold endOfTurn, flushIfDue, store; state_simpl.
  repeat (break_if; state_simpl).
  all: first [ left; apply data_flushBuffer
             | right; apply Z.leb_gt; assumption
             | discriminate ].
Qed.

(** X13: the accumulation never outgrows the buffer.  At the end of every
    turn of the loop of [processFile], whatever the input and from whatever
    state, the buffer is empty or holds fewer than [capacity] characters: a
    character that fills it forces a flush in the same turn. *)
Theorem accumulation_is_bounded :
  forall (input : list ascii) (st0 st : tState),
    In st (states gOptions malloc_ok capacity input st0) ->
    data (buf st) = [] \/ ptr (buf st) < capacity.
Proof.
  induction input as [|c rest IH]; intros st0 st Hin; [contradiction|].
  cbn [states] in Hin. destruct Hin as [<- | Hin].
  - unfold iteration, accumulate. apply full_buffer_is_flushed.
  - exact (IH _ _ Hin).
Qed.

End Capacity.

Lemma accumulation_is_bounded_witness :
  data (buf (loop plainOptions always 3 (str "abc") initState)) = []
  \/ ptr (buf (loop plainOptions always 3 (str "abc") initState)) < 3.
Proof.
  apply (accumulation_is_bounded plainOptions always 3 (str "abc") initState).
  right. right. left. reflexivity.
Defined.

(** ** The comment at the head of the file *)

Section FileComment.

Variable gOptions : tAppOptions.
Variable malloc_ok : Z -> bool.
Variable capacity : Z.
Variable sizeof_tBuffer : Z.









End FileComment.


(** ** insertdox.c: the command line *)

Lemma assign_length (l : list (list ascii)) :
  forall n v, length (Insertdox.assign l n v) = length l.
Proof.
  induction l as [|x l IH]; intros [|n] v; cbn; auto.
Qed.

Lemma assign_skipn (l : list (list ascii)) :
  forall n m v, (n < m)%nat -> skipn m (Insertdox.assign l n v) = skipn m l.
Proof.
  induction l as [|x l IH]; intros n [|m] v H; try lia.
  - reflexivity.
  - destruct n as [|n]; cbn; [reflexivity | apply IH; lia].
Qed.

Lemma assign_firstn (l : list (list ascii)) :
  forall n v, (n < length l)%nat ->
  firstn (S n) (Insertdox.assign l n v) = firstn n l ++ [v].
Proof.
  induction l as [|x l IH]; intros n v H; [cbn in H; lia|].
  destruct n as [|n]; [reflexivity|].
  cbn [Insertdox.assign]. rewrite !firstn_cons. cbn [app]. f_equal.
  apply IH. cbn in H. lia.
Qed.

Lemma assign_same (l : list (list ascii)) :
  forall n, Insertdox.assign l n (nth n l []) = l.
Proof.
  induction l as [|x l IH]; intros [|n]; cbn; try reflexivity. now rewrite IH.
Qed.

Lemma skipn_nth (l : list (list ascii)) :
  forall i, (i < length l)%nat -> skipn i l = nth i l [] :: skipn (S i) l.
Proof.
  induction l as [|x l IH]; intros [|i] H; cbn in *; try lia; try reflexivity.
  apply IH. lia.
Qed.

Lemma sorted_nil (a : Insertdox.tArguments) : Insertdox.sorted a a [].
Proof.
  unfold Insertdox.sorted. cbn.
  rewrite app_nil_r, Nat.add_0_r, orb_false_r, andb_true_r. repeat split.
Qed.

Lemma sorted_trans (a1 a2 a3 : Insertdox.tArguments) (l1 l2 : list Insertdox.tArgument) :
  Insertdox.sorted a1 a2 l1 -> Insertdox.sorted a2 a3 l2 ->
  Insertdox.sorted a1 a3 (l1 ++ l2).
Proof.
  intros (A1 & A2 & A3 & A4 & A5 & A6 & A7 & A8 & A9)
         (B1 & B2 & B3 & B4 & B5 & B6 & B7 & B8 & B9).
  unfold Insertdox.sorted, Insertdox.operands in *.
  rewrite flat_map_app, length_app, fold_left_app, existsb_app, forallb_app.
  rewrite B1, B2, B3, B4, B5, B6, B7, B8, B9, A1, A2, A3, A4, A5, A6, A7, A8, A9.
  rewrite <- app_assoc, orb_assoc, andb_assoc. repeat split; lia.
Qed.

(** A message, and nothing else, is one of the other options. *)
Lemma sorted_told (a : Insertdox.tArguments) (w : Insertdox.tWorld) :
  Insertdox.disk w = Insertdox.disk (Insertdox.world a) ->
  Insertdox.stdin w = Insertdox.stdin (Insertdox.world a) ->
  Insertdox.stdout w = Insertdox.stdout (Insertdox.world a) ->
  Insertdox.sorted a
    (Insertdox.mkArguments (Insertdox.argv a) (Insertdox.count a) (Insertdox.boilerplate a)
       (Insertdox.onlyPrototypes a) (Insertdox.usageOnly a) w)
    [Insertdox.Other].
Proof.
  intros H1 H2 H3. unfold Insertdox.sorted, Insertdox.fileNames. cbn.
  rewrite app_nil_r, Nat.add_0_r, orb_false_r, andb_true_r. repeat split; assumption.
Qed.

Section CommandLine.

Variable qVersion : list ascii.

(** What the first loop of [main] makes of the arguments from [i] on. *)
Lemma optionLoop_sorts (fuel : nat) :
  forall (i : nat) (a : Insertdox.tArguments),
    (1 <= Insertdox.count a <= i)%nat ->
    (length (Insertdox.argv a) <= fuel + i)%nat ->
    Insertdox.sorted a
      (Insertdox.optionLoop qVersion fuel (length (Insertdox.argv a)) i a)
      (Insertdox.classified (skipn i (Insertdox.argv a))).
Proof.
  induction fuel as [|k IH]; intros i a Hc Hf.
  - cbn [Insertdox.optionLoop]. rewrite skipn_all2 by lia. apply sorted_nil.
  - cbn [Insertdox.optionLoop].
    destruct (i <? length (Insertdox.argv a))%nat eqn:Hi.
    2:{ apply Nat.ltb_ge in Hi. rewrite skipn_all2 by lia. apply sorted_nil. }
    apply Nat.ltb_lt in Hi.
    rewrite (skipn_nth _ i Hi).
    destruct a as [argv count bp proto usage w].
    cbn [Insertdox.argv Insertdox.count] in *.
    unfold Insertdox.optionStep.
    cbn [Insertdox.argv Insertdox.count Insertdox.boilerplate Insertdox.onlyPrototypes
         Insertdox.usageOnly Insertdox.world].
    set (arg := nth i argv []) in *.
    change (Insertdox.argAt argv i) with arg.
    cbn [Insertdox.classified].
    (* the rest of the loop, when the turn leaves [argv] alone *)
    assert (Hnext : forall (j : nat) (a1 : Insertdox.tArguments),
               Insertdox.argv a1 = argv -> (i < j)%nat ->
               (1 <= Insertdox.count a1 <= j)%nat ->
               Insertdox.sorted a1
                 (Insertdox.optionLoop qVersion k (length argv) j a1)
                 (Insertdox.classified (skipn j argv))).
    { intros j a1 Hargv Hj Hc1.
      pose proof (IH j a1 Hc1 ltac:(rewrite Hargv; lia)) as H.
      rewrite Hargv in H. exact H. }
    assert (Htold : forall (w1 : Insertdox.tWorld),
               Insertdox.disk w1 = Insertdox.disk w ->
               Insertdox.stdin w1 = Insertdox.stdin w ->
               Insertdox.stdout w1 = Insertdox.stdout w ->
               Insertdox.sorted (Insertdox.mkArguments argv count bp proto usage w)
                 (Insertdox.optionLoop qVersion k (length argv) (S i)
                    (Insertdox.mkArguments argv count bp proto usage w1))
                 (Insertdox.Other :: Insertdox.classified (skipn (S i) argv))).
    { intros w1 D1 D2 D3.
      apply (sorted_trans _ (Insertdox.mkArguments argv count bp proto usage w1) _
               [Insertdox.Other]).
      - apply (sorted_told (Insertdox.mkArguments argv count bp proto usage w) w1 D1 D2 D3).
      - apply Hnext; cbn; [reflexivity | lia | lia]. }
    destruct (Insertdox.charAt arg 0 =? "-")%char eqn:Hdash.
    + (* an option *)
      destruct ((Insertdox.charAt arg 1 =? "V")%char) eqn:E1; cbn [orb];
        [apply Htold; reflexivity|].
      destruct ((Insertdox.charAt arg 1 =? "v")%char) eqn:E2; cbn [orb];
        [apply Htold; reflexivity|].
      destruct ((Insertdox.charAt arg 1 =? "?")%char) eqn:E3; cbn [orb];
        [apply Htold; reflexivity|].
      destruct ((Insertdox.charAt arg 1 =? "h")%char) eqn:E4; cbn [orb];
        [apply Htold; reflexivity|].
      destruct ((Insertdox.charAt arg 1 =? "b")%char) eqn:E5.
      { (* [-b] *)
        destruct (S i <? length argv)%nat eqn:Hb.
        - apply Nat.ltb_lt in Hb. rewrite (skipn_nth _ (S i) Hb).
          unfold Insertdox.argAt.
          apply (sorted_trans _
                   (Insertdox.mkArguments argv count (Some (nth (S i) argv [])) proto false w)
                   _ [Insertdox.Boilerplate (nth (S i) argv [])]).
          + unfold Insertdox.sorted, Insertdox.fileNames. cbn.
            rewrite app_nil_r, Nat.add_0_r, orb_false_r, andb_false_r. repeat split.
          + apply Hnext; cbn; [reflexivity | lia | lia].
        - apply Nat.ltb_ge in Hb. rewrite (skipn_all2 argv) by lia.
          pose proof (Hnext (S (S i)) (Insertdox.mkArguments argv count bp proto usage w)
                        eq_refl ltac:(lia) ltac:(cbn; lia)) as H.
          rewrite (skipn_all2 argv) in H by lia. cbn [Insertdox.classified] in H.
          apply (sorted_trans _ _ _ [Insertdox.Other] []
                   (sorted_told (Insertdox.mkArguments argv count bp proto usage w) w
                      eq_refl eq_refl eq_refl)).
          exact H. }
      destruct ((Insertdox.charAt arg 1 =? "p")%char) eqn:E6.
      { apply (sorted_trans _ (Insertdox.mkArguments argv count bp true false w) _
                 [Insertdox.Prototypes]).
        - unfold Insertdox.sorted, Insertdox.fileNames. cbn.
          rewrite app_nil_r, Nat.add_0_r, orb_true_r, andb_false_r. repeat split.
        - apply Hnext; cbn; [reflexivity | lia | lia]. }
      destruct ((Insertdox.charAt arg 1 =? "-")%char) eqn:E7.
      { destruct (streq arg (str "--version")); [apply Htold; reflexivity|].
        destruct (streq arg (str "--help")); apply Htold; reflexivity. }
      apply Htold; reflexivity.
    + (* a file name *)
      set (argv' := if (count =? i)%nat then argv else Insertdox.assign argv count arg).
      assert (Hargv' : argv' = Insertdox.assign argv count arg).
      { unfold argv'. destruct (count =? i)%nat eqn:E; [|reflexivity].
        apply Nat.eqb_eq in E. subst count. unfold arg. now rewrite assign_same. }
      clearbody argv'. subst argv'.
      pose proof (IH (S i)
                    (Insertdox.mkArguments (Insertdox.assign argv count arg) (S count)
                       bp proto false w)
                    ltac:(cbn; lia)
                    ltac:(cbn [Insertdox.argv]; rewrite assign_length; lia)) as H.
      cbn [Insertdox.argv] in H.
      rewrite assign_length, assign_skipn in H by lia.
      refine (sorted_trans _ _ _ [Insertdox.Operand arg] _ _ H).
      unfold Insertdox.sorted, Insertdox.fileNames. cbn [Insertdox.count Insertdox.argv
        Insertdox.boilerplate Insertdox.onlyPrototypes Insertdox.usageOnly Insertdox.world
        Insertdox.operands flat_map app length fold_left existsb forallb
        Insertdox.isPrototypes Insertdox.isOther orb andb].
      rewrite orb_false_r, andb_false_r.
      destruct argv as [|x0 argv0]; [cbn in Hi; lia|].
      destruct count as [|c0]; [lia|].
      cbn [Insertdox.assign skipn Nat.sub Insertdox.argAt nth]. rewrite Nat.sub_0_r.
      repeat split; try lia.
      change (firstn (S c0) (Insertdox.assign argv0 c0 arg) = firstn c0 argv0 ++ [arg]).
      apply assign_firstn. cbn in Hi. lia.
Qed.

End CommandLine.

Lemma arguments_sort :
  forall (qVersion app : list ascii) (args : list (list ascii)) (w : Insertdox.tWorld),
    let a := Insertdox.arguments qVersion (app :: args) w in
    let l := Insertdox.classified args in
    Insertdox.fileNames a = Insertdox.operands l
    /\ Insertdox.count a = S (length (Insertdox.operands l))
    /\ Insertdox.boilerplate a = Insertdox.lastBoilerplate l
    /\ Insertdox.onlyPrototypes a = existsb Insertdox.isPrototypes l
    /\ Insertdox.usageOnly a = negb (Nat.eqb (length args) 0) && forallb Insertdox.isOther l
    /\ Insertdox.argAt (Insertdox.argv a) 0 = app
    /\ Insertdox.disk (Insertdox.world a) = Insertdox.disk w
    /\ Insertdox.stdin (Insertdox.world a) = Insertdox.stdin w
    /\ Insertdox.stdout (Insertdox.world a) = Insertdox.stdout w.
Proof.
  intros qVersion app args w. cbv zeta. unfold Insertdox.arguments.
  pose proof (optionLoop_sorts qVersion (length (app :: args)) 1
                (Insertdox.mkArguments (app :: args) 1 None false
                   (1 <? length (app :: args))%nat w)
                ltac:(cbn; lia) ltac:(cbn; lia)) as H.
  cbn [Insertdox.argv skipn] in H.
  destruct H as (H1 & H2 & H3 & H4 & H5 & H6 & H7 & H8 & H9).
  rewrite H1, H2, H3, H4, H5, H6, H7, H8, H9.
  unfold Insertdox.fileNames, Insertdox.lastBoilerplate. cbn.
  repeat split. destruct args; reflexivity.
Qed.

(** X15: the first loop of [main] sorts the command line.  Of the arguments
    after the program name, those that do not start with [-] are the file
    names, in their order; an option with the letter [b] takes the argument
    after it as the boilerplate path, the last one counting, and is ignored
    when it comes last; any option with the letter [p] asks for prototypes
    only; and nothing is to be processed, [usageOnly], exactly when there
    are arguments and all of them are other options.  Files and the standard
    input and output are not touched. *)
Theorem arguments_are_sorted :
  forall (qVersion app : list ascii) (args : list (list ascii)) (w : Insertdox.tWorld),
    let a := Insertdox.arguments qVersion (app :: args) w in
    let l := Insertdox.classified args in
    Insertdox.fileNames a = Insertdox.operands l
    /\ Insertdox.count a = S (length (Insertdox.operands l))
    /\ Insertdox.boilerplate a = Insertdox.lastBoilerplate l
    /\ Insertdox.onlyPrototypes a = existsb Insertdox.isPrototypes l
    /\ Insertdox.usageOnly a = negb (Nat.eqb (length args) 0) && forallb Insertdox.isOther l
    /\ Insertdox.argAt (Insertdox.argv a) 0 = app
    /\ Insertdox.disk (Insertdox.world a) = Insertdox.disk w
    /\ Insertdox.stdin (Insertdox.world a) = Insertdox.stdin w
    /\ Insertdox.stdout (Insertdox.world a) = Insertdox.stdout w.
Proof. exact arguments_sort. Qed.

(** ** insertdox.c: the files *)

Lemma streq_refl (a : list ascii) : streq a a = true.
Proof. now apply streq_spec. Qed.

Lemma streq_ne (a b : list ascii) : a <> b -> streq a b = false.
Proof.
  intros H. destruct (streq a b) eqn:E; [|reflexivity].
  apply streq_spec in E. contradiction.
Qed.

Lemma lookup_remove_eq (p : list ascii) (d : list (list ascii * list ascii)) :
  Insertdox.lookup p (Insertdox.remove p d) = None.
Proof.
  induction d as [|[q t] d IH]; [reflexivity|].
  cbn [Insertdox.remove filter fst]. destruct (streq q p) eqn:E; cbn [negb].
  - exact IH.
  - cbn [Insertdox.lookup]. rewrite E. exact IH.
Qed.

Lemma lookup_remove_ne (p q : list ascii) (d : list (list ascii * list ascii)) :
  p <> q -> Insertdox.lookup q (Insertdox.remove p d) = Insertdox.lookup q d.
Proof.
  intros Hne. induction d as [|[k t] d IH]; [reflexivity|].
  cbn [Insertdox.remove filter fst Insertdox.lookup].
  destruct (streq k p) eqn:E; cbn [negb].
  - apply streq_spec in E. subst k. rewrite (streq_ne p q Hne). exact IH.
  - cbn [Insertdox.lookup]. destruct (streq k q); [reflexivity | exact IH].
Qed.

Lemma lookup_write_eq (p t : list ascii) (d : list (list ascii * list ascii)) :
  Insertdox.lookup p (Insertdox.write p t d) = Some t.
Proof. unfold Insertdox.write. cbn [Insertdox.lookup]. now rewrite streq_refl. Qed.

Lemma lookup_write_ne (p q t : list ascii) (d : list (list ascii * list ascii)) :
  p <> q -> Insertdox.lookup q (Insertdox.write p t d) = Insertdox.lookup q d.
Proof.
  intros Hne. unfold Insertdox.write. cbn [Insertdox.lookup].
  rewrite (streq_ne p q Hne). now apply lookup_remove_ne.
Qed.

Lemma some_pair (A B : Type) (a c : A) (b d : B) :
  Some (a, b) = Some (c, d) -> a = c /\ b = d.
Proof. intros H. injection H. auto. Qed.

Lemma suffixed_differs (p s : list ascii) : s <> [] -> p ++ s <> p.
Proof.
  intros Hs H. apply (f_equal (@length ascii)) in H. rewrite length_app in H.
  destruct s; [contradiction | cbn in H; lia].
Qed.

Section Files.

Variable qVersion : list ascii.
Variable malloc_ok : Z -> bool.
Variable cpycat_ok : list ascii -> list ascii -> bool.
Variable readable : list ascii -> bool.
Variable writable : list ascii -> bool.
Variable movable : list ascii -> list ascii -> bool.
Variable capacity : Z.
Variable sizeof_tBuffer : Z.

Lemma processPath_replaces (a : Insertdox.tArguments) (app path text out : list ascii)
    (result : Z) (w : Insertdox.tWorld) :
  Insertdox.goesWell malloc_ok cpycat_ok readable writable movable capacity sizeof_tBuffer
    a path text out w ->
  exists w',
    Insertdox.processPath malloc_ok cpycat_ok readable writable movable capacity
      sizeof_tBuffer a app path result w = Some (0, w')
    /\ Insertdox.replaced path text out w w'.
Proof.
  intros (Hbp & Hr & Hl & Htmp & Hbak & Hw & Hm1 & Hm2 & Hrun).
  assert (Ntmp : path ++ str ".tmp" <> path) by (apply suffixed_differs; discriminate).
  assert (Nbak : path ++ str ".bak" <> path) by (apply suffixed_differs; discriminate).
  assert (Ntb : path ++ str ".tmp" <> path ++ str ".bak").
  { intros H. apply app_inv_head in H. discriminate H. }
  unfold Insertdox.processPath, Insertdox.fopen_r, Insertdox.fopen_w, Insertdox.run,
    Insertdox.rename, cpycat.
  rewrite Hr, Hl, Htmp, Hw, Hbp, Hrun, Hbak, Hm1, Hm2.
  cbn [Insertdox.disk Insertdox.set_disk Z.eqb].
  rewrite (lookup_write_ne (path ++ str ".tmp") path out) by exact Ntmp.
  rewrite (lookup_write_ne (path ++ str ".tmp") path []) by exact Ntmp.
  rewrite Hl.
  cbn [Insertdox.disk Insertdox.set_disk].
  rewrite (lookup_write_ne (path ++ str ".bak") (path ++ str ".tmp"))
    by (intros H; apply Ntb; now symmetry).
  rewrite (lookup_remove_ne path (path ++ str ".tmp")) by (intros H; apply Ntmp; now symmetry).
  rewrite lookup_write_eq.
  eexists. split; [reflexivity|].
  unfold Insertdox.replaced.
  cbn [Insertdox.disk Insertdox.set_disk Insertdox.stdin Insertdox.stdout Insertdox.stderr].
  split; [apply lookup_write_eq|]. split; [|split; [|split; [|repeat split]]].
  - rewrite lookup_write_ne by (intros H; apply Nbak; now symmetry).
    rewrite lookup_remove_ne by exact Ntb.
    apply lookup_write_eq.
  - rewrite lookup_write_ne by (intros H; apply Ntmp; now symmetry).
    apply lookup_remove_eq.
  - intros q Q1 Q2 Q3.
    rewrite lookup_write_ne by (intros H; apply Q1; now symmetry).
    rewrite lookup_remove_ne by (intros H; apply Q3; now symmetry).
    rewrite lookup_write_ne by (intros H; apply Q2; now symmetry).
    rewrite lookup_remove_ne by (intros H; apply Q1; now symmetry).
    rewrite lookup_write_ne by (intros H; apply Q3; now symmetry).
    rewrite lookup_write_ne by (intros H; apply Q3; now symmetry).
    reflexivity.
Qed.

Lemma fileLoop_app (a : Insertdox.tArguments) (app : list ascii)
    (before after : list (list ascii)) :
  forall (result : Z) (w : Insertdox.tWorld),
    Insertdox.fileLoop malloc_ok cpycat_ok readable writable movable capacity
      sizeof_tBuffer a app (before ++ after) result w
    = match Insertdox.fileLoop malloc_ok cpycat_ok readable writable movable capacity
              sizeof_tBuffer a app before result w with
      | Some (r, w1) =>
        Insertdox.fileLoop malloc_ok cpycat_ok readable writable movable capacity
          sizeof_tBuffer a app after r w1
      | None => None
      end.
Proof.
  induction before as [|p before IH]; intros result w; [reflexivity|].
  cbn [List.app Insertdox.fileLoop].
  destruct (Insertdox.processPath _ _ _ _ _ _ _ a app p result w) as [[r w1]|];
    [apply IH | reflexivity].
Qed.

(** X16: options that only ask for a message keep [main] from processing
    anything.  When there are arguments and each of them is an option other
    than an effective [-b] and [-p] (version, help, an unknown option, a
    [-b] without a path), [main] returns 0 and has at most written to
    [stderr]: no file is touched, and the standard input is not processed
    to the standard output. *)
Theorem options_alone_process_nothing :
  forall (app : list ascii) (args : list (list ascii)) (w : Insertdox.tWorld),
    args <> [] ->
    forallb Insertdox.isOther (Insertdox.classified args) = true ->
    exists w',
      Insertdox.main qVersion malloc_ok cpycat_ok readable writable movable capacity
        sizeof_tBuffer (app :: args) w = Some (0, w')
      /\ Insertdox.disk w' = Insertdox.disk w
      /\ Insertdox.stdin w' = Insertdox.stdin w
      /\ Insertdox.stdout w' = Insertdox.stdout w.
Proof.
  intros app args w Hne Hall. unfold Insertdox.main.
  destruct (arguments_sort qVersion app args w) as (_ & _ & _ & _ & Hu & _ & Hd & Hi & Ho).
  rewrite Hu, Hall. destruct args as [|x args]; [contradiction|].
  cbn [length Nat.eqb negb andb].
  eexists. split; [reflexivity|]. repeat split; assumption.
Qed.

(** X17: [insertdox path] replaces the file and keeps a backup.  When the
    system grants every step and [processFile] returns 0 with the output
    [out], [main] returns 0, the file holds [out], the file [path.bak]
    holds what the file held before, [path.tmp] is gone again, and no other
    file and none of the standard streams has changed. *)
Theorem file_is_replaced_with_backup :
  forall (app path text out : list ascii) (w : Insertdox.tWorld),
    (Insertdox.charAt path 0 =? "-")%char = false ->
    Insertdox.goesWell malloc_ok cpycat_ok readable writable movable capacity sizeof_tBuffer
      (Insertdox.arguments qVersion [app; path] w) path text out w ->
    exists w',
      Insertdox.main qVersion malloc_ok cpycat_ok readable writable movable capacity
        sizeof_tBuffer [app; path] w = Some (0, w')
      /\ Insertdox.lookup path (Insertdox.disk w') = Some out
      /\ Insertdox.lookup (path ++ str ".bak") (Insertdox.disk w') = Some text
      /\ Insertdox.lookup (path ++ str ".tmp") (Insertdox.disk w') = None
      /\ (forall q, q <> path -> q <> path ++ str ".bak" -> q <> path ++ str ".tmp" ->
          Insertdox.lookup q (Insertdox.disk w') = Insertdox.lookup q (Insertdox.disk w))
      /\ Insertdox.stdout w' = Insertdox.stdout w.
Proof.
  intros app path text out w Hdash Hgo. unfold Insertdox.main.
  destruct (arguments_sort qVersion app [path] w)
    as (Hf & Hc & _ & _ & Hu & Ha & Hd & Hi & Ho).
  cbn [Insertdox.classified] in *. rewrite Hdash in *.
  cbn [Insertdox.operands flat_map List.app length forallb Insertdox.isOther andb negb Nat.eqb]
    in *.
  set (a := Insertdox.arguments qVersion [app; path] w) in *.
  rewrite Hu, Hc, Hf, Ha. cbn [Nat.leb Insertdox.fileLoop].
  destruct Hgo as (G1 & G2 & G3 & G4).
  destruct (processPath_replaces a app path text out 0 (Insertdox.world a))
    as (w' & -> & R1 & R2 & R3 & R4 & R5 & R6 & R7).
  { split; [exact G1|]. split; [exact G2|]. split; [now rewrite Hd | exact G4]. }
  exists w'. split; [reflexivity|]. split; [exact R1|]. split; [exact R2|].
  split; [exact R3|]. split; [|now rewrite R6].
  intros q Q1 Q2 Q3. rewrite (R4 q Q1 Q2 Q3). now rewrite Hd.
Qed.

(** X18: the value [main] returns is the one of the last file only.  Whatever
    happened to the files before it, and whatever value the second loop has
    reached with them, a last file that is processed without a failure
    makes the loop end with 0: a failure on an earlier file is reported on
    [stderr] and then forgotten. *)
Theorem last_file_decides_the_result :
  forall (a : Insertdox.tArguments) (app : list ascii) (before : list (list ascii))
         (path text out : list ascii) (r r1 : Z) (w w1 : Insertdox.tWorld),
    Insertdox.fileLoop malloc_ok cpycat_ok readable writable movable capacity
      sizeof_tBuffer a app before r w = Some (r1, w1) ->
    Insertdox.goesWell malloc_ok cpycat_ok readable writable movable capacity sizeof_tBuffer
      a path text out w1 ->
    exists w',
      Insertdox.fileLoop malloc_ok cpycat_ok readable writable movable capacity
        sizeof_tBuffer a app (before ++ [path]) r w = Some (0, w')
      /\ Insertdox.replaced path text out w1 w'.
Proof.
  intros a app before path text out r r1 w w1 Hbefore Hgo.
  rewrite fileLoop_app, Hbefore. cbn [Insertdox.fileLoop].
  destruct (processPath_replaces a app path text out r1 w1 Hgo) as (w' & -> & Hrep).
  now exists w'.
Qed.

(** X19: without a file name, [main] processes the standard input to the
    standard output.  When no argument is a file name and no boilerplate is
    given, and the command line is empty or asks for prototypes, [main]
    hands the standard input to [processFile] with no file name in the
    options, appends what it writes to the standard output, returns its
    value, and leaves the files alone. *)
Theorem standard_streams_without_file_names :
  forall (app : list ascii) (args : list (list ascii)) (out : list ascii) (r : Z)
         (w : Insertdox.tWorld),
    let l := Insertdox.classified args in
    Insertdox.operands l = [] -> Insertdox.lastBoilerplate l = None ->
    args = [] \/ existsb Insertdox.isPrototypes l = true ->
    processFile (mkOptions None None (existsb Insertdox.isPrototypes l))
      malloc_ok capacity sizeof_tBuffer (Insertdox.stdin w) = Some (r, out) ->
    exists w',
      Insertdox.main qVersion malloc_ok cpycat_ok readable writable movable capacity
        sizeof_tBuffer (app :: args) w = Some (r, w')
      /\ Insertdox.stdout w' = Insertdox.stdout w ++ out
      /\ Insertdox.disk w' = Insertdox.disk w.
Proof.
  intros app args out r w. cbv zeta. intros Hops Hbp Hmode Hrun. unfold Insertdox.main.
  destruct (arguments_sort qVersion app args w)
    as (Hf & Hc & Hb & Hp & Hu & Ha & Hd & Hi & Ho).
  set (a := Insertdox.arguments qVersion (app :: args) w) in *.
  assert (Husage : Insertdox.usageOnly a = false).
  { rewrite Hu. destruct Hmode as [-> | Hproto]; [reflexivity|].
    destruct (forallb Insertdox.isOther (Insertdox.classified args)) eqn:E;
      [|apply andb_false_r].
    exfalso. rewrite forallb_forall in E. apply existsb_exists in Hproto as (x & Hin & Hx).
    specialize (E x Hin). destruct x; discriminate. }
  rewrite Husage, Hc, Hops. cbn [length Nat.leb].
  unfold Insertdox.run. rewrite Hb, Hbp, Hp, Hi, Hrun.
  eexists. split; [reflexivity|].
  cbn [Insertdox.set_stdout Insertdox.stdout Insertdox.disk]. now rewrite Ho, Hd.
Qed.

(** X20: the contents of a file survive every outcome of its turn in the
    second loop.  Whatever the system refuses and whatever [processFile]
    returns, when the turn for [path] is over the text the file held is
    still in the file or it is in its backup file [path.bak]; and it is
    only in the backup when the turn ended with 0, the file then holding
    the output, or with -4, the file then being gone. *)
Theorem original_contents_survive :
  forall (a : Insertdox.tArguments) (app path text : list ascii) (result r : Z)
         (w w' : Insertdox.tWorld),
    Insertdox.lookup path (Insertdox.disk w) = Some text ->
    Insertdox.processPath malloc_ok cpycat_ok readable writable movable capacity
      sizeof_tBuffer a app path result w = Some (r, w') ->
    Insertdox.lookup path (Insertdox.disk w') = Some text
    \/ (Insertdox.lookup (path ++ str ".bak") (Insertdox.disk w') = Some text
        /\ ((r = 0 /\ exists out, Insertdox.lookup path (Insertdox.disk w') = Some out)
            \/ (r = -4 /\ Insertdox.lookup path (Insertdox.disk w') = None))).
Proof.
  intros a app path text result r w w' Hl Hrun.
  assert (Ntmp : path ++ str ".tmp" <> path) by (apply suffixed_differs; discriminate).
  assert (Nbak : path ++ str ".bak" <> path) by (apply suffixed_differs; discriminate).
  assert (Ntb : path ++ str ".tmp" <> path ++ str ".bak").
  { intros H. apply app_inv_head in H. discriminate H. }
  unfold Insertdox.processPath, Insertdox.fopen_r, Insertdox.fopen_w, Insertdox.rename,
    cpycat in Hrun.
  rewrite Hl in Hrun.
  destruct (readable path); [|apply some_pair in Hrun as [<- <-]; left; exact Hl].
  destruct (cpycat_ok path (str ".tmp")); [|apply some_pair in Hrun as [<- <-]; left; exact Hl].
  destruct (writable (path ++ str ".tmp")); [|apply some_pair in Hrun as [<- <-]; left; exact Hl].
  destruct (Insertdox.run _ _ _ _ a _ _ text _) as [[r0 out]|]; [|discriminate].
  cbn [Insertdox.disk Insertdox.set_disk] in Hrun.
  assert (Hkept : Insertdox.lookup path
                    (Insertdox.write (path ++ str ".tmp") out
                       (Insertdox.write (path ++ str ".tmp") [] (Insertdox.disk w)))
                  = Some text).
  { rewrite !lookup_write_ne by exact Ntmp. exact Hl. }
  destruct (r0 =? 0) eqn:Hr0; [|apply some_pair in Hrun as [<- <-]; left; exact Hkept].
  destruct (cpycat_ok path (str ".bak")); [|apply some_pair in Hrun as [<- <-]; left; exact Hkept].
  destruct (movable path (path ++ str ".bak")); [|apply some_pair in Hrun as [<- <-]; left; exact Hkept].
  rewrite Hkept in Hrun. cbn [Insertdox.disk Insertdox.set_disk] in Hrun.
  rewrite (lookup_write_ne (path ++ str ".bak") (path ++ str ".tmp")) in Hrun
    by (intros H; apply Ntb; now symmetry).
  rewrite (lookup_remove_ne path (path ++ str ".tmp")) in Hrun
    by (intros H; apply Ntmp; now symmetry).
  rewrite lookup_write_eq in Hrun.
  destruct (movable (path ++ str ".tmp") path); apply some_pair in Hrun as [<- <-]; right;
    cbn [Insertdox.disk Insertdox.set_disk Insertdox.complain Insertdox.set_stderr].
  - split.
    + rewrite lookup_write_ne by (intros H; apply Nbak; now symmetry).
      rewrite lookup_remove_ne by exact Ntb. apply lookup_write_eq.
    + left. split; [reflexivity|]. exists out. apply lookup_write_eq.
  - split; [apply lookup_write_eq|].
    right. split; [reflexivity|].
    rewrite lookup_write_ne by exact Nbak. apply lookup_remove_eq.
Qed.

End Files.

Lemma options_alone_process_nothing_witness :
  exists w',
    Insertdox.main (str "0.91") always Insertdox.granted2 Insertdox.granted Insertdox.granted
      Insertdox.granted2 4096 4096 [str "insertdox"; str "--help"; str "-x"]
      Insertdox.sampleWorld = Some (0, w')
    /\ Insertdox.disk w' = Insertdox.disk Insertdox.sampleWorld
    /\ Insertdox.stdin w' = Insertdox.stdin Insertdox.sampleWorld
    /\ Insertdox.stdout w' = Insertdox.stdout Insertdox.sampleWorld.
Proof.
  apply (options_alone_process_nothing (str "0.91") always Insertdox.granted2
           Insertdox.granted Insertdox.granted Insertdox.granted2 4096 4096
           (str "insertdox") [str "--help"; str "-x"] Insertdox.sampleWorld).
  - discriminate.
  - reflexivity.
Defined.

Lemma sample_goesWell (a : Insertdox.tArguments) (w : Insertdox.tWorld) :
  Insertdox.boilerplate a = None -> Insertdox.onlyPrototypes a = false ->
  Insertdox.lookup (str "a.c") (Insertdox.disk w) = Some Insertdox.sampleText ->
  Insertdox.goesWell always Insertdox.granted2 Insertdox.granted Insertdox.granted
    Insertdox.granted2 4096 4096 a (str "a.c") Insertdox.sampleText Insertdox.sampleResult w.
Proof.
  intros Hb Hp Hl. unfold Insertdox.goesWell. rewrite Hp.
  split; [exact Hb|]. split; [reflexivity|]. split; [exact Hl|].
  split; [reflexivity|]. split; [reflexivity|]. split; [reflexivity|].
  split; [reflexivity|]. split; [reflexivity|].
  vm_compute. reflexivity.
Qed.

Lemma file_is_replaced_with_backup_witness :
  exists w',
    Insertdox.main (str "0.91") always Insertdox.granted2 Insertdox.granted Insertdox.granted
      Insertdox.granted2 4096 4096 [str "insertdox"; str "a.c"] Insertdox.sampleWorld
    = Some (0, w')
    /\ Insertdox.lookup (str "a.c") (Insertdox.disk w') = Some Insertdox.sampleResult
    /\ Insertdox.lookup (str "a.c" ++ str ".bak") (Insertdox.disk w')
       = Some Insertdox.sampleText
    /\ Insertdox.lookup (str "a.c" ++ str ".tmp") (Insertdox.disk w') = None
    /\ (forall q, q <> str "a.c" -> q <> str "a.c" ++ str ".bak" ->
        q <> str "a.c" ++ str ".tmp" ->
        Insertdox.lookup q (Insertdox.disk w')
        = Insertdox.lookup q (Insertdox.disk Insertdox.sampleWorld))
    /\ Insertdox.stdout w' = Insertdox.stdout Insertdox.sampleWorld.
Proof.
  apply (file_is_replaced_with_backup (str "0.91") always Insertdox.granted2
           Insertdox.granted Insertdox.granted Insertdox.granted2 4096 4096
           (str "insertdox") (str "a.c") Insertdox.sampleText Insertdox.sampleResult
           Insertdox.sampleWorld).
  - reflexivity.
  - apply sample_goesWell; reflexivity.
Defined.

Lemma last_file_decides_the_result_witness :
  exists w',
    Insertdox.fileLoop always Insertdox.granted2 Insertdox.granted Insertdox.granted
      Insertdox.granted2 4096 4096 Insertdox.sampleArguments (str "insertdox")
      ([str "b.c"] ++ [str "a.c"]) 0 Insertdox.sampleWorld = Some (0, w')
    /\ Insertdox.replaced (str "a.c") Insertdox.sampleText Insertdox.sampleResult
         (Insertdox.complain
            (str "### error: unable to open 'b.c' for reading (in insertdox)" ++ NL)
            Insertdox.sampleWorld) w'.
Proof.
  apply (last_file_decides_the_result always Insertdox.granted2 Insertdox.granted
           Insertdox.granted Insertdox.granted2 4096 4096
           Insertdox.sampleArguments (str "insertdox") [str "b.c"] (str "a.c")
           Insertdox.sampleText Insertdox.sampleResult 0 (-1) Insertdox.sampleWorld
           (Insertdox.complain
              (str "### error: unable to open 'b.c' for reading (in insertdox)" ++ NL)
              Insertdox.sampleWorld)).
  - reflexivity.
  - apply sample_goesWell; reflexivity.
Defined.

Lemma piped_run :
  processFile (mkOptions None None true) always 4096 4096
    (Insertdox.stdin Insertdox.pipedWorld)
  = Some (0, Insertdox.pipedPrototype).
Proof. vm_compute. reflexivity. Qed.

Lemma standard_streams_without_file_names_witness :
  exists w',
    Insertdox.main (str "0.91") always Insertdox.granted2 Insertdox.granted Insertdox.granted
      Insertdox.granted2 4096 4096 [str "insertdox"; str "-p"] Insertdox.pipedWorld
    = Some (0, w')
    /\ Insertdox.stdout w'
       = Insertdox.stdout Insertdox.pipedWorld ++ Insertdox.pipedPrototype
    /\ Insertdox.disk w' = Insertdox.disk Insertdox.pipedWorld.
Proof.
  apply (standard_streams_without_file_names (str "0.91") always Insertdox.granted2
           Insertdox.granted Insertdox.granted Insertdox.granted2 4096 4096
           (str "insertdox") [str "-p"] Insertdox.pipedPrototype 0 Insertdox.pipedWorld).
  - reflexivity.
  - reflexivity.
  - right. reflexivity.
  - exact piped_run.
Defined.

Lemma original_contents_survive_witness :
  Insertdox.lookup (str "a.c")
    (Insertdox.disk
       (Insertdox.complain
          (str "### error: unable to open 'a.c.tmp' for writing (in insertdox)" ++ NL)
          Insertdox.sampleWorld)) = Some Insertdox.sampleText
  \/ (Insertdox.lookup (str "a.c" ++ str ".bak")
        (Insertdox.disk
           (Insertdox.complain
              (str "### error: unable to open 'a.c.tmp' for writing (in insertdox)" ++ NL)
              Insertdox.sampleWorld)) = Some Insertdox.sampleText
      /\ ((-2 = 0
           /\ exists out,
               Insertdox.lookup (str "a.c")
                 (Insertdox.disk
                    (Insertdox.complain
                       (str "### error: unable to open 'a.c.tmp' for writing (in insertdox)"
                        ++ NL)
                       Insertdox.sampleWorld)) = Some out)
          \/ (-2 = -4
              /\ Insertdox.lookup (str "a.c")
                   (Insertdox.disk
                      (Insertdox.complain
                         (str "### error: unable to open 'a.c.tmp' for writing (in insertdox)"
                          ++ NL)
                         Insertdox.sampleWorld)) = None))).
Proof.
  apply (original_contents_survive always Insertdox.granted2 Insertdox.granted
           (fun _ => false) Insertdox.granted2 4096 4096
           Insertdox.sampleArguments (str "insertdox") (str "a.c") Insertdox.sampleText 0 (-2)
           Insertdox.sampleWorld).
  - reflexivity.
  - reflexivity.
Defined.
